(** * macro-credit-regimes: feature pipeline, rule-based regime classifier
      and regime / stress-window analytics

    A shallow embedding of
      - [src/macro_credit_regimes/features.py]  ([build_features]),
      - [src/macro_credit_regimes/regimes.py]   ([rule_based_regime]),
      - [src/macro_credit_regimes/analytics.py] ([regime_distribution],
        [stress_window_scorecard]),
      - [src/macro_credit_regimes/data.py] ([_read_csv_with_retries]),
      - [src/macro_credit_regimes/plots.py] (the block scan of
        [_draw_regime_timeline]),
      - [src/macro_credit_regimes/pdf_builder.py] ([_chunk_table_rows],
        [_select_group_columns], [_escape]),
      - [run_report.py] (the feature and label computation of [main])
    and the properties of these functions.

    Conventions of the embedding.
    - A pandas float column is a [list (option Q)]: [None] is NaN, [Some q]
      a finite value.  Arithmetic is exact rational arithmetic; binary
      floating-point rounding is outside the model.
    - A pandas object column of labels is a [list (option string)].
    - A DataFrame is its index (dates as day numbers) with a finite map
      from column names to columns.
    - An exception is a value of [exn]; a function that can raise returns
      a [result].
    - Writing the CSV files ([os.makedirs], [to_csv]) is not modelled. *)

From Stdlib Require Import ZArith QArith Qabs Qround.
From stdpp Require Import base option list sorting gmap strings pretty.

Open Scope string_scope.
Open Scope list_scope.

(** ** Exceptions *)

Inductive exn : Type :=
  | KeyError (column : string)
  | ValueError (message : string).

Inductive result (A : Type) : Type :=
  | Ok (a : A)
  | Raise (e : exn).
Arguments Ok {A} a.
Arguments Raise {A} e.

#[global] Instance result_ret : MRet result := fun _ a => Ok a.
#[global] Instance result_bind : MBind result := fun _ _ f m =>
  match m with
  | Ok a => f a
  | Raise e => Raise e
  end.

(** Two runs end alike: both return, with related values, or both raise
    the same exception. *)
Definition result_rel {A} (R : A -> A -> Prop) (r1 r2 : result A) : Prop :=
  match r1, r2 with
  | Ok a, Ok b => R a b
  | Raise e1, Raise e2 => e1 = e2
  | _, _ => False
  end.

(** ** Columns and frames *)

Abbreviation Series := (list (option Q)).
Abbreviation BoolSeries := (list bool).
Abbreviation LabelSeries := (list (option string)).

Record DataFrame : Type := mkFrame {
  df_index : list Z;
  df_columns : gmap string Series;
}.

(** Every column of a DataFrame has one cell per index entry. *)
Definition wf_frame (df : DataFrame) : Prop :=
  map_Forall (fun _ (s : Series) => length s = length (df_index df)) (df_columns df).

#[global] Instance wf_frame_dec df : Decision (wf_frame df).
Proof. unfold wf_frame. apply _. Defined.

(** [c in df.columns] *)
Definition has_column (df : DataFrame) (c : string) : bool :=
  bool_decide (is_Some (df_columns df !! c)).

(** [df[c]]: raises [KeyError] when the column is absent. *)
Definition getcol (df : DataFrame) (c : string) : result Series :=
  match df_columns df !! c with
  | Some s => Ok s
  | None => Raise (KeyError c)
  end.

(** [df[c] = s] *)
Definition setcol (c : string) (s : Series) (df : DataFrame) : DataFrame :=
  mkFrame (df_index df) (<[c := s]> (df_columns df)).

(** ** Element-wise comparisons.  A comparison with NaN is [False]. *)

Definition Qltb (x y : Q) : bool := negb (Qle_bool y x).

Definition cmp_scalar (test : Q -> bool) (s : Series) : BoolSeries :=
  (fun x => match x with Some q => test q | None => false end) <$> s.

(** [s < c], [s <= c], [s > c], [s >= c] *)
Definition lt_scalar (s : Series) (c : Q) : BoolSeries := cmp_scalar (fun q => Qltb q c) s.
Definition le_scalar (s : Series) (c : Q) : BoolSeries := cmp_scalar (fun q => Qle_bool q c) s.
Definition gt_scalar (s : Series) (c : Q) : BoolSeries := cmp_scalar (fun q => Qltb c q) s.
Definition ge_scalar (s : Series) (c : Q) : BoolSeries := cmp_scalar (fun q => Qle_bool c q) s.

(** [s.abs()] *)
Definition series_abs (s : Series) : Series :=
  (fun x : option Q => Qabs <$> x) <$> s.

(** [a & b], [a | b], [~a] on boolean columns of one index *)
Definition band (a b : BoolSeries) : BoolSeries := zip_with andb a b.
Definition bor (a b : BoolSeries) : BoolSeries := zip_with orb a b.
Definition bnot (a : BoolSeries) : BoolSeries := negb <$> a.

(** [s.shift(k)] / [s.shift(k, fill_value=fill)]: positional shift that keeps
    the index; [k >= 0] moves values to later rows, [k < 0] to earlier rows. *)
Definition shift {A} (k : Z) (fill : A) (s : list A) : list A :=
  if (0 <=? k)%Z
  then take (length s) (replicate (Z.to_nat k) fill ++ s)
  else drop (Z.to_nat (- k)) s ++ replicate (Nat.min (Z.to_nat (- k)) (length s)) fill.

(** [regime.loc[mask] = label] *)
Definition loc_set (mask : BoolSeries) (label : string) (regime : LabelSeries) : LabelSeries :=
  zip_with (fun (m : bool) x => if m then Some label else x) mask regime.

(** [regime.eq(label)] *)
Definition label_eq (regime : LabelSeries) (label : string) : BoolSeries :=
  (fun x => bool_decide (x = Some label)) <$> regime.

(** [regime.fillna(label)] *)
Definition fillna (label : string) (regime : LabelSeries) : LabelSeries :=
  (fun x => Some (default label x)) <$> regime.

(** ** regimes.py *)

Definition CRISIS : string := "Risk-off / crisis".
Definition PIVOT : string := "Policy pivot".
Definition LATE_CYCLE : string := "Late-cycle".
Definition EXPANSION : string := "Risk-on / expansion".
Definition TRANSITION : string := "Transition".

Module Thresholds.
Definition rate_move : Q := 0.10.
Definition credit_widen : Q := 0.10.
Definition credit_stable : Q := 0.05.
Definition vix_low : Q := 15.
Definition vix_elevated : Q := 20.
Definition vix_spike : Q := 5.
End Thresholds.

Definition required : list string :=
  [ "ust_2y_chg_1m"; "ust_10y_chg_1m"; "curve_10y2y";
    "credit_chg_1m"; "vix_level"; "vix_chg_1m" ].

(** Source lines 46-128 of [rule_based_regime]: the primitive signals, the
    regime definitions, the assignments and the score override.  The result
    is the label column as it stands when the persistence step reads it
    (NaN where no rule fired).  The columns are read in the order of the
    source, so the first missing one is the one whose [KeyError] surfaces.
    [rates_falling] (lines 55-58) is computed by the source and never read
    afterwards; it only reads a required column and is left out. *)
Definition assign_regimes (df : DataFrame) : result LabelSeries :=
  let regime : LabelSeries := replicate (length (df_index df)) None in
  (* primitive signals *)
  ust_2y_chg_1m ← getcol df "ust_2y_chg_1m";
  ust_10y_chg_1m ← getcol df "ust_10y_chg_1m";
  let rates_rising :=
    band (gt_scalar ust_2y_chg_1m Thresholds.rate_move)
         (gt_scalar ust_10y_chg_1m Thresholds.rate_move) in
  curve_10y2y ← getcol df "curve_10y2y";
  let curve_inverted := lt_scalar curve_10y2y 0 in
  let curve_flat_or_down := le_scalar ust_10y_chg_1m 0 in
  credit_chg_1m ← getcol df "credit_chg_1m";
  credit_z_1y ← getcol df "credit_z_1y";
  let credit_widening :=
    band (gt_scalar credit_chg_1m Thresholds.credit_widen)
         (gt_scalar credit_z_1y 1.0) in
  let credit_tightening := lt_scalar credit_chg_1m (- Thresholds.credit_stable) in
  let credit_stable_cond := lt_scalar (series_abs credit_chg_1m) Thresholds.credit_stable in
  vix_level ← getcol df "vix_level";
  let vix_low_cond := lt_scalar vix_level Thresholds.vix_low in
  let vix_elev := ge_scalar vix_level Thresholds.vix_elevated in
  vix_chg_1m ← getcol df "vix_chg_1m";
  let vix_spiking := gt_scalar vix_chg_1m Thresholds.vix_spike in
  (* regime definitions *)
  risk_off_score ← getcol df "risk_off_score";
  let crisis :=
    band (band credit_widening vix_spiking)
         (bor (ge_scalar risk_off_score 2) (gt_scalar credit_z_1y 1.5)) in
  let pivot :=
    band (band (band (lt_scalar ust_2y_chg_1m (- Thresholds.rate_move))
                     curve_flat_or_down)
               vix_elev)
         (bnot vix_spiking) in
  let late_cycle := band (band curve_inverted credit_stable_cond) vix_low_cond in
  let expansion := band (band rates_rising credit_tightening) vix_low_cond in
  (* assign regimes: later assignments overwrite earlier ones *)
  let regime := loc_set expansion EXPANSION regime in
  let regime := loc_set late_cycle LATE_CYCLE regime in
  let regime := loc_set pivot PIVOT regime in
  let regime := loc_set crisis CRISIS regime in
  (* risk-off score override *)
  let regime :=
    if has_column df "risk_off_score"
    then loc_set (ge_scalar risk_off_score 3) CRISIS regime
    else regime in
  Ok regime.

(** The crisis exit condition (source line 132). *)
Definition exit_crisis (credit_z_1y vix_level : Series) : BoolSeries :=
  band (lt_scalar credit_z_1y 0.5) (lt_scalar vix_level Thresholds.vix_elevated).

(** [rule_based_regime(features)]: the early return on a missing required
    column, the assignments above, then the persistence step and the final
    fill (source lines 130-139). *)
Definition rule_based_regime (features : DataFrame) : result LabelSeries :=
  let df := features in
  let regime : LabelSeries := replicate (length (df_index df)) None in
  if negb (forallb (has_column df) required)
  then Ok (fillna TRANSITION regime)
  else
    regime ← assign_regimes df;
    (* crisis persistence *)
    let crisis_active := label_eq regime CRISIS in
    credit_z_1y ← getcol df "credit_z_1y";
    vix_level ← getcol df "vix_level";
    let exit_crisis := exit_crisis credit_z_1y vix_level in
    let regime :=
      loc_set (band (shift 1 false crisis_active) (bnot exit_crisis)) CRISIS regime in
    (* final fill *)
    Ok (fillna TRANSITION regime).

(** The cell of column [c] on row [t]: [Some None] is NaN, [None] means
    that the column or the row does not exist. *)
Definition cell_at (df : DataFrame) (c : string) (t : nat) : option (option Q) :=
  s ← df_columns df !! c; s !! t.

(** The persistence rule as a strict left-to-right pass, the way the
    specification words it: a day is kept at crisis when the finalized
    label of the day before is crisis and the exit condition is not met;
    [prev] tells whether the finalized label of the day before is crisis.
    It serves as the reference [rule_based_regime] is compared with. *)
Fixpoint sticky_pass (prev : bool) (regime : LabelSeries) (exit : BoolSeries)
  : LabelSeries :=
  match regime, exit with
  | x :: regime', e :: exit' =>
      let y := if prev && negb e then Some CRISIS else x in
      y :: sticky_pass (bool_decide (y = Some CRISIS)) regime' exit'
  | _, _ => []
  end.

(** The columns [rule_based_regime] reads. *)
Definition classifier_columns : list string :=
  required ++ ["credit_z_1y"; "risk_off_score"].

(** ** features.py *)

(** Element-wise arithmetic on float columns: NaN propagates. *)
Definition lift2 (f : Q -> Q -> Q) (a b : option Q) : option Q :=
  match a, b with
  | Some x, Some y => Some (f x y)
  | _, _ => None
  end.

Definition series_sub (a b : Series) : Series := zip_with (lift2 Qminus) a b.
Definition series_div (a b : Series) : Series := zip_with (lift2 Qdiv) a b.

(** [s.replace(0, nan)] *)
Definition replace_zero (s : Series) : Series :=
  (fun x : option Q =>
     match x with
     | Some q => if Qeq_bool q 0 then None else Some q
     | None => None
     end) <$> s.

(** [b.astype("float")]: [True] is 1.0 and [False] is 0.0; no NaN arises. *)
Definition astype_float (b : BoolSeries) : Series :=
  (fun x : bool => Some (if x then 1%Q else 0%Q)) <$> b.

(** [s.ffill(limit=limit)], as the left-to-right pass it is: [last] is the
    last valid value seen and [run] the number of NaN cells since then. *)
Fixpoint ffill_from (limit : nat) (last : option Q) (run : nat) (s : Series) : Series :=
  match s with
  | [] => []
  | Some v :: s' => Some v :: ffill_from limit (Some v) 0 s'
  | None :: s' =>
      (if (run <? limit)%nat then last else None) :: ffill_from limit last (S run) s'
  end.

Definition ffill (limit : nat) (s : Series) : Series := ffill_from limit None 0 s.

(** [df.shift(k)] and [df.ffill(limit=k)] act on every column.  pandas
    rejects a limit below 1.  It also rejects a shift count that a 64-bit
    integer does not hold ([OverflowError]); [frame_shift] stands for the
    calls with a count that pandas accepts. *)
Definition frame_shift (k : Z) (df : DataFrame) : DataFrame :=
  mkFrame (df_index df) (shift k None <$> df_columns df).

Definition frame_ffill (limit : Z) (df : DataFrame) : result DataFrame :=
  if (limit <? 1)%Z
  then Raise (ValueError "Limit must be greater than 0")
  else Ok (mkFrame (df_index df) (ffill (Z.to_nat limit) <$> df_columns df)).

(** The observations of a rolling window: the non-NaN cells among the
    last [w] rows up to and including row [i]. *)
Definition window_at (w : nat) (s : Series) (i : nat) : Series :=
  drop (S i - w) (take (S i) s).

Definition observations (win : Series) : list Q := omap id win.

Definition Qsum (l : list Q) : Q := foldr Qplus 0%Q l.

(** [x.rolling(window, min_periods)]: the argument checks of pandas. *)
Definition rolling_validate (window min_periods : Z) : result unit :=
  if (min_periods <? 0)%Z then Raise (ValueError "min_periods must be >= 0")
  else if (window <? min_periods)%Z
       then Raise (ValueError ("min_periods " ++ pretty min_periods
                               ++ " must be <= window " ++ pretty window)%string)
  else if (window <? 0)%Z then Raise (ValueError "window must be an integer 0 or greater")
  else Ok ().

(** A rolling aggregate: NaN where the window holds fewer than
    [min_periods] observations or the aggregate is undefined. *)
Definition rolling (window min_periods : Z) (agg : list Q -> option Q) (x : Series)
  : result Series :=
  _ ← rolling_validate window min_periods;
  Ok ((fun i =>
         let obs := observations (window_at (Z.to_nat window) x i) in
         if (Z.to_nat min_periods <=? length obs)%nat then agg obs else None)
        <$> seq 0 (length x)).

Definition mean_agg (obs : list Q) : option Q :=
  match obs with
  | [] => None
  | _ => Some (Qsum obs / inject_Z (Z.of_nat (length obs)))%Q
  end.

Section Features.

(** The square root taken by the rolling standard deviation; the only
    operation of the pipeline that leaves the rationals. *)
Variable qsqrt : Q -> Q.

(** Sample standard deviation ([ddof = 1]): undefined below two
    observations. *)
Definition std_agg (obs : list Q) : option Q :=
  match mean_agg obs with
  | Some mu =>
      if (length obs <? 2)%nat then None
      else Some (qsqrt (Qsum ((fun v => (v - mu) * (v - mu))%Q <$> obs)
                        / inject_Z (Z.of_nat (length obs - 1))))
  | None => None
  end.

(** The nested helper [zscore_rolling(x, window, min_periods)]. *)
Definition zscore_rolling (x : Series) (window min_periods : Z) : result Series :=
  mu ← rolling window min_periods mean_agg x;
  sd ← rolling window min_periods std_agg x;
  let sd := replace_zero sd in
  Ok (series_div (series_sub x mu) sd).

(** Source lines 31-33: the yield curve and its z-score, when both
    tenors are present. *)
Definition add_curve (days_1y min_1y : Z) (df : DataFrame) : result DataFrame :=
  match df_columns df !! "ust_10y", df_columns df !! "ust_2y" with
  | Some ust_10y, Some ust_2y =>
      let curve_10y2y := series_sub ust_10y ust_2y in
      let df := setcol "curve_10y2y" curve_10y2y df in
      z ← zscore_rolling curve_10y2y days_1y min_1y;
      Ok (setcol "curve_z_1y" z df)
  | _, _ => Ok df
  end.

(** Source lines 38-40: one turn of [for col in ["ust_10y", "ust_2y"]]. *)
Definition add_rates_momentum (days_1m : Z) (col : string) (df : DataFrame)
  : DataFrame :=
  match df_columns df !! col with
  | Some x =>
      setcol (col ++ "_chg_1m")%string (series_sub x (shift days_1m None x)) df
  | None => df
  end.

(** Source lines 45-48: credit level, momentum and z-score. *)
Definition add_credit (days_1m days_1y min_1y : Z) (df : DataFrame)
  : result DataFrame :=
  match df_columns df !! "baa_10y_spread" with
  | Some baa =>
      let df := setcol "credit_level" baa df in
      let df := setcol "credit_chg_1m" (series_sub baa (shift days_1m None baa)) df in
      z ← zscore_rolling baa days_1y min_1y;
      Ok (setcol "credit_z_1y" z df)
  | None => Ok df
  end.

(** Source lines 53-56: volatility level, momentum and z-score. *)
Definition add_volatility (days_1m days_1y min_1y : Z) (df : DataFrame)
  : result DataFrame :=
  match df_columns df !! "vix" with
  | Some vix =>
      let df := setcol "vix_level" vix df in
      let df := setcol "vix_chg_1m" (series_sub vix (shift days_1m None vix)) df in
      z ← zscore_rolling vix days_1y min_1y;
      Ok (setcol "vix_z_1y" z df)
  | None => Ok df
  end.

(** [if c in df.columns: signals.append(test(df[c]).astype("float"))] *)
Definition append_signal (df : DataFrame) (c : string)
    (test : Series -> BoolSeries) (signals : list Series) : list Series :=
  match df_columns df !! c with
  | Some x => signals ++ [astype_float (test x)]
  | None => signals
  end.

(** [sig.sum(axis=1, min_count=min_count)] over the concatenated signal
    columns: the sum of the non-NaN cells of a row, NaN when the row
    holds fewer than [min_count] of them. *)
Definition row_sum (min_count : nat) (n : nat) (sig : list Series) : Series :=
  (fun i =>
     let cells := omap (fun s : Series => mjoin (s !! i)) sig in
     if (min_count <=? length cells)%nat then Some (Qsum cells) else None)
    <$> seq 0 n.

(** Source lines 61-71: the stress sub-signals of the columns present. *)
Definition stress_signals (df : DataFrame) : list Series :=
  let signals : list Series := [] in
  let signals := append_signal df "curve_10y2y" (fun x => lt_scalar x 0) signals in
  let signals := append_signal df "credit_chg_1m" (fun x => gt_scalar x 0) signals in
  let signals := append_signal df "vix_chg_1m" (fun x => gt_scalar x 0) signals in
  signals.

(** Source lines 74-76: the composite score, when there is a signal. *)
Definition add_risk_off_score (df : DataFrame) : DataFrame :=
  let signals := stress_signals df in
  match signals with
  | [] => df
  | _ => setcol "risk_off_score"
           (row_sum (length signals) (length (df_index df)) signals) df
  end.

(** [build_features(macro, lag_days, days_1m, days_1y, fill_days)] *)
Definition build_features (macro : DataFrame)
    (lag_days days_1m days_1y fill_days : Z) : result DataFrame :=
  let df := macro in
  let min_1y := Z.quot (days_1y * 8) 10 in
  (* 1) lag raw inputs, then fill small gaps *)
  let df := frame_shift lag_days df in
  df ← frame_ffill fill_days df;
  (* 2) yield curve *)
  df ← add_curve days_1y min_1y df;
  (* 3) rates momentum *)
  let df := add_rates_momentum days_1m "ust_10y" df in
  let df := add_rates_momentum days_1m "ust_2y" df in
  (* 4) credit stress *)
  df ← add_credit days_1m days_1y min_1y df;
  (* 5) volatility *)
  df ← add_volatility days_1m days_1y min_1y df;
  (* 6) risk-off signal count *)
  Ok (add_risk_off_score df).

End Features.

(** Two columns of one length that agree on every row up to row [p]. *)
Definition series_agree {A} (p : Z) (s1 s2 : list A) : Prop :=
  length s1 = length s2 /\
  forall i : nat, (Z.of_nat i <= p)%Z -> s1 !! i = s2 !! i.

(** Two tables over one index with the same columns, which agree on every
    row up to row [p]. *)
Definition frames_agree (p : Z) (a b : DataFrame) : Prop :=
  df_index a = df_index b /\
  forall c,
    match df_columns a !! c, df_columns b !! c with
    | Some s1, Some s2 => series_agree p s1 s2
    | None, None => True
    | _, _ => False
    end.

(** The row of a table at position [t]: the cell of every column. *)
Definition row_at (df : DataFrame) (t : nat) : gmap string (option Q) :=
  omap (fun s : Series => s !! t) (df_columns df).

(** ** analytics.py *)

Definition REGIME_ORDER : list string :=
  [CRISIS; PIVOT; LATE_CYCLE; EXPANSION; TRANSITION].

(** [_normalize_regime(regimes)]: a label column indexed by dates, with
    missing labels replaced by the default regime.  The [None] and
    index-type checks of the source are carried by the argument type. *)
Definition _normalize_regime (regimes : list (Z * option string)) : list (Z * string) :=
  (fun p => (p.1, default TRANSITION p.2)) <$> regimes.

(** An ordered [pd.CategoricalIndex]: a value outside the categories is NaN. *)
Record CategoricalIndex : Type := mkCategorical {
  ci_values : list (option string);
  ci_categories : list string;
}.

(** [_ordered_regime_index(idx)] *)
Definition _ordered_regime_index (idx : list string) : CategoricalIndex :=
  let cats := filter (fun r => r ∈ idx) REGIME_ORDER in
  let ordered := cats in
  mkCategorical
    ((fun v => if decide (v ∈ ordered) then Some v else None) <$> idx)
    ordered.

(** [s.value_counts(dropna=False)]: one entry per distinct value that
    occurs, most frequent first (pandas fixes no order among equal counts). *)
Definition count_ge (a b : string * nat) : Prop := (b.2 ≤ a.2)%nat.

#[global] Instance count_ge_dec a b : Decision (count_ge a b).
Proof. unfold count_ge. apply _. Defined.

Definition value_counts (vals : list string) : list (string * nat) :=
  merge_sort count_ge
    ((fun k => (k, length (filter (fun v => v = k) vals))) <$> remove_dups vals).

(** The code of a value of an ordered categorical index: its position
    among the categories; [None] for NaN. *)
Definition category_code (cats : list string) (v : option string) : option nat :=
  s ← v; fst <$> list_find (fun c => c = s) cats.

(** Order of [sort_index] on an ordered categorical index: by code, NaN last. *)
Definition code_le (a b : option nat) : Prop :=
  match a, b with
  | Some x, Some y => (x ≤ y)%nat
  | _, None => True
  | None, Some _ => False
  end.

#[global] Instance code_le_dec a b : Decision (code_le a b).
Proof. destruct a, b; simpl; apply _. Defined.

(** [round(2)] of a share: to the nearest hundredth, ties to even, on the
    exact quotient.  The source rounds the binary float of the quotient,
    which can lie on the other side of a tie (23 days of 4000: the exact
    share 0.575 rounds to 0.58, the float to 0.57); the properties of the
    distribution table below are about its labels and day counts. *)
Definition round_half_even (x : Q) : Z :=
  let f := Qfloor x in
  match (x - inject_Z f ?= 1 # 2)%Q with
  | Lt => f
  | Gt => (f + 1)%Z
  | Eq => if Z.even f then f else (f + 1)%Z
  end.

Definition round2 (x : Q) : Q := (inject_Z (round_half_even (x * 100)) / 100)%Q.

Record DistRow : Type := mkDistRow {
  dist_regime : option string;
  dist_days : nat;
  dist_share : Q;
}.

Record DistTable : Type := mkDistTable {
  dist_rows : list DistRow;
  dist_total_days : option nat;
}.

Definition row_le (cats : list string) (r1 r2 : DistRow) : Prop :=
  code_le (category_code cats (dist_regime r1)) (category_code cats (dist_regime r2)).

#[global] Instance row_le_dec cats r1 r2 : Decision (row_le cats r1 r2).
Proof. unfold row_le. apply _. Defined.

(** [out.sort_index()] on the categorical row index. *)
Definition sort_index (cats : list string) (rows : list DistRow) : list DistRow :=
  merge_sort (row_le cats) rows.

(** [regime_distribution(regimes, include_total)] *)
Definition regime_distribution (regimes : list (Z * option string))
    (include_total : bool) : DistTable :=
  let reg := _normalize_regime regimes in
  let counts := value_counts (snd <$> reg) in
  let total := sum_list (snd <$> counts) in
  let share (days : nat) :=
    round2 (inject_Z (Z.of_nat days) / inject_Z (Z.of_nat total) * 100)%Q in
  let index := _ordered_regime_index (fst <$> counts) in
  let out :=
    zip_with (fun c (kd : string * nat) => mkDistRow c kd.2 (share kd.2))
             (ci_values index) counts in
  let out := sort_index (ci_categories index) out in
  mkDistTable out (if include_total then Some total else None).

(** *** The stress-window scorecard *)

(** A cell of a report table. *)
Inductive cell : Type :=
  | CStr (s : string)
  | CInt (n : Z)
  | CFloat (q : Q)
  | CNaN
  | CDate (d : Z)
  | CNaT.

(** A Python [dict] with string keys, in insertion order. *)
Abbreviation dict := (list (string * cell)).

Fixpoint dict_get (k : string) (d : dict) : option cell :=
  match d with
  | [] => None
  | (k', v) :: d' => if decide (k' = k) then Some v else dict_get k d'
  end.

Fixpoint dict_set (k : string) (v : cell) (d : dict) : dict :=
  match d with
  | [] => [(k, v)]
  | (k', v') :: d' =>
      if decide (k' = k) then (k, v) :: d' else (k', v') :: dict_set k v d'
  end.

(** One row of the [windows] frame. *)
Record Window : Type := mkWindow {
  w_episode : string;
  w_start : Z;
  w_end : Z;
}.

(** [s.loc[mask]] *)
Definition select_mask {A} (mask : BoolSeries) (s : list A) : list A :=
  snd <$> filter (fun p : bool * A => p.1 = true) (zip mask s).

(** [float(b.mean())]: the share of [True] cells; NaN on an empty column. *)
Definition bool_mean (b : BoolSeries) : cell :=
  match b with
  | [] => CNaN
  | _ => CFloat (inject_Z (Z.of_nat (length (filter (fun x => x = true) b)))
                 / inject_Z (Z.of_nat (length b)))%Q
  end.

(** [b.cumsum()] on a boolean column. *)
Fixpoint cumsum_from (acc : nat) (b : BoolSeries) : list nat :=
  match b with
  | [] => []
  | x :: b' =>
      let acc' := (acc + (if x then 1 else 0))%nat in
      acc' :: cumsum_from acc' b'
  end.

(** [(is_crisis != is_crisis.shift(1)).cumsum()]: the shifted column
    starts with NaN, which differs from every value. *)
Definition run_id (is_crisis : BoolSeries) : list nat :=
  cumsum_from 0
    (zip_with (fun (x : bool) (p : option bool) => bool_decide (Some x ≠ p))
              is_crisis (shift 1 None (Some <$> is_crisis))).

(** Iterating [s.groupby(keys)]: the groups in ascending key order, each
    with its rows in index order. *)
Definition groupby {A} (keys : list nat) (s : list A) : list (nat * list A) :=
  (fun k => (k, snd <$> filter (fun p : nat * A => p.1 = k) (zip keys s)))
    <$> merge_sort le (remove_dups keys).

Record RunState : Type := mkRunState {
  max_run_days : nat;
  max_run_start : cell;
  max_run_end : cell;
}.

(** The body of [for rid, chunk in is_crisis.groupby(run_id)]. *)
Definition run_step (st : RunState) (group : nat * list (Z * bool)) : RunState :=
  let chunk := group.2 in
  match chunk with
  | [] => st
  | first :: _ =>
      if negb first.2 then st
      else
        let days := length (filter (fun p : Z * bool => p.2 = true) chunk) in
        if (max_run_days st <? days)%nat
        then mkRunState days (CDate first.1) (CDate (default first (last chunk)).1)
        else st
  end.

(** Source lines 313-325. *)
Definition max_crisis_run (is_crisis : list (Z * bool)) : RunState :=
  let run := run_id (snd <$> is_crisis) in
  foldl run_step (mkRunState 0 CNaT CNaT) (groupby run is_crisis).

(** [is_crisis.idxmax()] when [is_crisis.any()], [pd.NaT] otherwise. *)
Definition first_crisis (is_crisis : list (Z * bool)) : cell :=
  match filter (fun p : Z * bool => p.2 = true) is_crisis with
  | p :: _ => CDate p.1
  | [] => CNaT
  end.

Definition share_key (st : Z) : string :=
  ("risk_off_score>=" ++ pretty st ++ "_share")%string.

(** The body of [for _, row in w.iterrows()]: the record appended to
    [rows] for one episode.  [ros] is the score column after
    [reindex(reg.index)]. *)
Definition scorecard_row (reg : list (Z * string)) (target : string)
    (ros : option Series) (score_threshold : list Z) (w : Window) : dict :=
  let ep := w_episode w in
  let start := w_start w in
  let end_ := w_end w in
  let mask := (fun p : Z * string => (start <=? p.1)%Z && (p.1 <=? end_)%Z) <$> reg in
  let sub := select_mask mask reg in
  let n_obs := length sub in
  if (n_obs =? 0)%nat
  then [ ("episode", CStr ep); ("start", CDate start); ("end", CDate end_);
         ("n_obs", CInt 0); ("crisis_share", CNaN); ("first_crisis_date", CNaT);
         ("max_crisis_run_days", CInt 0); ("max_crisis_run_start", CNaT);
         ("max_crisis_run_end", CNaT) ]
  else
    let is_crisis := (fun p : Z * string => (p.1, bool_decide (p.2 = target))) <$> sub in
    let crisis_share := bool_mean (snd <$> is_crisis) in
    let first_crisis_date := first_crisis is_crisis in
    let run := max_crisis_run is_crisis in
    let out_row : dict :=
      [ ("episode", CStr ep); ("start", CDate start); ("end", CDate end_);
        ("n_obs", CInt (Z.of_nat n_obs)); ("crisis_share", crisis_share);
        ("first_crisis_date", first_crisis_date);
        ("max_crisis_run_days", CInt (Z.of_nat (max_run_days run)));
        ("max_crisis_run_start", max_run_start run);
        ("max_crisis_run_end", max_run_end run) ] in
    match ros with
    | Some ros =>
        let sub_score := select_mask mask ros in
        foldl (fun (row : dict) (st : Z) =>
                 dict_set (share_key st) (bool_mean (ge_scalar sub_score (inject_Z st))) row)
              out_row score_threshold
    | None => out_row
    end.

(** The keys every record of the loop carries. *)
Definition record_keys : list string :=
  [ "episode"; "start"; "end"; "n_obs"; "crisis_share"; "first_crisis_date";
    "max_crisis_run_days"; "max_crisis_run_start"; "max_crisis_run_end" ].

(** A report table: column names and, per row, one cell per column. *)
Record Table : Type := mkTable {
  tb_columns : list string;
  tb_rows : list (list cell);
}.

(** First occurrences, in order. *)
Fixpoint unique_from (seen l : list string) : list string :=
  match l with
  | [] => []
  | x :: l' =>
      if decide (x ∈ seen) then unique_from seen l' else x :: unique_from (x :: seen) l'
  end.

(** [pd.DataFrame(rows)] from a list of records: the columns are the keys
    in order of first appearance; a key a record lacks is NaN in its row. *)
Definition frame_of_records (rows : list dict) : Table :=
  let columns := unique_from [] (concat ((fun r : dict => fst <$> r) <$> rows)) in
  mkTable columns
    ((fun r : dict => (fun c => default CNaN (dict_get c r)) <$> columns) <$> rows).

Definition rename_map : list (string * string) :=
  [ ("episode", "Episode"); ("start", "Start Date"); ("end", "End Date");
    ("n_obs", "Observations (d)"); ("crisis_share", "Crisis Days (%)");
    ("first_crisis_date", "First Crisis Date");
    ("max_crisis_run_days", "Max Crisis Run (d)");
    ("max_crisis_run_start", "Max Run Start");
    ("max_crisis_run_end", "Max Run End");
    ("risk_off_score>=2_share", "Score ≥ 2 (%)");
    ("risk_off_score>=3_share", "Score ≥ 3 (%)") ].

Fixpoint assoc (k : string) (m : list (string * string)) : option string :=
  match m with
  | [] => None
  | (k', v) :: m' => if decide (k' = k) then Some v else assoc k m'
  end.

(** [out.rename(columns=...)] *)
Definition rename_columns (m : list (string * string)) (t : Table) : Table :=
  mkTable ((fun c => default c (assoc c m)) <$> tb_columns t) (tb_rows t).

Definition cell_scale (k : Z) (c : cell) : cell :=
  match c with
  | CInt n => CInt (n * k)
  | CFloat q => CFloat (q * inject_Z k)
  | c => c
  end.

(** [if c in out.columns: out[c] = out[c] * 100] *)
Definition scale_column (c : string) (t : Table) : Table :=
  if decide (c ∈ tb_columns t)
  then mkTable (tb_columns t)
         ((fun row : list cell =>
             zip_with (fun name v => if decide (name = c) then cell_scale 100 v else v)
                      (tb_columns t) row) <$> tb_rows t)
  else t.

(** The cell of row [i] in column [c]. *)
Definition table_cell (t : Table) (i : nat) (c : string) : option cell :=
  row ← tb_rows t !! i;
  j ← fst <$> list_find (fun name => name = c) (tb_columns t);
  row !! j.

(** [out[keep]] for the [keep] columns that exist. *)
Definition select_columns (keep : list string) (t : Table) : Table :=
  let keep := filter (fun c => c ∈ tb_columns t) keep in
  mkTable keep
    ((fun i => (fun c => default CNaN (table_cell t i c)) <$> keep)
       <$> seq 0 (length (tb_rows t))).

Definition keep_columns : list string :=
  [ "Episode"; "Start Date"; "End Date"; "Observations (d)"; "Crisis Days (%)";
    "First Crisis Date"; "Max Crisis Run (d)"; "Score ≥ 2 (%)"; "Score ≥ 3 (%)" ].

(** [ros = pd.Series(risk_off_score).reindex(reg.index)], for a score
    series with one entry per date; pandas refuses to reindex a series in
    which a date is repeated. *)
Definition reindex (index : list Z) (s : list (Z * option Q)) : Series :=
  (fun d : Z =>
     match list_find (fun p : Z * option Q => p.1 = d) s with
     | Some (_, (_, v)) => v
     | None => None
     end) <$> index.

(** The records collected by the loop over the episodes. *)
Definition scorecard_rows (regimes : list (Z * option string)) (windows : list Window)
    (target : string) (risk_off_score : option (list (Z * option Q)))
    (score_threshold : list Z) : list dict :=
  let reg := _normalize_regime regimes in
  let ros := reindex (fst <$> reg) <$> risk_off_score in
  scorecard_row reg target ros score_threshold <$> windows.

(** The full scorecard, as written to [stress_window_scorecard.csv]. *)
Definition scorecard_report (regimes : list (Z * option string)) (windows : list Window)
    (target : string) (risk_off_score : option (list (Z * option Q)))
    (score_threshold : list Z) : Table :=
  let out := frame_of_records
               (scorecard_rows regimes windows target risk_off_score score_threshold) in
  let out := rename_columns rename_map out in
  foldl (fun t c => scale_column c t) out ["Crisis (%)"; "Score≥2 (%)"; "Score≥3 (%)"].

(** [stress_window_scorecard(regimes, windows, target, risk_off_score,
    score_threshold)]: the report restricted to the [keep] columns. *)
Definition stress_window_scorecard (regimes : list (Z * option string))
    (windows : list Window) (target : string)
    (risk_off_score : option (list (Z * option Q))) (score_threshold : list Z) : Table :=
  select_columns keep_columns
    (scorecard_report regimes windows target risk_off_score score_threshold).

(** *** Runs of a boolean column *)

(** A maximal run of crisis days in a boolean column: the [len] rows from
    row [s] on are all [True], the row before (if any) and the row after
    (if any) are not. *)
Definition crisis_run (b : BoolSeries) (s len : nat) : Prop :=
  0 < len /\
  (forall i, s <= i < s + len -> b !! i = Some true) /\
  (forall i, S i = s -> b !! i = Some false) /\
  b !! (s + len) <> Some true.

(** The maximal runs of equal value of a dated boolean column, in order. *)
Fixpoint runs (l : list (Z * bool)) : list (list (Z * bool)) :=
  match l with
  | [] => []
  | x :: l' =>
      match runs l' with
      | (y :: c) :: cs =>
          if bool_decide (x.2 = y.2) then (x :: y :: c) :: cs
          else [x] :: (y :: c) :: cs
      | _ => [[x]]
      end
  end.

(** Chunks that are non-empty, constant, and alternate in value,
    starting with [flag]. *)
Fixpoint alternating (flag : bool) (cs : list (list (Z * bool))) : Prop :=
  match cs with
  | [] => True
  | c :: cs' =>
      c <> [] /\ Forall (fun p : Z * bool => p.2 = flag) c /\ alternating (negb flag) cs'
  end.

(** The value of a chunk: that of its first row ([chunk.iloc[0]]). *)
Definition chunk_flag (c : list (Z * bool)) : bool :=
  match c with
  | p :: _ => p.2
  | [] => false
  end.

(** A chunk of a run-length decomposition: non-empty and constant. *)
Definition constant_chunk (c : list (Z * bool)) : Prop :=
  c <> [] /\ Forall (fun p : Z * bool => p.2 = chunk_flag c) c.

(** Consecutive keys, one per chunk, repeated along the chunk. *)
Fixpoint block_keys {A} (k0 : nat) (cs : list (list A)) : list nat :=
  match cs with
  | [] => []
  | c :: cs' => replicate (length c) k0 ++ block_keys (S k0) cs'
  end.

Fixpoint keyed {A} (k0 : nat) (cs : list (list A)) : list (nat * list A) :=
  match cs with
  | [] => []
  | c :: cs' => (k0, c) :: keyed (S k0) cs'
  end.

(** The row at which chunk [j] starts. *)
Definition chunk_offset {A} (j : nat) (cs : list (list A)) : nat :=
  length (concat (take j cs)).

(** ** Sample tables *)

Module Examples.

Definition days3 : list Z := [0; 1; 2]%Z.

(** Day 0 meets the crisis predicate (credit momentum 0.14, credit
    z-score 1.8, volatility momentum 7, score 2).  Days 1 and 2 meet no
    predicate, and the exit condition fails on them (z-score 1.0,
    volatility 25). *)
Definition crisis_onset : DataFrame :=
  mkFrame days3
    (list_to_map
       [ ("ust_2y_chg_1m", [Some 0; Some 0; Some 0]);
         ("ust_10y_chg_1m", [Some 0.5; Some 0.5; Some 0.5]);
         ("curve_10y2y", [Some 1; Some 1; Some 1]);
         ("credit_chg_1m", [Some 0.14; Some 0; Some 0]);
         ("vix_level", [Some 25; Some 25; Some 25]);
         ("vix_chg_1m", [Some 7; Some 0; Some 0]);
         ("credit_z_1y", [Some 1.8; Some 1.0; Some 1.0]);
         ("risk_off_score", [Some 2; Some 0; Some 0]) ]%Q).

(** The six required columns and nothing else. *)
Definition required_only : DataFrame :=
  mkFrame days3
    (list_to_map
       [ ("ust_2y_chg_1m", [Some 0; Some 0; Some 0]);
         ("ust_10y_chg_1m", [Some 0.5; Some 0.5; Some 0.5]);
         ("curve_10y2y", [Some 1; Some 1; Some 1]);
         ("credit_chg_1m", [Some 0.14; Some 0; Some 0]);
         ("vix_level", [Some 25; Some 25; Some 25]);
         ("vix_chg_1m", [Some 7; Some 0; Some 0]) ]%Q).

(** The required columns and the credit z-score, without the composite
    score. *)
Definition without_score : DataFrame :=
  setcol "credit_z_1y" [Some 1.8; Some 1.0; Some 1.0]%Q required_only.

(** Day 1 meets no predicate and has composite score 3. *)
Definition score_three : DataFrame :=
  setcol "risk_off_score" [Some 0; Some 3; Some 0]%Q
    (setcol "credit_chg_1m" [Some 0; Some 0; Some 0]%Q crisis_onset).

(** As [crisis_onset], with the credit z-score missing on day 1 and a calm
    volatility level. *)
Definition missing_z : DataFrame :=
  setcol "credit_z_1y" [Some 1.8; None; Some 0]%Q
    (setcol "vix_level" [Some 25; Some 10; Some 10]%Q crisis_onset).

(** The six required columns and the composite score, which is 3 on
    day 1, without the credit z-score. *)
Definition score_without_z : DataFrame :=
  setcol "risk_off_score" [Some 0; Some 3; Some 0]%Q required_only.

(** As [crisis_onset], with the credit z-score missing on days 1 and 2 and
    a calm volatility level on them. *)
Definition missing_z_run : DataFrame :=
  setcol "credit_z_1y" [Some 1.8; None; None]%Q
    (setcol "vix_level" [Some 25; Some 10; Some 10]%Q crisis_onset).

(** Raw series over four dates. *)
Definition days4 : list Z := [0; 1; 2; 3]%Z.

Definition raw : DataFrame :=
  mkFrame days4
    (list_to_map
       [ ("ust_2y", [Some 3.0; Some 3.1; None; Some 3.3]);
         ("ust_10y", [Some 4.0; Some 3.0; Some 4.0; Some 4.0]);
         ("baa_10y_spread", [Some 2.0; Some 2.1; Some 2.2; Some 2.0]);
         ("vix", [Some 15; Some 16; Some 17; Some 14]) ]%Q).

(** [raw] with the last volatility value altered. *)
Definition raw_altered : DataFrame :=
  setcol "vix" [Some 15; Some 16; Some 17; Some 40]%Q raw.

(** A stand-in for the square root, to run the pipeline. *)
Definition stand_in_sqrt : Q -> Q := fun q => q.

(** A label series over dates 1 to 7 with two crisis runs of two days
    (dates 1-2 and 4-5) and one of a single day (date 7). *)
Definition labels7 : list (Z * option string) :=
  [ (1, Some CRISIS); (2, Some CRISIS); (3, Some TRANSITION); (4, Some CRISIS);
    (5, Some CRISIS); (6, None); (7, Some CRISIS) ]%Z.

(** An episode inside the series and one that overlaps no date of it. *)
Definition episode_inside : Window := mkWindow "inside" 1 7.
Definition episode_outside : Window := mkWindow "outside" 20 30.

(** A composite score given for some of the dates. *)
Definition scores7 : list (Z * option Q) :=
  [ (1%Z, Some 3%Q); (2%Z, Some 2%Q); (4%Z, None) ].

(** A series in which a single label occurs. *)
Definition only_transition : list (Z * option string) :=
  [ (1, Some TRANSITION); (2, None) ]%Z.

End Examples.

(** ** The classifier, one day at a time *)

(** A comparison of one cell with a scalar; a comparison with NaN is
    [False]. *)
Definition test_cell (test : Q -> bool) (x : option Q) : bool :=
  match x with Some q => test q | None => false end.

(** The cells of one row of the columns [rule_based_regime] reads. *)
Record DayInputs : Type := mkDayInputs {
  day_ust_2y_chg_1m : option Q;
  day_ust_10y_chg_1m : option Q;
  day_curve_10y2y : option Q;
  day_credit_chg_1m : option Q;
  day_credit_z_1y : option Q;
  day_vix_level : option Q;
  day_vix_chg_1m : option Q;
  day_risk_off_score : option Q;
}.

(** The row of a table at position [t], as the classifier reads it. *)
Definition day_inputs (df : DataFrame) (t : nat) : option DayInputs :=
  u2 ← cell_at df "ust_2y_chg_1m" t;
  u10 ← cell_at df "ust_10y_chg_1m" t;
  cv ← cell_at df "curve_10y2y" t;
  cc ← cell_at df "credit_chg_1m" t;
  cz ← cell_at df "credit_z_1y" t;
  vl ← cell_at df "vix_level" t;
  vc ← cell_at df "vix_chg_1m" t;
  sc ← cell_at df "risk_off_score" t;
  Some (mkDayInputs u2 u10 cv cc cz vl vc sc).

(** The regime definitions of source lines 81-111, read on one row. *)
Definition day_crisis (d : DayInputs) : bool :=
  (test_cell (fun q => Qltb Thresholds.credit_widen q) (day_credit_chg_1m d)
   && test_cell (fun q => Qltb 1.0 q) (day_credit_z_1y d))
  && test_cell (fun q => Qltb Thresholds.vix_spike q) (day_vix_chg_1m d)
  && (test_cell (fun q => Qle_bool 2 q) (day_risk_off_score d)
      || test_cell (fun q => Qltb 1.5 q) (day_credit_z_1y d)).

Definition day_pivot (d : DayInputs) : bool :=
  test_cell (fun q => Qltb q (- Thresholds.rate_move)) (day_ust_2y_chg_1m d)
  && test_cell (fun q => Qle_bool q 0) (day_ust_10y_chg_1m d)
  && test_cell (fun q => Qle_bool Thresholds.vix_elevated q) (day_vix_level d)
  && negb (test_cell (fun q => Qltb Thresholds.vix_spike q) (day_vix_chg_1m d)).

Definition day_late_cycle (d : DayInputs) : bool :=
  test_cell (fun q => Qltb q 0) (day_curve_10y2y d)
  && test_cell (fun q => Qltb q Thresholds.credit_stable) (Qabs <$> day_credit_chg_1m d)
  && test_cell (fun q => Qltb q Thresholds.vix_low) (day_vix_level d).

Definition day_expansion (d : DayInputs) : bool :=
  (test_cell (fun q => Qltb Thresholds.rate_move q) (day_ust_2y_chg_1m d)
   && test_cell (fun q => Qltb Thresholds.rate_move q) (day_ust_10y_chg_1m d))
  && test_cell (fun q => Qltb q (- Thresholds.credit_stable)) (day_credit_chg_1m d)
  && test_cell (fun q => Qltb q Thresholds.vix_low) (day_vix_level d).

(** The score override of source line 128, read on one row. *)
Definition day_override (d : DayInputs) : bool :=
  test_cell (fun q => Qle_bool 3 q) (day_risk_off_score d).

(** The assignments of source lines 117-128 on one row: the last
    assignment whose mask holds is the one that stays. *)
Definition day_assigned (d : DayInputs) : option string :=
  if day_override d then Some CRISIS
  else if day_crisis d then Some CRISIS
  else if day_pivot d then Some PIVOT
  else if day_late_cycle d then Some LATE_CYCLE
  else if day_expansion d then Some EXPANSION
  else None.

(** The exit condition of source line 132 on one row. *)
Definition day_exit (d : DayInputs) : bool :=
  test_cell (fun q => Qltb q 0.5) (day_credit_z_1y d)
  && test_cell (fun q => Qltb q Thresholds.vix_elevated) (day_vix_level d).

(** Whether the persistence step carries a crisis into a day: the row
    before (if any) is assigned crisis. *)
Definition day_carried (prev : option DayInputs) : bool :=
  match prev with
  | Some p => bool_decide (day_assigned p = Some CRISIS)
  | None => false
  end.

(** The returned label of a day, from its row and the row before
    (source lines 131-139). *)
Definition day_label (prev : option DayInputs) (d : DayInputs) : string :=
  if day_carried prev && negb (day_exit d) then CRISIS
  else default TRANSITION (day_assigned d).

(** The row before row [t], if there is one. *)
Definition previous_day (df : DataFrame) (t : nat) : option DayInputs :=
  match t with
  | 0 => None
  | S t' => day_inputs df t'
  end.

(** ** Shape of a derived table *)

(** [b] is over the dates of [a], holds every column name of [a], and has
    one cell per date in every column when [a] has. *)
Definition frame_extends (a b : DataFrame) : Prop :=
  df_index b = df_index a /\
  (forall c, has_column a c = true -> has_column b c = true) /\
  (wf_frame a -> wf_frame b).

(** The column names [build_features] writes (source lines 32-76). *)
Definition derived_columns : list string :=
  [ "curve_10y2y"; "curve_z_1y"; "ust_10y_chg_1m"; "ust_2y_chg_1m";
    "credit_level"; "credit_chg_1m"; "credit_z_1y";
    "vix_level"; "vix_chg_1m"; "vix_z_1y"; "risk_off_score" ].

(** [x - x.shift(days_1m)] *)
Definition momentum (days_1m : Z) (x : Series) : Series :=
  series_sub x (shift days_1m None x).

(** One stress sub-signal on one row, as 0 or 1: an absent column gives no
    signal and a NaN cell gives 0. *)
Definition signal_at (df : DataFrame) (c : string) (test : Q -> bool) (t : nat) : nat :=
  match cell_at df c t with
  | Some x => if test_cell test x then 1 else 0
  | None => 0
  end.

(** The number of stress sub-signals that fire on row [t] (source lines
    64-71). *)
Definition signals_fired (df : DataFrame) (t : nat) : nat :=
  signal_at df "curve_10y2y" (fun q => Qltb q 0) t
  + signal_at df "credit_chg_1m" (fun q => Qltb 0 q) t
  + signal_at df "vix_chg_1m" (fun q => Qltb 0 q) t.

(** ** data.py and run_report.py *)

(** The column names of the default [series_map] of [load_macro_series]. *)
Definition raw_columns : list string :=
  ["ust_10y"; "ust_2y"; "baa_10y_spread"; "vix"].

(** Lines 33-34 of [main]: the features built from the raw series with
    the default lag and windows of [build_features], and the labels
    computed from them. *)
Definition features_and_regimes (qsqrt : Q -> Q) (macro : DataFrame)
  : result (DataFrame * LabelSeries) :=
  features ← build_features qsqrt macro 1 21 252 5;
  regimes ← rule_based_regime features;
  Ok (features, regimes).

(** ** The scorecard's display columns *)

(** The column names the scaling loop of [stress_window_scorecard] looks
    for (source line 363). *)
Definition scaled_columns : list string :=
  ["Crisis (%)"; "Score≥2 (%)"; "Score≥3 (%)"].

(** ** pdf_builder.py *)

(** The exceptions of the table helpers: indexing an empty list, and a
    [range] whose step is zero ([ValueError]). *)
Inductive py_exn : Type :=
  | IndexError
  | RangeStepZero.

(** [range(0, n, step)]: [None] when [step] is zero, which Python rejects. *)
Definition py_range (n : nat) (step : Z) : option (list nat) :=
  if (step =? 0)%Z then None
  else if (step <? 0)%Z then Some []
  else
    let k := Z.to_nat step in
    Some ((fun j => j * k) <$> seq 0 ((n + k - 1) / k)).

(** [_estimate_rows_per_page(n_cols)] *)
Definition _estimate_rows_per_page (n_cols : Z) : Z :=
  if (n_cols <=? 6)%Z then 34
  else if (n_cols <=? 10)%Z then 28
  else if (n_cols <=? 14)%Z then 22
  else 18.

(** [_chunk_table_rows(data, rows_per_page)]: [data[0]] is the header
    row, repeated at the head of every chunk. *)
Definition _chunk_table_rows {A} (data : list A) (rows_per_page : Z)
  : py_exn + list (list A) :=
  match data with
  | [] => inl IndexError
  | header :: body =>
      match py_range (length body) rows_per_page with
      | None => inl RangeStepZero
      | Some starts =>
          let chunks :=
            (fun i => header :: take (Z.to_nat rows_per_page) (drop i body)) <$> starts in
          inr (match chunks with
               | [] => [[header]]
               | _ :: _ => chunks
               end)
      end
  end.

(** Source lines 280-282 of [_add_table_section]: the pages of a table
    rendered whole, from its column names and its rows of cells. *)
Definition table_pages (columns : list string) (values : list (list string))
  : py_exn + list (list (list string)) :=
  let data := columns :: values in
  let rows_per_page := _estimate_rows_per_page (Z.of_nat (length columns)) in
  _chunk_table_rows data rows_per_page.

(** The test of source line 348: the column is the feature, or starts
    with the feature followed by " |" or " (". *)
Definition group_match (base_feats : list string) (c : string) : bool :=
  existsb (fun feat : string =>
             bool_decide (c = feat)
             || String.prefix (feat ++ " |")%string c
             || String.prefix (feat ++ " (")%string c)
          base_feats.

(** [_select_group_columns(all_cols, base_feats, first_col)]: an absent
    or empty [first_col] is not kept, and the columns equal to
    [first_col] are skipped by the loop. *)
Definition _select_group_columns (all_cols base_feats : list string)
    (first_col : option string) : list string :=
  let keep : list string :=
    match first_col with
    | Some f => if bool_decide (f <> "") && bool_decide (f ∈ all_cols) then [f] else []
    | None => []
    end in
  let keep :=
    keep ++ filter (fun c => Some c <> first_col /\ group_match base_feats c = true)
                   all_cols in
  unique_from [] keep.

(** [s.replace(old, new)] for a one-character [old]. *)
Fixpoint replace_char (old : Ascii.ascii) (new : string) (s : string) : string :=
  match s with
  | EmptyString => EmptyString
  | String c s' =>
      if decide (c = old) then (new ++ replace_char old new s')%string
      else String c (replace_char old new s')
  end.

Definition amp_char : Ascii.ascii := Ascii.ascii_of_nat 38.
Definition lt_char : Ascii.ascii := Ascii.ascii_of_nat 60.
Definition gt_char : Ascii.ascii := Ascii.ascii_of_nat 62.

(** [_escape(x)]: [None] gives the empty string. *)
Definition _escape (x : option string) : string :=
  match x with
  | None => ""
  | Some s =>
      replace_char gt_char "&gt;"
        (replace_char lt_char "&lt;"
           (replace_char amp_char "&amp;" s))
  end.

(** The characters of a string. *)
Fixpoint chars (s : string) : list Ascii.ascii :=
  match s with
  | EmptyString => []
  | String c s' => c :: chars s'
  end.

(** What [_escape] writes for one character. *)
Definition escape_char (c : Ascii.ascii) : string :=
  if decide (c = amp_char) then "&amp;"
  else if decide (c = lt_char) then "&lt;"
  else if decide (c = gt_char) then "&gt;"
  else String c "".

(** ** plots.py *)

(** A contiguous block of one regime, as [_draw_regime_timeline] collects
    them: the date it starts on, the date it is drawn to, its label. *)
Record Block : Type := mkBlock {
  blk_start : Z;
  blk_end : Z;
  blk_label : string;
}.

(** The loop of source lines 100-104 (and 60-64 of [_shade]): [start] and
    [cur] are the first date and the label of the open block, [last] is
    [r.index[-1]]. *)
Fixpoint scan_blocks (start : Z) (cur : string) (last : Z) (rest : list (Z * string))
  : list Block :=
  match rest with
  | [] => [mkBlock start last cur]
  | (t, v) :: rest' =>
      if decide (v <> cur)
      then mkBlock start t cur :: scan_blocks t v last rest'
      else scan_blocks start cur last rest'
  end.

(** Source lines 97-104: the blocks of a dated label series; [None] is
    the [IndexError] of [r.index[0]] on an empty series. *)
Definition regime_blocks (r : list (Z * string)) : option (list Block) :=
  match r with
  | [] => None
  | (d0, v0) :: rest => Some (scan_blocks d0 v0 (default d0 (last (fst <$> r))) rest)
  end.

(** The number of rows whose label differs from the label of the row
    before; [cur] is the label before the first row. *)
Fixpoint label_changes (cur : string) (labels : list string) : nat :=
  match labels with
  | [] => 0
  | v :: labels' => (if decide (v <> cur) then 1 else 0) + label_changes v labels'
  end.

(** ** data.py: downloads *)

(** What one call of [urlopen] and [read_csv] does: it returns a table,
    raises one of the exceptions the loop catches, or raises another one. *)
Inductive outcome (A : Type) : Type :=
  | Fetched (a : A)
  | Caught (err : string)
  | Uncaught (err : string).
Arguments Fetched {A} a.
Arguments Caught {A} err.
Arguments Uncaught {A} err.

(** What the statement [time.sleep(backoff_seconds * (2 ** (attempt - 1)))]
    does, given the exact product in seconds: it returns when the pause is
    over ([None]) or raises ([Some err]): [time.sleep] raises [ValueError]
    for a negative duration and [OverflowError] for one too long for its
    clock, and the product raises when a factor is too large for a float. *)
Definition sleeper : Type := Q -> option string.

(** A [time.sleep] that rejects the negative durations and accepts the
    others. *)
Definition sleep_non_negative : sleeper :=
  fun seconds =>
    if Qle_bool 0 seconds then None else Some "sleep length must be non-negative".

(** What [_read_csv_with_retries] does to the outside: attempts and
    completed sleeps, in order. *)
Inductive event : Type :=
  | Attempt (n : Z)
  | Sleep (seconds : Q).

(** How [_read_csv_with_retries] ends. *)
Inductive download (A : Type) : Type :=
  | Returned (a : A)
  | FREDDownloadError (retries : Z) (last_err : option string)
  | Propagated (err : string).
Arguments Returned {A} a.
Arguments FREDDownloadError {A} retries last_err.
Arguments Propagated {A} err.

(** The loop [for attempt in range(1, retries + 1)], from [attempt] on,
    with [todo] turns left; [trace] holds the events so far, latest first.
    [time.sleep] is called inside the [except] block, so an exception it
    raises is not caught by the loop and leaves the function. *)
Fixpoint retry_loop {A} (fetch : Z -> outcome A) (sleep : sleeper) (retries : Z)
    (backoff_seconds : Q) (attempt : Z) (todo : nat) (last_err : option string)
    (trace : list event) : download A * list event :=
  match todo with
  | O => (FREDDownloadError retries last_err, trace)
  | S todo' =>
      let trace := Attempt attempt :: trace in
      match fetch attempt with
      | Fetched a => (Returned a, trace)
      | Uncaught err => (Propagated err, trace)
      | Caught err =>
          let last_err := Some err in
          if (attempt <? retries)%Z
          then
            let seconds := (backoff_seconds * inject_Z (2 ^ (attempt - 1)))%Q in
            match sleep seconds with
            | Some err' => (Propagated err', trace)
            | None =>
                retry_loop fetch sleep retries backoff_seconds (attempt + 1) todo'
                  last_err (Sleep seconds :: trace)
            end
          else (FREDDownloadError retries last_err, trace)
      end
  end.

(** [_read_csv_with_retries(url, retries, backoff_seconds)]: the result
    and the events in the order they happened. *)
Definition _read_csv_with_retries {A} (fetch : Z -> outcome A) (sleep : sleeper)
    (retries : Z) (backoff_seconds : Q) : download A * list event :=
  let (r, trace) :=
    retry_loop fetch sleep retries backoff_seconds 1 (Z.to_nat retries) None [] in
  (r, reverse trace).

(** The events of [k] failed attempts in a row, each followed by its
    back-off sleep, starting with attempt number [attempt]. *)
Fixpoint failed_from (backoff_seconds : Q) (attempt : Z) (k : nat) : list event :=
  match k with
  | O => []
  | S k' =>
      Attempt attempt
        :: Sleep (backoff_seconds * inject_Z (2 ^ (attempt - 1)))
        :: failed_from backoff_seconds (attempt + 1) k'
  end.

(** * Properties *)

(** ** Columns: lengths and row-wise lookups *)

Lemma length_cmp_scalar test s : length (cmp_scalar test s) = length s.
Proof. unfold cmp_scalar. by rewrite length_fmap. Qed.

Lemma lookup_cmp_scalar test s i :
  cmp_scalar test s !! i =
  (fun x : option Q => match x with Some q => test q | None => false end) <$> s !! i.
Proof. unfold cmp_scalar. by rewrite list_lookup_fmap. Qed.

Lemma length_band a b : length (band a b) = Nat.min (length a) (length b).
Proof. apply length_zip_with. Qed.

Lemma length_bor a b : length (bor a b) = Nat.min (length a) (length b).
Proof. apply length_zip_with. Qed.

Lemma length_bnot a : length (bnot a) = length a.
Proof. apply length_fmap. Qed.

Lemma length_loc_set mask label regime :
  length (loc_set mask label regime) = Nat.min (length mask) (length regime).
Proof. apply length_zip_with. Qed.

Lemma length_label_eq regime label : length (label_eq regime label) = length regime.
Proof. apply length_fmap. Qed.

Lemma length_fillna label regime : length (fillna label regime) = length regime.
Proof. apply length_fmap. Qed.

Lemma length_shift {A} k (fill : A) s : length (shift k fill s) = length s.
Proof.
  unfold shift. destruct (0 <=? k)%Z.
  - rewrite length_take, length_app, length_replicate. lia.
  - rewrite length_app, length_drop, length_replicate. lia.
Qed.

Lemma lookup_shift {A} k (fill : A) s i :
  shift k fill s !! i =
  if decide (i < length s)%nat
  then Some (if decide (0 <= Z.of_nat i - k < Z.of_nat (length s))%Z
             then default fill (s !! Z.to_nat (Z.of_nat i - k))
             else fill)
  else None.
Proof.
  unfold shift. destruct (Z.leb_spec 0 k) as [Hk|Hk].
  - rewrite lookup_take. destruct (decide (i < length s)%nat) as [Hi|Hi]; [|done].
    destruct (decide (i < Z.to_nat k)%nat) as [Hik|Hik].
    + rewrite lookup_app_l by (rewrite length_replicate; lia).
      rewrite lookup_replicate_2 by done.
      rewrite decide_False by lia. done.
    + rewrite lookup_app_r by (rewrite length_replicate; lia).
      rewrite length_replicate, decide_True by lia.
      replace (Z.to_nat (Z.of_nat i - k)) with (i - Z.to_nat k)%nat by lia.
      destruct (lookup_lt_is_Some_2 s (i - Z.to_nat k)%nat) as [x Hx]; [lia|].
      by rewrite Hx.
  - destruct (decide (i < length s)%nat) as [Hi|Hi].
    + destruct (decide (i < length s - Z.to_nat (- k))%nat) as [Hik|Hik].
      * rewrite lookup_app_l by (rewrite length_drop; lia).
        rewrite lookup_drop, decide_True by lia.
        replace (Z.to_nat (Z.of_nat i - k)) with (Z.to_nat (- k) + i)%nat by lia.
        destruct (lookup_lt_is_Some_2 s (Z.to_nat (- k) + i)%nat) as [x Hx]; [lia|].
        by rewrite Hx.
      * rewrite lookup_app_r by (rewrite length_drop; lia).
        rewrite length_drop, decide_False by lia.
        rewrite lookup_replicate_2; [done|lia].
    + apply lookup_ge_None_2. rewrite length_app, length_drop, length_replicate. lia.
Qed.

Lemma lookup_loc_set mask label regime i :
  loc_set mask label regime !! i =
  m ← mask !! i; x ← regime !! i; Some (if m : bool then Some label else x).
Proof. unfold loc_set. by rewrite lookup_zip_with. Qed.

Lemma lookup_fillna label regime i :
  fillna label regime !! i = (fun x => Some (default label x)) <$> regime !! i.
Proof. unfold fillna. by rewrite list_lookup_fmap. Qed.

(** A cell written by [loc_set] holds the label or its former content. *)
Lemma loc_set_cases mask label regime i y :
  loc_set mask label regime !! i = Some y ->
  y = Some label \/ regime !! i = Some y.
Proof.
  rewrite lookup_loc_set. intros H.
  destruct (mask !! i) as [[]|]; destruct (regime !! i); simplify_eq/=; auto.
Qed.

(** [loc_set] keeps a cell that already holds the label. *)
Lemma loc_set_keeps mask label regime i :
  i < length mask ->
  regime !! i = Some (Some label) ->
  loc_set mask label regime !! i = Some (Some label).
Proof.
  intros Hi Hr. rewrite lookup_loc_set, Hr.
  destruct (lookup_lt_is_Some_2 mask i Hi) as [m ->]. by destruct m.
Qed.

(** ** The regime classifier *)

Lemma has_column_true df c :
  has_column df c = true <-> exists s, df_columns df !! c = Some s.
Proof. unfold has_column. rewrite bool_decide_eq_true. reflexivity. Qed.

Lemma has_column_false df c :
  has_column df c = false <-> df_columns df !! c = None.
Proof.
  unfold has_column. rewrite bool_decide_eq_false, <- eq_None_not_Some. reflexivity.
Qed.

Lemma getcol_Ok df c s : getcol df c = Ok s <-> df_columns df !! c = Some s.
Proof. unfold getcol. destruct (df_columns df !! c); split; congruence. Qed.

Lemma wf_frame_length df c s :
  wf_frame df -> df_columns df !! c = Some s -> length s = length (df_index df).
Proof. intros Hwf Hc. exact (Hwf c s Hc). Qed.

Lemma cell_at_lt df c t :
  wf_frame df -> is_Some (cell_at df c t) -> t < length (df_index df).
Proof.
  unfold cell_at. intros Hwf [x Hx].
  destruct (df_columns df !! c) as [s|] eqn:Hc; simplify_eq/=.
  rewrite <- (wf_frame_length df c s Hwf Hc). by eapply lookup_lt_Some.
Qed.

Lemma length_lt_scalar s c : length (lt_scalar s c) = length s.
Proof. apply length_cmp_scalar. Qed.
Lemma length_le_scalar s c : length (le_scalar s c) = length s.
Proof. apply length_cmp_scalar. Qed.
Lemma length_gt_scalar s c : length (gt_scalar s c) = length s.
Proof. apply length_cmp_scalar. Qed.
Lemma length_ge_scalar s c : length (ge_scalar s c) = length s.
Proof. apply length_cmp_scalar. Qed.
Lemma length_series_abs s : length (series_abs s) = length s.
Proof. apply length_fmap. Qed.
Lemma length_exit_crisis cz vx :
  length (exit_crisis cz vx) = Nat.min (length cz) (length vx).
Proof. unfold exit_crisis. by rewrite length_band, !length_lt_scalar. Qed.

Create Rewrite HintDb series_len.
#[global] Hint Rewrite length_lt_scalar length_le_scalar length_gt_scalar
  length_ge_scalar length_series_abs length_band length_bor length_bnot
  length_loc_set length_label_eq length_fillna @length_shift @length_replicate
  length_exit_crisis
  : series_len.

(** Reads [getcol] successes off a successful run. *)
Ltac inv_getcols H :=
  revert H;
  repeat match goal with
  | |- context [getcol ?df ?c] =>
      let s := fresh "s" in
      let Hs := fresh "Hs" in
      destruct (getcol df c) as [s|?] eqn:Hs; simpl;
      [apply getcol_Ok in Hs|discriminate]
  end;
  intros H.

(** Closes a goal on the length of a column expression over columns whose
    lengths are known. *)
Ltac solve_len :=
  autorewrite with series_len;
  repeat match goal with
  | H : length _ = _ |- _ => rewrite !H
  end;
  rewrite ?Nat.min_id; try done; try lia.

Ltac use_wf Hwf :=
  repeat match goal with
  | H : df_columns _ !! _ = Some _ |- _ =>
      let Hl := fresh "Hlen" in
      pose proof (wf_frame_length _ _ _ Hwf H) as Hl; revert H
  end; intros.

Lemma assign_regimes_columns df pre :
  assign_regimes df = Ok pre ->
  Forall (fun c => has_column df c = true) classifier_columns.
Proof.
  unfold assign_regimes. intros H. inv_getcols H.
  unfold classifier_columns, required. simpl.
  repeat constructor; apply has_column_true; eauto.
Qed.

Lemma assign_regimes_length df pre :
  wf_frame df -> assign_regimes df = Ok pre -> length pre = length (df_index df).
Proof.
  unfold assign_regimes. intros Hwf H. inv_getcols H. use_wf Hwf.
  destruct (has_column df "risk_off_score"); simplify_eq; solve_len.
Qed.

(** Every cell of the assigned column is NaN or one of four labels. *)
Lemma assign_regimes_labels df pre t y :
  assign_regimes df = Ok pre -> pre !! t = Some y ->
  y = None \/ y = Some EXPANSION \/ y = Some LATE_CYCLE \/ y = Some PIVOT
  \/ y = Some CRISIS.
Proof.
  unfold assign_regimes. intros H Hy. inv_getcols H.
  destruct (has_column df "risk_off_score"); simplify_eq;
    repeat match goal with
    | H : loc_set _ _ _ !! _ = Some _ |- _ =>
        apply loc_set_cases in H; destruct H as [->|H]; [tauto|]
    end;
    apply lookup_replicate_1 in Hy as [-> _]; tauto.
Qed.

(** The score override (source lines 127-128). *)
Lemma assign_regimes_override df pre t q :
  wf_frame df -> assign_regimes df = Ok pre ->
  cell_at df "risk_off_score" t = Some (Some q) -> (3 <= q)%Q ->
  pre !! t = Some (Some CRISIS).
Proof.
  intros Hwf H Hq Hle.
  pose proof (cell_at_lt df _ t Hwf (mk_is_Some _ _ Hq)) as Ht.
  revert H. unfold assign_regimes. intros H. inv_getcols H. use_wf Hwf.
  unfold cell_at in Hq. rewrite Hs6 in Hq. simpl in Hq.
  assert (has_column df "risk_off_score" = true) as Hhc
    by (apply has_column_true; eauto).
  rewrite Hhc in H. injection H as <-. rewrite lookup_loc_set.
  rewrite (lookup_cmp_scalar _ s6 t : ge_scalar s6 3 !! t = _), Hq. simpl.
  assert (Qle_bool 3 q = true) as -> by by apply Qle_bool_iff.
  match goal with |- context [?r !! t] =>
    destruct (lookup_lt_is_Some_2 r t) as [x ->] end; [|done].
  solve_len.
Qed.

Lemma getcol_Raise df c e :
  getcol df c = Raise e <-> e = KeyError c /\ df_columns df !! c = None.
Proof.
  unfold getcol. destruct (df_columns df !! c); split; try done.
  - intros [_ ?]. done.
  - intros [= <-]. done.
  - intros [-> _]. done.
Qed.

(** Membership of a literal in a literal list. *)
Ltac in_list :=
  unfold classifier_columns, required; simpl;
  repeat first [apply list_elem_of_here | apply list_elem_of_further].

Lemma forallb_has_column df l :
  forallb (has_column df) l = true <-> Forall (fun c => has_column df c = true) l.
Proof.
  induction l as [|c l IH]; simpl.
  - split; [constructor|done].
  - rewrite andb_true_iff, Forall_cons, IH. reflexivity.
Qed.

Lemma required_present df :
  Forall (fun c => has_column df c = true) classifier_columns ->
  forallb (has_column df) required = true.
Proof.
  intros H. apply forallb_has_column.
  unfold classifier_columns in H. by apply Forall_app in H as [H _].
Qed.

(** With every column it reads present, the assignment stage returns. *)
Lemma assign_regimes_returns df :
  Forall (fun c => has_column df c = true) classifier_columns ->
  exists pre, assign_regimes df = Ok pre.
Proof.
  unfold classifier_columns, required. simpl. intros H.
  repeat match goal with
  | H : Forall _ (_ :: _) |- _ =>
      let Hc := fresh "Hc" in
      apply Forall_cons in H as [Hc H]; apply has_column_true in Hc as [? Hc];
      apply getcol_Ok in Hc
  end.
  unfold assign_regimes.
  repeat match goal with
  | H : getcol _ _ = Ok _ |- _ => rewrite H; clear H; simpl
  end.
  eauto.
Qed.

(** With the required columns present, the assignment stage can only fail
    on one of the two columns outside [required]. *)
Lemma assign_regimes_raises df e :
  forallb (has_column df) required = true ->
  assign_regimes df = Raise e ->
  (e = KeyError "credit_z_1y" /\ has_column df "credit_z_1y" = false) \/
  (e = KeyError "risk_off_score" /\ has_column df "risk_off_score" = false).
Proof.
  intros Hreq. apply forallb_has_column in Hreq. rewrite Forall_forall in Hreq.
  assert (forall c, c ∈ required -> exists s, getcol df c = Ok s) as Hget.
  { intros c Hc. apply Hreq, has_column_true in Hc as [s Hs].
    exists s. by apply getcol_Ok. }
  unfold assign_regimes.
  destruct (Hget "ust_2y_chg_1m") as [? ->]; [in_list|]; simpl.
  destruct (Hget "ust_10y_chg_1m") as [? ->]; [in_list|]; simpl.
  destruct (Hget "curve_10y2y") as [? ->]; [in_list|]; simpl.
  destruct (Hget "credit_chg_1m") as [? ->]; [in_list|]; simpl.
  destruct (getcol df "credit_z_1y") as [cz|e'] eqn:Hcz; simpl.
  2:{ apply getcol_Raise in Hcz as [-> Hcz]. intros [= <-]. left.
      split; [done|]. by apply has_column_false. }
  destruct (Hget "vix_level") as [? ->]; [in_list|]; simpl.
  destruct (Hget "vix_chg_1m") as [? ->]; [in_list|]; simpl.
  destruct (getcol df "risk_off_score") as [sc|e'] eqn:Hsc; simpl.
  2:{ apply getcol_Raise in Hsc as [-> Hsc]. intros [= <-]. right.
      split; [done|]. by apply has_column_false. }
  discriminate.
Qed.

(** The early return (source lines 43-44). *)
Lemma rule_based_regime_early_return df :
  forallb (has_column df) required = false ->
  rule_based_regime df = Ok (replicate (length (df_index df)) (Some TRANSITION)).
Proof.
  intros H. unfold rule_based_regime. rewrite H. simpl.
  unfold fillna. by rewrite fmap_replicate.
Qed.

Lemma rule_based_regime_raises df e :
  forallb (has_column df) required = true ->
  assign_regimes df = Raise e -> rule_based_regime df = Raise e.
Proof. intros Hreq H. unfold rule_based_regime. by rewrite Hreq, H. Qed.

(** The persistence step and the final fill on top of the assigned column. *)
Lemma rule_based_regime_persistence df pre :
  assign_regimes df = Ok pre ->
  exists cz vx,
    df_columns df !! "credit_z_1y" = Some cz /\
    df_columns df !! "vix_level" = Some vx /\
    rule_based_regime df =
      Ok (fillna TRANSITION
            (loc_set (band (shift 1 false (label_eq pre CRISIS))
                           (bnot (exit_crisis cz vx)))
                     CRISIS pre)).
Proof.
  intros H. pose proof (assign_regimes_columns _ _ H) as Hcols.
  pose proof (required_present _ Hcols) as Hreq.
  rewrite Forall_forall in Hcols.
  destruct (proj1 (has_column_true df "credit_z_1y")) as [cz Hcz];
    [apply Hcols; in_list|].
  destruct (proj1 (has_column_true df "vix_level")) as [vx Hvx];
    [apply Hcols; in_list|].
  exists cz, vx. split; [done|]. split; [done|].
  unfold rule_based_regime. rewrite Hreq, H. simpl.
  by rewrite (proj2 (getcol_Ok _ _ _) Hcz), (proj2 (getcol_Ok _ _ _) Hvx).
Qed.

(** The final label of a day, from the assigned column and the exit
    condition: crisis when the day before was assigned crisis and the exit
    condition fails today, else the assigned label, else Transition. *)
Lemma final_label df pre cz vx t x e c :
  wf_frame df ->
  assign_regimes df = Ok pre ->
  df_columns df !! "credit_z_1y" = Some cz ->
  df_columns df !! "vix_level" = Some vx ->
  pre !! t = Some x ->
  exit_crisis cz vx !! t = Some e ->
  shift 1 false (label_eq pre CRISIS) !! t = Some c ->
  exists labels,
    rule_based_regime df = Ok labels /\
    labels !! t = Some (Some (if c && negb e then CRISIS else default TRANSITION x)).
Proof.
  intros Hwf H Hcz Hvx Hx He Hc.
  destruct (rule_based_regime_persistence _ _ H) as (cz' & vx' & Hcz' & Hvx' & ->).
  simplify_eq. eexists. split; [done|].
  rewrite lookup_fillna, lookup_loc_set.
  unfold band, bnot. rewrite lookup_zip_with, Hc, list_lookup_fmap, He, Hx. simpl.
  by destruct (c && negb e).
Qed.

Lemma carried_first {A} (b : list A) fill x : shift 1 fill (x :: b) !! 0 = Some fill.
Proof. reflexivity. Qed.

Lemma carried_next {A} (b : list A) fill t x :
  b !! t = Some x -> is_Some (b !! S t) -> shift 1 fill b !! S t = Some x.
Proof.
  intros Hx Hs. apply lookup_lt_is_Some_1 in Hs.
  rewrite lookup_shift, decide_True by done.
  rewrite decide_True by lia.
  replace (Z.to_nat (Z.of_nat (S t) - 1)) with t by lia. by rewrite Hx.
Qed.

(** Persistence looks back one day at the assigned column only: a day that
    is not assigned crisis, after a day that is not assigned crisis, is
    never labelled crisis, whatever the final label of the day before. *)
Lemma persistence_single_lookback df pre labels t x y :
  wf_frame df ->
  assign_regimes df = Ok pre ->
  rule_based_regime df = Ok labels ->
  pre !! t = Some x -> x <> Some CRISIS ->
  pre !! S t = Some y -> y <> Some CRISIS ->
  labels !! S t = Some (Some (default TRANSITION y)).
Proof.
  intros Hwf H Hl Hx Hnx Hy Hny.
  destruct (rule_based_regime_persistence _ _ H) as (cz & vx & Hcz & Hvx & Heq).
  pose proof (assign_regimes_length _ _ Hwf H) as Hlen.
  pose proof (wf_frame_length _ _ _ Hwf Hcz) as Hlcz.
  pose proof (wf_frame_length _ _ _ Hwf Hvx) as Hlvx.
  assert (S t < length pre) as Ht by by eapply lookup_lt_Some.
  destruct (lookup_lt_is_Some_2 (exit_crisis cz vx) (S t)) as [e He]; [solve_len|].
  assert (shift 1 false (label_eq pre CRISIS) !! S t = Some false) as Hc.
  { apply carried_next.
    - unfold label_eq. rewrite list_lookup_fmap, Hx. simpl.
      by rewrite bool_decide_eq_false_2.
    - apply lookup_lt_is_Some_2. solve_len. }
  destruct (final_label df pre cz vx (S t) y e false Hwf H Hcz Hvx Hy He Hc)
    as (labels' & Hl' & Hfin).
  rewrite Hl in Hl'. by simplify_eq.
Qed.

(** C1 (code at the failing input): on a three-day table whose day 0 meets
    the crisis predicate and whose days 1 and 2 meet no predicate and never
    meet the exit condition, the assigned column is crisis, NaN, NaN, the
    exit condition is false on every day, and the returned labels are
    crisis, crisis, Transition: day 2 is not kept at crisis although the
    final label of day 1 is crisis.  The strict left-to-right pass labels
    all three days crisis. *)
Theorem persistence_stops_after_one_day :
  assign_regimes Examples.crisis_onset = Ok [Some CRISIS; None; None] /\
  (exists cz vx,
     df_columns Examples.crisis_onset !! "credit_z_1y" = Some cz /\
     df_columns Examples.crisis_onset !! "vix_level" = Some vx /\
     exit_crisis cz vx = [false; false; false]) /\
  rule_based_regime Examples.crisis_onset =
    Ok [Some CRISIS; Some CRISIS; Some TRANSITION] /\
  fillna TRANSITION (sticky_pass false [Some CRISIS; None; None] [false; false; false]) =
    [Some CRISIS; Some CRISIS; Some CRISIS].
Proof.
  split; [by vm_compute|]. split; [|split; by vm_compute].
  eexists _, _. split; [by vm_compute|]. split; [by vm_compute|]. by vm_compute.
Qed.

(** The two reads outside [required], in general: with the required
    columns present, an absent credit z-score column raises [KeyError], and
    so does an absent composite score column. *)
Lemma rule_based_regime_optional_columns df :
  forallb (has_column df) required = true ->
  (has_column df "credit_z_1y" = false ->
   rule_based_regime df = Raise (KeyError "credit_z_1y")) /\
  (has_column df "credit_z_1y" = true -> has_column df "risk_off_score" = false ->
   rule_based_regime df = Raise (KeyError "risk_off_score")).
Proof.
  intros Hreq.
  destruct (assign_regimes df) as [pre|e] eqn:H.
  - pose proof (assign_regimes_columns _ _ H) as Hcols.
    rewrite Forall_forall in Hcols.
    assert (has_column df "credit_z_1y" = true) as Hz by (apply Hcols; in_list).
    assert (has_column df "risk_off_score" = true) as Hs by (apply Hcols; in_list).
    split; congruence.
  - rewrite (rule_based_regime_raises _ _ Hreq H).
    destruct (assign_regimes_raises _ _ Hreq H) as [[-> Hz]|[-> Hs]].
    + split; [done|congruence].
    + split; [|done]. intros Hz. exfalso.
      revert H. unfold assign_regimes.
      apply forallb_has_column in Hreq. rewrite Forall_forall in Hreq.
      assert (forall c, c ∈ required -> exists s, getcol df c = Ok s) as Hget.
      { intros c Hc. apply Hreq, has_column_true in Hc as [s Hc].
        exists s. by apply getcol_Ok. }
      destruct (Hget "ust_2y_chg_1m") as [? ->]; [in_list|]; simpl.
      destruct (Hget "ust_10y_chg_1m") as [? ->]; [in_list|]; simpl.
      destruct (Hget "curve_10y2y") as [? ->]; [in_list|]; simpl.
      destruct (Hget "credit_chg_1m") as [? ->]; [in_list|]; simpl.
      apply has_column_false in Hz.
      assert (getcol df "credit_z_1y" = Raise (KeyError "credit_z_1y")) as ->
        by by apply getcol_Raise.
      simpl. discriminate.
Qed.

(** C3 (code at the failing input): a table with the six required columns
    and no credit z-score column makes the classifier raise [KeyError]; so
    does a table that has the z-score column and lacks the composite score
    column. *)
Theorem missing_optional_column_raises :
  forallb (has_column Examples.required_only) required = true /\
  rule_based_regime Examples.required_only = Raise (KeyError "credit_z_1y") /\
  forallb (has_column Examples.without_score) required = true /\
  rule_based_regime Examples.without_score = Raise (KeyError "risk_off_score").
Proof. repeat split; by vm_compute. Qed.

(** The score override on a table that has the credit z-score column: on
    a well-formed table with the six required columns, the credit z-score
    and the composite score, the classifier returns, and a day whose score
    is at least 3 is labelled Risk-off / crisis, whatever the predicates
    say. *)
Lemma score_override_with_credit_z df t q :
  wf_frame df ->
  forallb (has_column df) required = true ->
  has_column df "credit_z_1y" = true ->
  cell_at df "risk_off_score" t = Some (Some q) ->
  (3 <= q)%Q ->
  exists labels,
    rule_based_regime df = Ok labels /\ labels !! t = Some (Some CRISIS).
Proof.
  intros Hwf Hreq Hz Hq Hle.
  destruct (assign_regimes df) as [pre|e] eqn:H.
  - pose proof (assign_regimes_override _ _ _ _ Hwf H Hq Hle) as Hpre.
    pose proof (assign_regimes_length _ _ Hwf H) as Hlen.
    pose proof (lookup_lt_Some _ _ _ Hpre) as Ht.
    destruct (rule_based_regime_persistence _ _ H) as (cz & vx & Hcz & Hvx & Heq).
    pose proof (wf_frame_length _ _ _ Hwf Hcz) as Hlcz.
    pose proof (wf_frame_length _ _ _ Hwf Hvx) as Hlvx.
    eexists. split; [exact Heq|].
    rewrite lookup_fillna, loc_set_keeps; [done| |done].
    revert Ht. solve_len.
  - exfalso.
    destruct (assign_regimes_raises _ _ Hreq H) as [[_ Hno]|[_ Hno]]; [congruence|].
    apply has_column_false in Hno. unfold cell_at in Hq. by rewrite Hno in Hq.
Qed.

Example score_override_on_score_three :
  assign_regimes Examples.score_three = Ok [None; Some CRISIS; None] /\
  rule_based_regime Examples.score_three
  = Ok [Some TRANSITION; Some CRISIS; Some CRISIS].
Proof. split; vm_compute; reflexivity. Qed.

(** C7 (code at the failing input): the table has the six required
    columns and the composite score column, and the score of day 1 is 3;
    the classifier returns no label for that day, it raises [KeyError] on
    the credit z-score column, which the table does not have. *)
Theorem score_override_raises_without_credit_z :
  wf_frame Examples.score_without_z /\
  forallb (has_column Examples.score_without_z) required = true /\
  has_column Examples.score_without_z "risk_off_score" = true /\
  cell_at Examples.score_without_z "risk_off_score" 1 = Some (Some 3%Q) /\
  rule_based_regime Examples.score_without_z = Raise (KeyError "credit_z_1y").
Proof.
  split; [apply (bool_decide_unpack _); vm_compute; exact I|].
  repeat split; vm_compute; reflexivity.
Qed.

(** C9: every entry of a label series returned by [rule_based_regime] is
    one of the five regime labels, never missing and never another string;
    the classifier fails to return a series only by raising [KeyError] on
    an absent credit z-score or composite score column. *)
Theorem closed_label_set df :
  match rule_based_regime df with
  | Ok labels => Forall (fun x => exists l, x = Some l /\ l ∈ REGIME_ORDER) labels
  | Raise e =>
      forallb (has_column df) required = true /\
      ((e = KeyError "credit_z_1y" /\ has_column df "credit_z_1y" = false) \/
       (e = KeyError "risk_off_score" /\ has_column df "risk_off_score" = false))
  end.
Proof.
  destruct (forallb (has_column df) required) eqn:Hreq.
  - destruct (assign_regimes df) as [pre|e] eqn:H.
    + destruct (rule_based_regime_persistence _ _ H) as (cz & vx & _ & _ & ->).
      apply Forall_lookup. intros i x Hx.
      rewrite lookup_fillna in Hx.
      destruct (loc_set _ _ _ !! i) as [y|] eqn:Hy; simplify_eq/=.
      apply loc_set_cases in Hy as [->|Hy].
      { exists CRISIS. split; [done|]. unfold REGIME_ORDER. in_list. }
      destruct (assign_regimes_labels _ _ _ _ H Hy) as [->|[->|[->|[->| ->]]]];
        simpl; eexists; (split; [done|]); unfold REGIME_ORDER; in_list.
    + rewrite (rule_based_regime_raises _ _ Hreq H). split; [done|].
      by apply assign_regimes_raises.
  - rewrite (rule_based_regime_early_return _ Hreq).
    apply Forall_replicate. exists TRANSITION. split; [done|].
    unfold REGIME_ORDER. in_list.
Qed.

(** Missing exit data after a day that the predicates or the override
    label: when the credit z-score or the volatility level is missing on a
    day, the exit condition is false on that day, and a Risk-off / crisis
    label that the day before holds when the persistence step reads it is
    kept: both days are labelled Risk-off / crisis in the returned series. *)
Lemma missing_exit_data_keeps_crisis df pre cz vx t :
  wf_frame df ->
  assign_regimes df = Ok pre ->
  df_columns df !! "credit_z_1y" = Some cz ->
  df_columns df !! "vix_level" = Some vx ->
  pre !! t = Some (Some CRISIS) ->
  cz !! S t = Some None \/ vx !! S t = Some None ->
  exit_crisis cz vx !! S t = Some false /\
  exists labels,
    rule_based_regime df = Ok labels /\
    labels !! t = Some (Some CRISIS) /\
    labels !! S t = Some (Some CRISIS).
Proof.
  intros Hwf H Hcz Hvx Hpre Hnan.
  pose proof (assign_regimes_length _ _ Hwf H) as Hlen.
  pose proof (wf_frame_length _ _ _ Hwf Hcz) as Hlcz.
  pose proof (wf_frame_length _ _ _ Hwf Hvx) as Hlvx.
  assert (S t < length (df_index df)) as Ht.
  { destruct Hnan as [Hn|Hn]; apply lookup_lt_Some in Hn; lia. }
  destruct (lookup_lt_is_Some_2 cz (S t)) as [a Ha]; [lia|].
  destruct (lookup_lt_is_Some_2 vx (S t)) as [b Hb]; [lia|].
  destruct (lookup_lt_is_Some_2 pre (S t)) as [y Hy]; [lia|].
  assert (exit_crisis cz vx !! S t = Some false) as He.
  { unfold exit_crisis, band.
    rewrite lookup_zip_with.
    rewrite (lookup_cmp_scalar _ cz (S t) : lt_scalar cz _ !! S t = _).
    rewrite (lookup_cmp_scalar _ vx (S t) : lt_scalar vx _ !! S t = _).
    rewrite Ha, Hb. simpl.
    destruct Hnan as [Hn|Hn]; simplify_eq; simpl; [done|].
    by rewrite andb_false_r. }
  split; [done|].
  assert (shift 1 false (label_eq pre CRISIS) !! S t = Some true) as Hc.
  { apply carried_next.
    - unfold label_eq. rewrite list_lookup_fmap, Hpre.
      by (simpl; rewrite ?bool_decide_eq_true_2).
    - apply lookup_lt_is_Some_2. solve_len. }
  destruct (rule_based_regime_persistence _ _ H) as (cz' & vx' & Hcz' & Hvx' & Heq).
  rewrite Hcz in Hcz'. rewrite Hvx in Hvx'. simplify_eq.
  eexists. split; [exact Heq|]. split.
  - rewrite lookup_fillna, loc_set_keeps; [done| |done]. solve_len.
  - rewrite lookup_fillna, lookup_loc_set. unfold band, bnot.
    by rewrite lookup_zip_with, Hc, list_lookup_fmap, He, Hy.
Qed.

Example missing_exit_data_on_missing_z :
  assign_regimes Examples.missing_z = Ok [Some CRISIS; None; None] /\
  exit_crisis [Some 1.8; None; Some 0]%Q [Some 25; Some 10; Some 10]%Q !! 1
    = Some false /\
  rule_based_regime Examples.missing_z
  = Ok [Some CRISIS; Some CRISIS; Some TRANSITION].
Proof. repeat split; vm_compute; reflexivity. Qed.

(** C10 (code at the failing input): day 0 meets the crisis predicate, and
    the credit z-score is missing on days 1 and 2, so the exit condition is
    false on both.  Day 1 is labelled Risk-off / crisis, carried from
    day 0; day 2, whose exit data are missing and whose day before is
    labelled Risk-off / crisis, is labelled Transition: the crisis spell
    has ended on missing exit data. *)
Theorem missing_exit_data_ends_carried_crisis :
  wf_frame Examples.missing_z_run /\
  forallb (has_column Examples.missing_z_run) required = true /\
  df_columns Examples.missing_z_run !! "credit_z_1y"
    = Some [Some 1.8; None; None]%Q /\
  df_columns Examples.missing_z_run !! "vix_level"
    = Some [Some 25; Some 10; Some 10]%Q /\
  exit_crisis [Some 1.8; None; None]%Q [Some 25; Some 10; Some 10]%Q
    = [false; false; false] /\
  assign_regimes Examples.missing_z_run = Ok [Some CRISIS; None; None] /\
  rule_based_regime Examples.missing_z_run
  = Ok [Some CRISIS; Some CRISIS; Some TRANSITION].
Proof.
  split; [apply (bool_decide_unpack _); vm_compute; exact I|].
  repeat split; vm_compute; reflexivity.
Qed.

(** ** The feature pipeline: no lookahead *)

Lemma series_agree_refl {A} p (s : list A) : series_agree p s s.
Proof. by split. Qed.

Lemma series_agree_mono {A} p q (s1 s2 : list A) :
  (q <= p)%Z -> series_agree p s1 s2 -> series_agree q s1 s2.
Proof. intros Hq [Hl H]. split; [done|]. intros i Hi. apply H. lia. Qed.

(** Agreement up to row [p] is equality of the prefixes of [p + 1] rows. *)
Lemma series_agree_take {A} p (s1 s2 : list A) n :
  series_agree p s1 s2 -> (Z.of_nat n <= p + 1)%Z -> take n s1 = take n s2.
Proof.
  intros [Hl H] Hn. apply list_eq. intros i. rewrite !lookup_take.
  destruct (decide (i < n)); [|done]. apply H. lia.
Qed.

Lemma series_agree_fmap {A B} (f : A -> B) p (s1 s2 : list A) :
  series_agree p s1 s2 -> series_agree p (f <$> s1) (f <$> s2).
Proof.
  intros [Hl H]. split; [by rewrite !length_fmap|].
  intros i Hi. by rewrite !list_lookup_fmap, H.
Qed.

Lemma series_agree_zip_with {A B C} (f : A -> B -> C) p (a1 a2 : list A) (b1 b2 : list B) :
  series_agree p a1 a2 -> series_agree p b1 b2 ->
  series_agree p (zip_with f a1 b1) (zip_with f a2 b2).
Proof.
  intros [Hla Ha] [Hlb Hb]. split; [rewrite !length_zip_with; lia|].
  intros i Hi. by rewrite !lookup_zip_with, Ha, Hb.
Qed.

(** A shift by [k] moves the horizon of agreement by [k]. *)
Lemma series_agree_shift {A} p k (fill : A) (s1 s2 : list A) :
  series_agree p s1 s2 -> series_agree (p + k) (shift k fill s1) (shift k fill s2).
Proof.
  intros [Hl H]. split; [by rewrite !length_shift|].
  intros i Hi. rewrite !lookup_shift, <- Hl.
  destruct (decide (i < length s1)); [|done].
  destruct (decide (0 <= Z.of_nat i - k < Z.of_nat (length s1))%Z); [|done].
  rewrite H; [done|lia].
Qed.

(** The forward fill of a prefix is the prefix of the forward fill. *)
Lemma ffill_from_take limit last run s n :
  take n (ffill_from limit last run s) = ffill_from limit last run (take n s).
Proof.
  revert last run n. induction s as [|x s IH]; intros last run n.
  - by destruct n.
  - destruct n as [|n]; [done|]. destruct x as [v|]; simpl; by rewrite IH.
Qed.

Lemma length_ffill_from limit last run s :
  length (ffill_from limit last run s) = length s.
Proof.
  revert last run. induction s as [|[v|] s IH]; intros last run; simpl; by rewrite ?IH.
Qed.

Lemma series_agree_of_take {A} p (s1 s2 : list A) :
  length s1 = length s2 ->
  take (Z.to_nat (p + 1)) s1 = take (Z.to_nat (p + 1)) s2 ->
  series_agree p s1 s2.
Proof.
  intros Hl H. split; [done|]. intros i Hi.
  assert (i < Z.to_nat (p + 1)) as Hlt by lia.
  rewrite <- (lookup_take_lt s1 _ _ Hlt), <- (lookup_take_lt s2 _ _ Hlt).
  by rewrite H.
Qed.

Lemma series_agree_ffill p limit s1 s2 :
  series_agree p s1 s2 -> series_agree p (ffill limit s1) (ffill limit s2).
Proof.
  intros H. destruct (decide (p < 0)%Z) as [Hp|Hp].
  { destruct H as [Hl _]. split; [unfold ffill; by rewrite !length_ffill_from|].
    intros i Hi. lia. }
  apply series_agree_of_take.
  - unfold ffill. rewrite !length_ffill_from. apply H.
  - unfold ffill. rewrite !ffill_from_take.
    f_equal. eapply series_agree_take; [done|lia].
Qed.

Lemma result_rel_bind {A B} (R : A -> A -> Prop) (S : B -> B -> Prop)
    (r1 r2 : result A) (k1 k2 : A -> result B) :
  result_rel R r1 r2 ->
  (forall a b, R a b -> result_rel S (k1 a) (k2 b)) ->
  result_rel S (r1 ≫= k1) (r2 ≫= k2).
Proof. destruct r1, r2; simpl; try done. intros H Hk. by apply Hk. Qed.

Lemma lookup_seq_0 n i : i < n -> seq 0 n !! i = Some i.
Proof. intros Hi. by rewrite lookup_seq_lt. Qed.

Lemma window_at_agree p w s1 s2 i :
  series_agree p s1 s2 -> (Z.of_nat i <= p)%Z -> window_at w s1 i = window_at w s2 i.
Proof.
  intros H Hi. unfold window_at. f_equal.
  eapply series_agree_take; [done|lia].
Qed.

Lemma rolling_agree p window min_periods agg s1 s2 :
  series_agree p s1 s2 ->
  result_rel (series_agree p)
    (rolling window min_periods agg s1) (rolling window min_periods agg s2).
Proof.
  intros H. unfold rolling.
  destruct (rolling_validate window min_periods) as [[]|e]; simpl; [|done].
  destruct H as [Hl H]. split; [by rewrite !length_fmap, !length_seq|].
  intros i Hi. rewrite !list_lookup_fmap, <- Hl.
  destruct (decide (i < length s1)) as [Hlt|Hge].
  - rewrite lookup_seq_0 by done. simpl.
    by rewrite (window_at_agree p _ s1 s2 i).
  - by rewrite lookup_ge_None_2 by (rewrite length_seq; lia).
Qed.

Lemma zscore_rolling_agree qsqrt p window min_periods s1 s2 :
  series_agree p s1 s2 ->
  result_rel (series_agree p)
    (zscore_rolling qsqrt s1 window min_periods)
    (zscore_rolling qsqrt s2 window min_periods).
Proof.
  intros H. unfold zscore_rolling.
  eapply result_rel_bind; [by apply rolling_agree|]. intros mu1 mu2 Hmu.
  eapply result_rel_bind; [by apply rolling_agree|]. intros sd1 sd2 Hsd.
  simpl. unfold series_div, series_sub, replace_zero.
  apply series_agree_zip_with; [by apply series_agree_zip_with|].
  by apply series_agree_fmap.
Qed.

(** The argument checks pass for a window of non-negative length. *)
Lemma rolling_validate_ok days_1y :
  (0 <= days_1y)%Z -> rolling_validate days_1y (Z.quot (days_1y * 8) 10) = Ok ().
Proof.
  intros H. unfold rolling_validate.
  rewrite Z.quot_div_nonneg by lia.
  assert (0 <= days_1y * 8 / 10 <= days_1y)%Z as [H1 H2].
  { split; [apply Z.div_pos; lia|]. apply Z.div_le_upper_bound; lia. }
  destruct (Z.ltb_spec (days_1y * 8 / 10) 0); [lia|].
  destruct (Z.ltb_spec days_1y (days_1y * 8 / 10)); [lia|].
  destruct (Z.ltb_spec days_1y 0); [lia|]. done.
Qed.

Lemma zscore_rolling_returns qsqrt x days_1y :
  (0 <= days_1y)%Z ->
  exists z, zscore_rolling qsqrt x days_1y (Z.quot (days_1y * 8) 10) = Ok z.
Proof.
  intros H. unfold zscore_rolling, rolling.
  rewrite rolling_validate_ok by done. simpl. eauto.
Qed.

(** *** Tables *)

Lemma frames_agree_lookup p a b c :
  frames_agree p a b ->
  (df_columns a !! c = None /\ df_columns b !! c = None) \/
  (exists s1 s2, df_columns a !! c = Some s1 /\ df_columns b !! c = Some s2 /\
                 series_agree p s1 s2).
Proof.
  intros [_ H]. specialize (H c).
  destruct (df_columns a !! c), (df_columns b !! c); try done; eauto 10.
Qed.

Lemma frames_agree_mono p q a b :
  (q <= p)%Z -> frames_agree p a b -> frames_agree q a b.
Proof.
  intros Hq [Hi H]. split; [done|]. intros c. specialize (H c).
  destruct (df_columns a !! c), (df_columns b !! c); try done.
  by eapply series_agree_mono.
Qed.

Lemma frames_agree_setcol p a b c s1 s2 :
  frames_agree p a b -> series_agree p s1 s2 ->
  frames_agree p (setcol c s1 a) (setcol c s2 b).
Proof.
  intros [Hi H] Hs. split; [done|]. intros c'. simpl.
  destruct (decide (c = c')) as [->|Hne].
  - by rewrite !lookup_insert_eq.
  - rewrite !lookup_insert_ne by done. apply H.
Qed.

Lemma frames_agree_shift p k a b :
  frames_agree p a b -> frames_agree (p + k) (frame_shift k a) (frame_shift k b).
Proof.
  intros [Hi H]. split; [done|]. intros c. simpl. rewrite !lookup_fmap.
  specialize (H c).
  destruct (df_columns a !! c), (df_columns b !! c); simpl; try done.
  by apply series_agree_shift.
Qed.

Lemma frames_agree_ffill p limit a b :
  frames_agree p a b ->
  result_rel (frames_agree p) (frame_ffill limit a) (frame_ffill limit b).
Proof.
  intros [Hi H]. unfold frame_ffill. destruct (limit <? 1)%Z; simpl; [done|].
  split; [done|]. intros c. simpl. rewrite !lookup_fmap. specialize (H c).
  destruct (df_columns a !! c), (df_columns b !! c); simpl; try done.
  by apply series_agree_ffill.
Qed.

(** A trailing difference over a window of non-negative length reads no
    later row. *)
Lemma momentum_agree p days_1m s1 s2 :
  (0 <= days_1m)%Z -> series_agree p s1 s2 ->
  series_agree p (series_sub s1 (shift days_1m None s1))
                 (series_sub s2 (shift days_1m None s2)).
Proof.
  intros Hk H. apply series_agree_zip_with; [done|].
  apply (series_agree_mono (p + days_1m)); [lia|]. by apply series_agree_shift.
Qed.

Lemma add_curve_agree qsqrt p days_1y min_1y a b :
  frames_agree p a b ->
  result_rel (frames_agree p)
    (add_curve qsqrt days_1y min_1y a) (add_curve qsqrt days_1y min_1y b).
Proof.
  intros H. unfold add_curve.
  destruct (frames_agree_lookup p a b "ust_10y" H)
    as [[-> ->]|(x1 & x2 & -> & -> & Hx)]; [done|].
  destruct (frames_agree_lookup p a b "ust_2y" H)
    as [[-> ->]|(y1 & y2 & -> & -> & Hy)]; [done|].
  assert (series_agree p (series_sub x1 y1) (series_sub x2 y2)) as Hc
    by by apply series_agree_zip_with.
  eapply result_rel_bind; [by apply zscore_rolling_agree|].
  intros z1 z2 Hz. simpl. by repeat apply frames_agree_setcol.
Qed.

Lemma add_rates_momentum_agree p days_1m col a b :
  (0 <= days_1m)%Z ->
  frames_agree p a b ->
  frames_agree p (add_rates_momentum days_1m col a) (add_rates_momentum days_1m col b).
Proof.
  intros Hk H. unfold add_rates_momentum.
  destruct (frames_agree_lookup p a b col H)
    as [[-> ->]|(x1 & x2 & -> & -> & Hx)]; [done|].
  apply frames_agree_setcol; [done|]. by apply momentum_agree.
Qed.

Lemma add_credit_agree qsqrt p days_1m days_1y min_1y a b :
  (0 <= days_1m)%Z ->
  frames_agree p a b ->
  result_rel (frames_agree p)
    (add_credit qsqrt days_1m days_1y min_1y a)
    (add_credit qsqrt days_1m days_1y min_1y b).
Proof.
  intros Hk H. unfold add_credit.
  destruct (frames_agree_lookup p a b "baa_10y_spread" H)
    as [[-> ->]|(x1 & x2 & -> & -> & Hx)]; [done|].
  eapply result_rel_bind; [by apply zscore_rolling_agree|].
  intros z1 z2 Hz. simpl.
  repeat apply frames_agree_setcol; try done. by apply momentum_agree.
Qed.

Lemma add_volatility_agree qsqrt p days_1m days_1y min_1y a b :
  (0 <= days_1m)%Z ->
  frames_agree p a b ->
  result_rel (frames_agree p)
    (add_volatility qsqrt days_1m days_1y min_1y a)
    (add_volatility qsqrt days_1m days_1y min_1y b).
Proof.
  intros Hk H. unfold add_volatility.
  destruct (frames_agree_lookup p a b "vix" H)
    as [[-> ->]|(x1 & x2 & -> & -> & Hx)]; [done|].
  eapply result_rel_bind; [by apply zscore_rolling_agree|].
  intros z1 z2 Hz. simpl.
  repeat apply frames_agree_setcol; try done. by apply momentum_agree.
Qed.

Lemma append_signal_agree p a b c test sig1 sig2 :
  (forall s1 s2, series_agree p s1 s2 -> series_agree p (test s1) (test s2)) ->
  frames_agree p a b ->
  Forall2 (series_agree p) sig1 sig2 ->
  Forall2 (series_agree p) (append_signal a c test sig1) (append_signal b c test sig2).
Proof.
  intros Htest H Hsig. unfold append_signal.
  destruct (frames_agree_lookup p a b c H)
    as [[-> ->]|(x1 & x2 & -> & -> & Hx)]; [done|].
  apply Forall2_app; [done|]. constructor; [|constructor].
  unfold astype_float. by apply series_agree_fmap, Htest.
Qed.

Lemma stress_signals_agree p a b :
  frames_agree p a b ->
  Forall2 (series_agree p) (stress_signals a) (stress_signals b).
Proof.
  intros H. unfold stress_signals.
  do 3 (apply append_signal_agree;
        [intros x1 x2 Hx; by apply series_agree_fmap | done | ]).
  constructor.
Qed.

Lemma row_cells_agree p (sig1 sig2 : list Series) i :
  Forall2 (series_agree p) sig1 sig2 -> (Z.of_nat i <= p)%Z ->
  omap (fun s : Series => mjoin (s !! i)) sig1 =
  omap (fun s : Series => mjoin (s !! i)) sig2.
Proof.
  intros H Hi. induction H as [|s1 s2 sig1 sig2 [_ Hs] _ IH]; [done|].
  csimpl. by rewrite (Hs i Hi), IH.
Qed.

Lemma row_sum_agree p min_count n sig1 sig2 :
  Forall2 (series_agree p) sig1 sig2 ->
  series_agree p (row_sum min_count n sig1) (row_sum min_count n sig2).
Proof.
  intros H. split; [unfold row_sum; by rewrite !length_fmap|].
  intros i Hi. unfold row_sum. rewrite !list_lookup_fmap.
  destruct (seq 0 n !! i) as [j|] eqn:Hj; [|done]. simpl.
  apply lookup_seq in Hj as [-> _]. simpl.
  by rewrite (row_cells_agree p sig1 sig2 i).
Qed.

Lemma add_risk_off_score_agree p a b :
  frames_agree p a b ->
  frames_agree p (add_risk_off_score a) (add_risk_off_score b).
Proof.
  intros H. unfold add_risk_off_score.
  pose proof (stress_signals_agree p a b H) as Hsig.
  pose proof (Forall2_length _ _ _ Hsig) as Hlen.
  destruct (stress_signals a) as [|x1 l1], (stress_signals b) as [|x2 l2];
    try done.
  apply frames_agree_setcol; [done|].
  rewrite Hlen. destruct H as [-> _]. by apply row_sum_agree.
Qed.

(** Tables that agree up to row [t - lag_days] are turned into feature
    tables that agree up to row [t]; the two runs either both return or
    both raise the same exception. *)
Lemma build_features_agree qsqrt m1 m2 lag_days days_1m days_1y fill_days (t : nat) :
  (0 <= days_1m)%Z ->
  frames_agree (Z.of_nat t - lag_days) m1 m2 ->
  result_rel (frames_agree (Z.of_nat t))
    (build_features qsqrt m1 lag_days days_1m days_1y fill_days)
    (build_features qsqrt m2 lag_days days_1m days_1y fill_days).
Proof.
  intros Hk H. unfold build_features.
  apply (frames_agree_shift _ lag_days) in H.
  replace (Z.of_nat t - lag_days + lag_days)%Z with (Z.of_nat t) in H by lia.
  eapply result_rel_bind; [by apply frames_agree_ffill|]. intros a1 b1 H1.
  eapply result_rel_bind; [by apply add_curve_agree|]. intros a2 b2 H2.
  eapply result_rel_bind; [apply add_credit_agree; [done|]|].
  { by repeat apply add_rates_momentum_agree. }
  intros a3 b3 H3.
  eapply result_rel_bind; [by apply add_volatility_agree|]. intros a4 b4 H4.
  simpl. by apply add_risk_off_score_agree.
Qed.

(** With a fill cap of at least 1 and a long window of non-negative
    length, the pipeline returns a table. *)
Lemma build_features_returns qsqrt macro lag_days days_1m days_1y fill_days :
  (0 <= days_1y)%Z -> (1 <= fill_days)%Z ->
  exists f, build_features qsqrt macro lag_days days_1m days_1y fill_days = Ok f.
Proof.
  intros Hy Hf. unfold build_features, frame_ffill.
  destruct (Z.ltb_spec fill_days 1); [lia|]. simpl.
  set (df1 := mkFrame _ _).
  assert (forall df, exists df', add_curve qsqrt days_1y (Z.quot (days_1y * 8) 10) df = Ok df')
    as Hcurve.
  { intros df. unfold add_curve.
    destruct (df_columns df !! "ust_10y"), (df_columns df !! "ust_2y"); eauto.
    destruct (zscore_rolling_returns qsqrt (series_sub l l0) days_1y Hy) as [z ->].
    simpl. eauto. }
  assert (forall df, exists df',
            add_credit qsqrt days_1m days_1y (Z.quot (days_1y * 8) 10) df = Ok df')
    as Hcredit.
  { intros df. unfold add_credit.
    destruct (df_columns df !! "baa_10y_spread") as [x|]; eauto.
    destruct (zscore_rolling_returns qsqrt x days_1y Hy) as [z ->]. simpl. eauto. }
  assert (forall df, exists df',
            add_volatility qsqrt days_1m days_1y (Z.quot (days_1y * 8) 10) df = Ok df')
    as Hvol.
  { intros df. unfold add_volatility.
    destruct (df_columns df !! "vix") as [x|]; eauto.
    destruct (zscore_rolling_returns qsqrt x days_1y Hy) as [z ->]. simpl. eauto. }
  destruct (Hcurve df1) as [df2 ->]. simpl.
  destruct (Hcredit (add_rates_momentum days_1m "ust_2y"
                       (add_rates_momentum days_1m "ust_10y" df2))) as [df3 ->]. simpl.
  destruct (Hvol df3) as [df4 ->]. simpl. eauto.
Qed.

Lemma frames_agree_row_at (t : nat) a b :
  frames_agree (Z.of_nat t) a b -> row_at a t = row_at b t.
Proof.
  intros [_ H]. apply map_eq. intros c. unfold row_at. rewrite !lookup_omap.
  specialize (H c).
  destruct (df_columns a !! c), (df_columns b !! c); simpl; try done.
  destruct H as [_ H]. apply H. lia.
Qed.

(** C6: for every date [t], two raw tables over the same dates that agree
    on all values at dates up to [t - lag_days] are both turned into a
    feature table, and the two feature rows at [t] are identical in every
    column (window lengths non-negative, fill cap at least 1). *)
Theorem build_features_no_lookahead qsqrt m1 m2 lag_days days_1m days_1y fill_days
    (t : nat) :
  (0 <= days_1m)%Z -> (0 <= days_1y)%Z -> (1 <= fill_days)%Z ->
  frames_agree (Z.of_nat t - lag_days) m1 m2 ->
  exists f1 f2,
    build_features qsqrt m1 lag_days days_1m days_1y fill_days = Ok f1 /\
    build_features qsqrt m2 lag_days days_1m days_1y fill_days = Ok f2 /\
    row_at f1 t = row_at f2 t.
Proof.
  intros Hm Hy Hf H.
  pose proof (build_features_agree qsqrt m1 m2 lag_days days_1m days_1y fill_days t Hm H)
    as Hrel.
  destruct (build_features_returns qsqrt m1 lag_days days_1m days_1y fill_days Hy Hf)
    as [f1 H1].
  destruct (build_features_returns qsqrt m2 lag_days days_1m days_1y fill_days Hy Hf)
    as [f2 H2].
  rewrite H1, H2 in Hrel. simpl in Hrel.
  exists f1, f2. split; [done|]. split; [done|]. by apply frames_agree_row_at.
Qed.

(** Altering the values of one column after row [p]. *)
Lemma frames_agree_alter p a c s s' :
  df_columns a !! c = Some s -> series_agree p s s' ->
  frames_agree p a (setcol c s' a).
Proof.
  intros Hc Hs. split; [done|]. intros c'. simpl.
  destruct (decide (c = c')) as [<-|Hne].
  - by rewrite lookup_insert_eq, Hc.
  - rewrite lookup_insert_ne by done.
    destruct (df_columns a !! c'); [apply series_agree_refl|done].
Qed.

Lemma build_features_no_lookahead_witness :
  (0 <= 21)%Z /\ (0 <= 252)%Z /\ (1 <= 5)%Z /\
  frames_agree (Z.of_nat 3 - 1) Examples.raw Examples.raw_altered /\
  exists f1 f2,
    build_features Examples.stand_in_sqrt Examples.raw 1 21 252 5 = Ok f1 /\
    build_features Examples.stand_in_sqrt Examples.raw_altered 1 21 252 5 = Ok f2 /\
    row_at f1 3 = row_at f2 3.
Proof.
  assert (frames_agree (Z.of_nat 3 - 1) Examples.raw Examples.raw_altered) as H.
  { apply (frames_agree_alter _ _ _ [Some 15; Some 16; Some 17; Some 14]%Q);
      [reflexivity|].
    split; [reflexivity|].
    intros [|[|[|i]]] Hi; try reflexivity. lia. }
  split; [lia|]. split; [lia|]. split; [lia|]. split; [exact H|].
  apply (build_features_no_lookahead Examples.stand_in_sqrt Examples.raw
           Examples.raw_altered 1 21 252 5 3); [lia | lia | lia | exact H].
Defined.

(** ** The composite score *)

Lemma Qplus_inject_Z (a b : Z) : (inject_Z a + inject_Z b)%Q = inject_Z (a + b).
Proof. unfold Qplus, inject_Z. simpl. f_equal. lia. Qed.

(** A 0/1 signal column has a value on every row: the conversion of a
    comparison to float never yields NaN. *)
Lemma lookup_astype_float b i :
  astype_float b !! i = (fun x : bool => Some (if x then 1%Q else 0%Q)) <$> b !! i.
Proof. unfold astype_float. by rewrite list_lookup_fmap. Qed.

(** The cells a row of 0/1 signal columns contributes to the row sum: one
    per column, and they add up to the number of [True] signals. *)
Lemma signal_row_cells (bs : list BoolSeries) t :
  Forall (fun b : BoolSeries => t < length b) bs ->
  exists cells,
    omap (fun s : Series => mjoin (s !! t)) (astype_float <$> bs) = cells /\
    length cells = length bs /\
    Qsum cells =
      inject_Z (Z.of_nat (length (filter (fun b : BoolSeries => b !! t = Some true) bs))).
Proof.
  induction 1 as [|b bs Hb _ (cells & Hc & Hl & Hs)].
  - exists []. done.
  - destruct (lookup_lt_is_Some_2 b t Hb) as [x Hx].
    exists ((if x then 1%Q else 0%Q) :: cells). csimpl.
    rewrite lookup_astype_float, Hx. csimpl. rewrite Hc, Hl. split; [done|].
    split; [done|]. rewrite filter_cons. simpl. rewrite Hs.
    destruct x.
    + rewrite decide_True by by rewrite Hx. simpl length.
      change 1%Q with (inject_Z 1). rewrite Qplus_inject_Z. f_equal. lia.
    + rewrite decide_False by by rewrite Hx.
      change 0%Q with (inject_Z 0). by rewrite Qplus_inject_Z.
Qed.

(** With [min_count] set to the number of signal columns, the row sum of
    0/1 signal columns is never NaN: every row holds all its cells. *)
Lemma row_sum_signals (bs : list BoolSeries) n t :
  t < n ->
  Forall (fun b : BoolSeries => t < length b) bs ->
  row_sum (length (astype_float <$> bs)) n (astype_float <$> bs) !! t =
  Some (Some (inject_Z (Z.of_nat
    (length (filter (fun b : BoolSeries => b !! t = Some true) bs))))).
Proof.
  intros Ht Hbs. unfold row_sum.
  rewrite list_lookup_fmap, lookup_seq_0 by done. simpl.
  destruct (signal_row_cells bs t Hbs) as (cells & -> & Hl & ->).
  rewrite length_fmap, Hl, Nat.leb_refl. done.
Qed.

(** The signal columns are comparisons converted to float. *)
Lemma stress_signals_shape df :
  wf_frame df ->
  exists bs : list BoolSeries,
    stress_signals df = astype_float <$> bs /\
    length bs <= 3 /\
    Forall (fun b : BoolSeries => length b = length (df_index df)) bs.
Proof.
  intros Hwf. unfold stress_signals, append_signal.
  destruct (df_columns df !! "curve_10y2y") as [x|] eqn:Hx;
  destruct (df_columns df !! "credit_chg_1m") as [y|] eqn:Hy;
  destruct (df_columns df !! "vix_chg_1m") as [z|] eqn:Hz;
  try pose proof (wf_frame_length _ _ _ Hwf Hx);
  try pose proof (wf_frame_length _ _ _ Hwf Hy);
  try pose proof (wf_frame_length _ _ _ Hwf Hz);
  simpl;
  [ exists [lt_scalar x 0; gt_scalar y 0; gt_scalar z 0]
  | exists [lt_scalar x 0; gt_scalar y 0]
  | exists [lt_scalar x 0; gt_scalar z 0]
  | exists [lt_scalar x 0]
  | exists [gt_scalar y 0; gt_scalar z 0]
  | exists [gt_scalar y 0]
  | exists [gt_scalar z 0]
  | exists [] ];
  (split; [done|]); (split; [simpl; lia|]);
  repeat constructor; by solve_len.
Qed.

(** What [add_risk_off_score] writes: on every row the score is a whole
    number between 0 and the number of signal columns, never NaN. *)
Lemma risk_off_score_never_missing df t :
  wf_frame df ->
  t < length (df_index df) ->
  stress_signals df <> [] ->
  exists k : nat,
    k <= length (stress_signals df) /\
    cell_at (add_risk_off_score df) "risk_off_score" t
      = Some (Some (inject_Z (Z.of_nat k))).
Proof.
  intros Hwf Ht Hne. unfold add_risk_off_score.
  destruct (stress_signals_shape df Hwf) as (bs & Hbs & _ & Hlen).
  destruct (stress_signals df) as [|s sig] eqn:Hsig; [done|].
  rewrite Hbs. unfold cell_at, setcol. simpl. rewrite lookup_insert_eq. simpl.
  rewrite row_sum_signals; [|done|].
  - eexists. split; [|done]. rewrite length_fmap. apply length_filter.
  - eapply Forall_impl; [exact Hlen|]. simpl. intros b ->. done.
Qed.

(** C2 (code at the failing input): with the default parameters, on the
    first date of a table holding the four raw series no stress sub-signal
    has a value (curve slope, credit change and volatility change are all
    NaN), yet the composite score of that date is 0, not missing. *)
Theorem score_zero_when_no_signal_available qsqrt :
  exists f,
    build_features qsqrt Examples.raw 1 21 252 5 = Ok f /\
    cell_at f "curve_10y2y" 0 = Some None /\
    cell_at f "credit_chg_1m" 0 = Some None /\
    cell_at f "vix_chg_1m" 0 = Some None /\
    cell_at f "risk_off_score" 0 = Some (Some 0%Q).
Proof.
  eexists. split; [vm_compute; reflexivity|].
  repeat split; vm_compute; reflexivity.
Qed.

(** ** The regime distribution *)

Lemma StronglySorted_filter {A} (R : relation A) (P : A -> Prop)
    `{forall x, Decision (P x)} l :
  StronglySorted R l -> StronglySorted R (filter P l).
Proof.
  induction 1 as [|x l Hl IH Hx]; [constructor|].
  rewrite filter_cons. case_decide; [|done].
  constructor; [done|]. rewrite Forall_forall in Hx. apply Forall_forall.
  intros y Hy. apply list_elem_of_filter in Hy as [_ Hy]. by apply Hx.
Qed.

Lemma filter_none {A} (P : A -> Prop) `{forall x, Decision (P x)} l :
  Forall (fun x => ~ P x) l -> filter P l = [].
Proof.
  induction 1 as [|x l Hx _ IH]; [done|].
  by rewrite filter_cons, decide_False, IH.
Qed.

Lemma filter_all {A} (P : A -> Prop) `{forall x, Decision (P x)} l :
  Forall P l -> filter P l = l.
Proof.
  induction 1 as [|x l Hx _ IH]; [done|].
  by rewrite filter_cons, decide_True, IH.
Qed.

(** In a list sorted by an order that puts the elements satisfying [P]
    first, these elements form a prefix. *)
Lemma sorted_split {A} (R : relation A) (P : A -> Prop)
    `{forall x, Decision (P x)} l :
  (forall x y, R x y -> P y -> P x) ->
  StronglySorted R l ->
  l = (filter P l ++ filter (fun x => ~ P x) l).
Proof.
  intros Hdown. induction 1 as [|x l Hl IH Hx]; [done|].
  rewrite !filter_cons. destruct (decide (P x)) as [HP|HP].
  - rewrite decide_False by tauto. simpl. by rewrite <- IH.
  - rewrite decide_True by done.
    assert (Forall (fun y => ~ P y) l) as Hnone.
    { eapply Forall_impl; [exact Hx|]. simpl. intros y Hxy HPy. eauto. }
    rewrite (filter_none P l Hnone), (filter_all _ l Hnone). done.
Qed.

#[global] Instance code_le_trans : Transitive code_le.
Proof. intros [x|] [y|] [z|]; simpl; try done. lia. Qed.

#[global] Instance code_le_total : Total code_le.
Proof. intros [x|] [y|]; simpl; try tauto. lia. Qed.

#[global] Instance row_le_trans cats : Transitive (row_le cats).
Proof. intros x y z. unfold row_le. apply code_le_trans. Qed.

#[global] Instance row_le_total cats : Total (row_le cats).
Proof. intros x y. unfold row_le. apply code_le_total. Qed.

(** The code of a category is its position. *)
Lemma category_code_Some cats k :
  k ∈ cats -> exists i, category_code cats (Some k) = Some i /\ cats !! i = Some k.
Proof.
  intros Hk. unfold category_code. simpl.
  destruct (list_find_elem_of (fun c => c = k) cats k Hk eq_refl) as [[i x] Hf].
  rewrite Hf. apply list_find_Some in Hf as (Hi & -> & _). eauto.
Qed.

Lemma category_code_None cats k : k ∉ cats -> category_code cats (Some k) = None.
Proof.
  intros Hk. unfold category_code. simpl.
  destruct (list_find (fun c => c = k) cats) as [[i x]|] eqn:Hf; [|done].
  apply list_find_Some in Hf as (Hi & -> & _).
  destruct Hk. by eapply list_elem_of_lookup_2.
Qed.

(** A duplicate-free list of categories is sorted by category code. *)
Lemma categories_sorted (cats : list string) :
  NoDup cats ->
  StronglySorted
    (fun a b => code_le (category_code cats (Some a)) (category_code cats (Some b)))
    cats.
Proof.
  intros Hnd.
  assert (forall suf pre, cats = (pre ++ suf) ->
    StronglySorted
      (fun a b => code_le (category_code cats (Some a)) (category_code cats (Some b)))
      suf) as Hgen; [|by apply (Hgen cats [])].
  induction suf as [|x suf IH]; intros pre Heq; [constructor|].
  constructor.
  - apply (IH (pre ++ [x])). by rewrite <- app_assoc.
  - apply Forall_forall. intros y Hy.
    destruct (category_code_Some cats x) as (i & -> & Hi);
      [rewrite Heq; set_solver|].
    destruct (category_code_Some cats y) as (j & -> & Hj);
      [rewrite Heq; set_solver|].
    simpl.
    assert (i = length pre) as ->.
    { eapply NoDup_lookup; [done|done|].
      rewrite Heq. by rewrite list_lookup_middle. }
    apply list_elem_of_lookup in Hy as [n Hn].
    assert (j = length pre + S n) as ->.
    { eapply NoDup_lookup; [done|done|].
      rewrite Heq, lookup_app_r by lia.
      replace (length pre + S n - length pre) with (S n) by lia. done. }
    lia.
Qed.

Lemma value_counts_Permutation vals :
  value_counts vals ≡ₚ
  (fun k => (k, length (filter (fun v => v = k) vals))) <$> remove_dups vals.
Proof. unfold value_counts. apply merge_sort_Permutation. Qed.

Lemma value_counts_keys vals k : k ∈ (fst <$> value_counts vals) <-> k ∈ vals.
Proof.
  rewrite (value_counts_Permutation vals), <- list_fmap_compose.
  rewrite list_elem_of_fmap. setoid_rewrite elem_of_remove_dups.
  split; [by intros (x & -> & Hx)|]. intros Hk. by exists k.
Qed.

Lemma NoDup_REGIME_ORDER : NoDup REGIME_ORDER.
Proof. apply (bool_decide_unpack _). vm_compute. exact I. Qed.

Lemma filter_fmap {A B} (f : A -> B) (P : B -> Prop) `{forall x, Decision (P x)}
    (l : list A) :
  filter P (f <$> l) = f <$> filter (fun x => P (f x)) l.
Proof.
  induction l as [|x l IH]; [done|]. csimpl. rewrite !filter_cons.
  destruct (decide (P (f x))); csimpl; by rewrite IH.
Qed.

(** The rows of the table before sorting: one per distinct label, indexed
    by the label when it is a category and by NaN otherwise. *)
Lemma regime_distribution_unfold regimes include_total :
  let labels := snd <$> _normalize_regime regimes in
  let counts := value_counts labels in
  let total := sum_list (snd <$> counts) in
  let cats := filter (fun r => r ∈ labels) REGIME_ORDER in
  let row (kd : string * nat) :=
    mkDistRow (if decide (kd.1 ∈ cats) then Some kd.1 else None) kd.2
      (round2 (inject_Z (Z.of_nat kd.2) / inject_Z (Z.of_nat total) * 100)%Q) in
  dist_rows (regime_distribution regimes include_total)
  = merge_sort (row_le cats) (row <$> counts).
Proof.
  intros labels counts total cats row. unfold regime_distribution. simpl.
  fold labels. fold counts. fold total. unfold _ordered_regime_index. simpl.
  assert (filter (fun r => r ∈ fst <$> counts) REGIME_ORDER = cats) as ->.
  { apply list_filter_iff. intros k. apply value_counts_keys. }
  unfold sort_index. f_equal.
  rewrite !zip_with_fmap_l, zip_with_diag. done.
Qed.

(** C4 (amended): the distribution table has one row for each label of
    the five-label set that occurs in the series, in the fixed canonical
    order, with its number of days; a label with zero days has no row.  The
    rows indexed by NaN, which stand for labels outside the set, come last. *)
Theorem distribution_rows_canonical regimes include_total :
  let labels := snd <$> _normalize_regime regimes in
  let days (l : string) := length (filter (fun v => v = l) labels) in
  exists rest,
    (fun r => (dist_regime r, dist_days r))
      <$> dist_rows (regime_distribution regimes include_total)
    = (((fun l => (Some l, days l)) <$> filter (fun l => l ∈ labels) REGIME_ORDER)
       ++ rest) /\
    rest ≡ₚ (fun l => (None, days l))
              <$> filter (fun l => l ∉ REGIME_ORDER) (remove_dups labels).
Proof.
  intros labels days.
  rewrite regime_distribution_unfold. fold labels.
  set (counts := value_counts labels).
  set (total := sum_list (snd <$> counts)).
  set (cats := filter (fun r => r ∈ labels) REGIME_ORDER).
  set (share (d : nat) :=
         round2 (inject_Z (Z.of_nat d) / inject_Z (Z.of_nat total) * 100)%Q).
  set (row := fun kd : string * nat =>
         mkDistRow (if decide (kd.1 ∈ cats) then Some kd.1 else None) kd.2 (share kd.2)).
  set (row' := fun k : string => row (k, days k)).
  set (key := fun r => category_code cats (dist_regime r)).
  set (P := fun r => is_Some (key r)).
  set (rows := merge_sort (row_le cats) (row <$> counts)).
  assert (NoDup cats) as Hnd by (apply NoDup_filter, NoDup_REGIME_ORDER).
  assert (forall k, k ∈ cats <-> k ∈ REGIME_ORDER /\ k ∈ labels) as Hcats.
  { intros k. unfold cats. rewrite list_elem_of_filter. tauto. }
  assert (rows ≡ₚ row' <$> remove_dups labels) as Hperm.
  { unfold rows. rewrite merge_sort_Permutation. unfold counts.
    rewrite value_counts_Permutation, <- list_fmap_compose. done. }
  assert (StronglySorted (row_le cats) rows) as Hsorted
    by (apply StronglySorted_merge_sort; apply _).
  assert (forall k, k ∈ cats -> key (row' k) = category_code cats (Some k)) as Hkey_in.
  { intros k Hk. unfold key, row', row. simpl. by rewrite decide_True. }
  assert (forall k, k ∉ cats -> key (row' k) = None) as Hkey_out.
  { intros k Hk. unfold key, row', row. simpl. by rewrite decide_False. }
  assert (forall k, key (row' k) = category_code cats (Some k)) as Hkey.
  { intros k. destruct (decide (k ∈ cats)) as [Hk|Hk]; [by apply Hkey_in|].
    by rewrite Hkey_out, category_code_None. }
  (* the rows with a category, and the rows indexed by NaN *)
  assert (filter P rows ≡ₚ row' <$> cats) as Hknown.
  { rewrite Hperm, filter_fmap. apply fmap_Permutation.
    apply NoDup_Permutation; [apply NoDup_filter, NoDup_remove_dups|done|].
    intros k. rewrite list_elem_of_filter, elem_of_remove_dups. simpl. split.
    - intros [[i Hi] Hk]. destruct (decide (k ∈ cats)) as [|Hn]; [done|].
      unfold P in Hi. by rewrite (Hkey_out k Hn) in Hi.
    - intros Hk. split; [|by apply Hcats].
      unfold P. rewrite (Hkey_in k Hk).
      destruct (category_code_Some cats k Hk) as (i & -> & _). done. }
  assert (filter (fun r => ~ P r) rows ≡ₚ
          row' <$> filter (fun l => l ∉ REGIME_ORDER) (remove_dups labels)) as Hnan.
  { rewrite Hperm, filter_fmap. apply fmap_Permutation.
    apply NoDup_Permutation;
      [apply NoDup_filter, NoDup_remove_dups
      |apply NoDup_filter, NoDup_remove_dups|].
    intros k. rewrite !list_elem_of_filter, elem_of_remove_dups. simpl.
    split.
    - intros [HnP Hk]. split; [|done]. intros Hro. apply HnP.
      assert (k ∈ cats) as Hc by by apply Hcats.
      unfold P. rewrite (Hkey_in k Hc).
      destruct (category_code_Some cats k Hc) as (i & -> & _). done.
    - intros [Hro Hk]. split; [|done]. intros [i Hi].
      assert (k ∉ cats) as Hc by (rewrite Hcats; tauto).
      by rewrite (Hkey_out k Hc) in Hi. }
  (* sorted rows: the categories first, in category order *)
  assert (rows = (filter P rows ++ filter (fun r => ~ P r) rows)) as Hsplit.
  { apply (sorted_split (row_le cats)); [|done].
    intros x y Hxy [j Hj]. unfold P, row_le in *. fold (key x) in Hxy.
    fold (key y) in Hxy. rewrite Hj in Hxy.
    destruct (key x); [done|]. done. }
  assert (filter P rows = row' <$> cats) as Heq.
  { apply (StronglySorted_unique_strong (row_le cats)); [| |  |done].
    - intros x1 x2 Hx1 Hx2 H12 H21.
      apply list_elem_of_fmap in Hx2 as (k2 & -> & Hk2).
      rewrite Hknown in Hx1. apply list_elem_of_fmap in Hx1 as (k1 & -> & Hk1).
      unfold row_le in H12, H21. fold (key (row' k1)) in H12, H21.
      fold (key (row' k2)) in H12, H21.
      rewrite (Hkey_in k1 Hk1), (Hkey_in k2 Hk2) in H12, H21.
      destruct (category_code_Some cats k1 Hk1) as (i1 & Hc1 & Hi1).
      destruct (category_code_Some cats k2 Hk2) as (i2 & Hc2 & Hi2).
      rewrite Hc1, Hc2 in H12, H21. simpl in H12, H21.
      assert (i1 = i2) as -> by lia. by simplify_eq.
    - by apply StronglySorted_filter.
    - eapply (StronglySorted_fmap _ _ (row_le cats)); [|by apply categories_sorted].
      intros a b Hab. unfold row_le. fold (key (row' a)). fold (key (row' b)).
      by rewrite !Hkey. }
  exists ((fun r => (dist_regime r, dist_days r)) <$> filter (fun r => ~ P r) rows).
  split.
  - transitivity ((fun r => (dist_regime r, dist_days r)) <$> rows); [done|].
    rewrite Hsplit at 1. rewrite fmap_app, Heq, <- list_fmap_compose.
    f_equal. apply Forall_fmap_ext, Forall_forall. intros k Hk. simpl.
    by rewrite decide_True.
  - rewrite Hnan, <- list_fmap_compose.
    apply Permutation_refl'. apply Forall_fmap_ext, Forall_forall.
    intros k Hk. apply list_elem_of_filter in Hk as [Hk _]. simpl.
    rewrite decide_False; [done|]. rewrite Hcats. tauto.
Qed.

(** C4 (counterexample): for a series in which only Transition occurs the
    table has the single row of Transition: the four other labels of the
    set have no row, so none appears with count 0. *)
Lemma distribution_omits_absent_labels :
  let table := regime_distribution Examples.only_transition true in
  (fun r => (dist_regime r, dist_days r)) <$> dist_rows table = [(Some TRANSITION, 2)] /\
  ~ (forall l, l ∈ REGIME_ORDER ->
       exists r, r ∈ dist_rows table /\ dist_regime r = Some l).
Proof.
  assert (dist_rows (regime_distribution Examples.only_transition true)
          = [mkDistRow (Some TRANSITION) 2 (10000 # 100)]) as Hrows
    by (vm_compute; reflexivity).
  intros table. subst table. rewrite Hrows. split; [reflexivity|].
  intros H. destruct (H CRISIS) as (r & Hr & Hl); [unfold REGIME_ORDER; in_list|].
  apply list_elem_of_singleton in Hr. subst r. discriminate Hl.
Qed.

(** ** The stress-window scorecard *)

(** *** Grouping by run id *)

Lemma merge_sort_sorted {A} (R : relation A) `{forall x y, Decision (R x y)}
    `{!Transitive R, !Total R, !AntiSymm (=) R} l :
  StronglySorted R l -> merge_sort R l = l.
Proof.
  intros Hl. apply (StronglySorted_unique R); [|done|apply merge_sort_Permutation].
  by apply StronglySorted_merge_sort.
Qed.

Lemma block_keys_ge {A} k0 (cs : list (list A)) k :
  k ∈ block_keys k0 cs -> k0 <= k.
Proof.
  revert k0. induction cs as [|c cs IH]; intros k0; simpl; [by intros ?%elem_of_nil|].
  rewrite elem_of_app. intros [Hk|Hk].
  - apply elem_of_replicate in Hk as [-> _]. done.
  - apply IH in Hk. lia.
Qed.

Lemma remove_dups_replicate_app (n k : nat) (l : list nat) :
  k ∉ l -> remove_dups (replicate (S n) k ++ l) = k :: remove_dups l.
Proof.
  intros Hk. induction n as [|n IH]; simpl.
  - destruct (decide_rel _ k l); [done|done].
  - simpl in IH. rewrite IH.
    destruct (decide_rel _ k (k :: replicate n k ++ l)) as [|Hn]; [done|].
    destruct Hn. apply list_elem_of_here.
Qed.

Lemma remove_dups_block_keys {A} k0 (cs : list (list A)) :
  Forall (fun c => c <> []) cs ->
  remove_dups (block_keys k0 cs) = seq k0 (length cs).
Proof.
  intros Hne. revert k0. induction Hne as [|c cs Hc _ IH]; intros k0; [done|].
  simpl. destruct c as [|x c]; [done|]. simpl length.
  rewrite remove_dups_replicate_app, IH; [done|].
  intros Hk. apply block_keys_ge in Hk. lia.
Qed.

Lemma seq_sorted k0 n : StronglySorted le (seq k0 n).
Proof.
  revert k0. induction n as [|n IH]; intros k0; simpl; constructor; [apply IH|].
  apply Forall_forall. intros k Hk. apply elem_of_seq in Hk. lia.
Qed.

Lemma keyed_fmap {A} k0 (cs : list (list A)) (f : nat -> nat * list A) :
  (forall j c, cs !! j = Some c -> f (k0 + j) = (k0 + j, c)) ->
  f <$> seq k0 (length cs) = keyed k0 cs.
Proof.
  revert k0. induction cs as [|c cs IH]; intros k0 Hf; [done|]. simpl. f_equal.
  - specialize (Hf 0 c eq_refl). by rewrite Nat.add_0_r in Hf.
  - apply IH. intros j c' Hj. specialize (Hf (S j) c' Hj).
    by replace (S k0 + j) with (k0 + S j) by lia.
Qed.

(** The rows of chunk [j] are the rows carrying key [k0 + j]. *)
Lemma filter_block_keys {A} k0 (cs : list (list A)) j c :
  cs !! j = Some c ->
  (filter (fun p : nat * A => p.1 = k0 + j) (zip (block_keys k0 cs) (concat cs))).*2 = c.
Proof.
  revert k0 j. induction cs as [|c0 cs IH]; intros k0 j Hj; [done|].
  simpl. rewrite zip_with_app by by rewrite length_replicate.
  rewrite filter_app, fmap_app.
  destruct j as [|j]; simplify_eq/=.
  - rewrite filter_all, snd_zip, (filter_none _ (zip _ _)), app_nil_r;
      [done| |by rewrite length_replicate|].
    + apply Forall_forall. intros [k x] Hkx. simpl.
      apply elem_of_zip_l, block_keys_ge in Hkx. lia.
    + apply Forall_forall. intros [k x] Hkx. simpl.
      apply elem_of_zip_l, elem_of_replicate in Hkx as [-> _]. lia.
  - rewrite (filter_none _ (zip (replicate _ _) _)); simpl.
    + replace (k0 + S j) with (S k0 + j) by lia. by apply IH.
    + apply Forall_forall. intros [k x] Hkx. simpl.
      apply elem_of_zip_l, elem_of_replicate in Hkx as [-> _]. lia.
Qed.

Lemma groupby_block_keys {A} k0 (cs : list (list A)) :
  Forall (fun c => c <> []) cs ->
  groupby (block_keys k0 cs) (concat cs) = keyed k0 cs.
Proof.
  intros Hne. unfold groupby.
  rewrite (remove_dups_block_keys k0 cs Hne).
  rewrite (merge_sort_sorted le) by apply seq_sorted.
  apply keyed_fmap. intros j c Hj. f_equal. by apply filter_block_keys.
Qed.

(** *** The runs of a column *)

Lemma runs_cons x l :
  runs (x :: l) =
  match runs l with
  | (y :: c) :: cs =>
      if bool_decide (x.2 = y.2) then (x :: y :: c) :: cs else [x] :: (y :: c) :: cs
  | _ => [[x]]
  end.
Proof. reflexivity. Qed.

Lemma runs_cons_inv x l : exists c cs, runs (x :: l) = (x :: c) :: cs.
Proof.
  simpl. destruct (runs l) as [|[|y c] cs]; eauto.
  destruct (bool_decide (x.2 = y.2)); eauto.
Qed.

Lemma concat_runs l : concat (runs l) = l.
Proof.
  induction l as [|x l IH]; [done|]. simpl.
  destruct (runs l) as [|[|y c] cs] eqn:Hr; simpl in *.
  - by rewrite <- IH.
  - destruct l as [|z l]; [done|].
    destruct (runs_cons_inv z l) as (c' & cs' & Hr'). congruence.
  - destruct (bool_decide (x.2 = y.2)); simpl; by rewrite <- IH.
Qed.

Lemma runs_alternating x l : alternating x.2 (runs (x :: l)).
Proof.
  revert x. induction l as [|y l IH]; intros x.
  - simpl. repeat split; [done|by constructor].
  - specialize (IH y). destruct (runs_cons_inv y l) as (c & cs & Hr).
    rewrite (runs_cons x (y :: l)). rewrite Hr in IH |- *.
    destruct IH as (_ & Hc & Hcs).
    destruct (bool_decide_reflect (x.2 = y.2)) as [Heq|Hne].
    + simpl. split; [done|]. split; [|by rewrite Heq].
      constructor; [done|]. by rewrite Heq.
    + simpl. split; [done|]. split; [by constructor|].
      assert (negb x.2 = y.2) as -> by (destruct (x.2), (y.2); done).
      done.
Qed.

Lemma alternating_nonempty flag cs : alternating flag cs -> Forall (fun c => c <> []) cs.
Proof.
  revert flag. induction cs as [|c cs IH]; intros flag; [constructor|].
  intros (Hc & _ & Hcs). constructor; [done|]. by eapply IH.
Qed.

Lemma runs_nonempty l : Forall (fun c => c <> []) (runs l).
Proof.
  destruct l as [|x l]; [constructor|].
  eapply alternating_nonempty, runs_alternating.
Qed.

Lemma zip_with_take_r {A B C} (f : A -> B -> C) (l : list A) (k : list B) :
  zip_with f l (take (length l) k) = zip_with f l k.
Proof.
  revert k. induction l as [|x l IH]; intros [|y k]; simpl; try done.
  by rewrite IH.
Qed.

Lemma shift_1 {A} (fill : A) s : shift 1 fill s = take (length s) (fill :: s).
Proof. reflexivity. Qed.

(** The run ids, read from left to right. *)
Lemma run_ids_runs (l : list (Z * bool)) (prev : option bool) acc x :
  cumsum_from acc
    (zip_with (fun (v : bool) (p : option bool) => bool_decide (Some v ≠ p))
              ((x :: l).*2) (prev :: (Some <$> (x :: l).*2)))
  = block_keys (acc + (if bool_decide (Some x.2 ≠ prev) then 1 else 0))
               (runs (x :: l)).
Proof.
  revert prev acc x. induction l as [|y l IH]; intros prev acc x.
  - simpl. done.
  - destruct (runs_cons_inv y l) as (c & cs & Hr).
    set (acc' := acc + (if bool_decide (Some x.2 ≠ prev) then 1 else 0)).
    change (cumsum_from acc _) with
      (acc' :: cumsum_from acc'
         (zip_with (fun (v : bool) (p : option bool) => bool_decide (Some v ≠ p))
                   ((y :: l).*2) (Some x.2 :: (Some <$> (y :: l).*2)))).
    rewrite IH. rewrite (runs_cons x (y :: l)), Hr.
    destruct (bool_decide_reflect (x.2 = y.2)) as [Heq|Hne].
    + rewrite bool_decide_eq_false_2 by (rewrite Heq; tauto).
      rewrite Nat.add_0_r. done.
    + rewrite bool_decide_eq_true_2 by congruence.
      replace (acc' + 1) with (S acc') by lia. done.
Qed.

Lemma run_id_runs (l : list (Z * bool)) : run_id l.*2 = block_keys 1 (runs l).
Proof.
  destruct l as [|x l]; [done|].
  unfold run_id. rewrite shift_1, length_fmap, zip_with_take_r.
  rewrite (run_ids_runs l None 0 x). done.
Qed.

(** The groups the loop iterates over are the maximal runs, in order. *)
Lemma max_crisis_run_runs (is_crisis : list (Z * bool)) :
  max_crisis_run is_crisis =
  foldl run_step (mkRunState 0 CNaT CNaT) (keyed 1 (runs is_crisis)).
Proof.
  unfold max_crisis_run. rewrite run_id_runs.
  rewrite <- (concat_runs is_crisis) at 2.
  by rewrite groupby_block_keys by apply runs_nonempty.
Qed.

(** *** The loop over the runs *)

Lemma alternating_constant flag cs : alternating flag cs -> Forall constant_chunk cs.
Proof.
  revert flag. induction cs as [|c cs IH]; intros flag; [constructor|].
  intros (Hc & Hf & Hcs). constructor; [|by eapply IH].
  split; [done|]. destruct c as [|p c]; [done|]. simpl.
  apply Forall_cons in Hf as [Hp Hf]. rewrite Hp.
  by constructor.
Qed.

Lemma constant_chunk_days c :
  constant_chunk c -> chunk_flag c = true ->
  length (filter (fun p : Z * bool => p.2 = true) c) = length c.
Proof.
  intros [_ Hc] Hf. rewrite Hf in Hc. by rewrite filter_all.
Qed.

(** One turn of the loop on a constant chunk: a longer crisis run replaces
    the record, anything else leaves it. *)
Lemma run_step_chunk st k c :
  constant_chunk c ->
  run_step st (k, c) =
  if chunk_flag c && (max_run_days st <? length c)%nat
  then mkRunState (length c)
         (CDate (default (0%Z, false) (head c)).1)
         (CDate (default (0%Z, false) (last c)).1)
  else st.
Proof.
  intros Hc. unfold run_step. simpl.
  destruct c as [|p c]; [by destruct Hc|].
  destruct (chunk_flag (p :: c)) eqn:Hf; simpl in Hf; rewrite Hf; simpl; [|done].
  rewrite (constant_chunk_days (p :: c) Hc Hf).
  change (length (p :: c)) with (S (length c)).
  destruct (max_run_days st <? S (length c))%nat; [|done].
  f_equal. f_equal. f_equal. destruct (last (p :: c)) eqn:Hl; [done|].
  by apply last_None in Hl.
Qed.

(** The record after the loop: unchanged when no crisis run beats it, else
    the first of the longest crisis runs. *)
Lemma fold_run_step cs k0 st :
  Forall constant_chunk cs ->
  (foldl run_step st (keyed k0 cs) = st /\
   forall c, c ∈ cs -> chunk_flag c = true -> length c <= max_run_days st) \/
  (exists j c,
     cs !! j = Some c /\ chunk_flag c = true /\
     foldl run_step st (keyed k0 cs) =
       mkRunState (length c)
         (CDate (default (0%Z, false) (head c)).1)
         (CDate (default (0%Z, false) (last c)).1) /\
     max_run_days st < length c /\
     forall j' c', cs !! j' = Some c' -> chunk_flag c' = true ->
       length c' <= length c /\ (j' < j -> length c' < length c)).
Proof.
  intros Hcs. revert k0 st.
  induction Hcs as [|c cs Hc _ IH]; intros k0 st.
  { left. split; [done|]. by intros c ?%elem_of_nil. }
  simpl. rewrite (run_step_chunk st k0 c Hc).
  destruct (chunk_flag c && (max_run_days st <? length c)%nat) eqn:Hstep.
  - apply andb_true_iff in Hstep as [Hf Hlt]. apply Nat.ltb_lt in Hlt.
    set (st1 := mkRunState _ _ _).
    destruct (IH (S k0) st1) as [[Heq Hall]|(j & c1 & Hj & Hf1 & Heq & Hlt1 & Hall)].
    + right. exists 0, c. split; [done|]. split; [done|]. split; [done|].
      split; [done|]. intros [|j'] c' Hj' Hf'; simplify_eq/=.
      * split; [done|lia].
      * split; [|lia]. apply (Hall c'); [|done]. by eapply list_elem_of_lookup_2.
    + right. exists (S j), c1. split; [done|]. split; [done|]. split; [done|].
      simpl in Hlt1. split; [lia|]. intros [|j'] c' Hj' Hf'; simplify_eq/=.
      * split; [lia|]. intros _. lia.
      * destruct (Hall j' c' Hj' Hf') as [H1 H2]. split; [done|]. intros ?. apply H2. lia.
  - assert (chunk_flag c = true -> length c <= max_run_days st) as Hle.
    { intros Hf. rewrite Hf in Hstep. simpl in Hstep.
      apply Nat.ltb_ge in Hstep. done. }
    destruct (IH (S k0) st) as [[Heq Hall]|(j & c1 & Hj & Hf1 & Heq & Hlt1 & Hall)].
    + left. split; [done|]. intros c' Hc' Hf'.
      apply elem_of_cons in Hc' as [->|Hc']; [by apply Hle|by apply Hall].
    + right. exists (S j), c1. split; [done|]. split; [done|]. split; [done|].
      split; [done|]. intros [|j'] c' Hj' Hf'; simplify_eq/=.
      * specialize (Hle Hf'). split; [lia|]. intros _. lia.
      * destruct (Hall j' c' Hj' Hf') as [H1 H2]. split; [done|]. intros ?. apply H2. lia.
Qed.

(** *** Runs and row positions *)

Lemma chunk_offset_S {A} j (c : list A) cs :
  chunk_offset (S j) (c :: cs) = length c + chunk_offset j cs.
Proof. unfold chunk_offset. simpl. by rewrite length_app. Qed.

Lemma chunk_offset_mono {A} (cs : list (list A)) j j' :
  j <= j' -> chunk_offset j cs <= chunk_offset j' cs.
Proof.
  revert j j'. induction cs as [|c cs IH]; intros j j' Hj.
  - unfold chunk_offset. by rewrite !take_nil.
  - destruct j as [|j]; [unfold chunk_offset at 1; simpl; lia|].
    destruct j' as [|j']; [lia|]. rewrite !chunk_offset_S.
    specialize (IH j j'). lia.
Qed.

(** The rows of chunk [j] sit at its offset. *)
Lemma lookup_chunk {A} (cs : list (list A)) j c i :
  cs !! j = Some c -> i < length c ->
  concat cs !! (chunk_offset j cs + i) = c !! i.
Proof.
  revert j. induction cs as [|c0 cs IH]; intros j Hj Hi; [done|].
  destruct j as [|j]; simplify_eq/=.
  - unfold chunk_offset. simpl. by rewrite lookup_app_l.
  - rewrite chunk_offset_S, lookup_app_r by lia.
    replace (length c0 + chunk_offset j cs + i - length c0)
      with (chunk_offset j cs + i) by lia.
    by apply IH.
Qed.

Lemma constant_lookup (c : list (Z * bool)) flag (rest : BoolSeries) i :
  Forall (fun p : Z * bool => p.2 = flag) c -> i < length c ->
  (c.*2 ++ rest) !! i = Some flag.
Proof.
  intros Hc Hi. rewrite lookup_app_l by by rewrite length_fmap.
  rewrite list_lookup_fmap.
  destruct (lookup_lt_is_Some_2 c i Hi) as [p Hp]. rewrite Hp. simpl.
  f_equal. rewrite Forall_forall in Hc. apply Hc. by eapply list_elem_of_lookup_2.
Qed.

Lemma alternating_first flag cs :
  alternating flag cs -> (concat cs).*2 !! 0 <> Some (negb flag).
Proof.
  destruct cs as [|c cs]; [done|]. intros (Hne & Hc & _). simpl.
  rewrite fmap_app, (constant_lookup c flag); [by destruct flag|done|].
  destruct c; [done|simpl; lia].
Qed.

Lemma alternating_flag flag c cs :
  alternating flag (c :: cs) -> chunk_flag c = flag.
Proof.
  intros (Hne & Hc & _). destruct c as [|p c]; [done|].
  by apply Forall_cons in Hc as [Hp _].
Qed.

(** Every maximal run of crisis days is a chunk of the decomposition. *)
Lemma crisis_run_chunk flag cs s len :
  alternating flag cs ->
  crisis_run (concat cs).*2 s len ->
  exists j c,
    cs !! j = Some c /\ chunk_flag c = true /\
    chunk_offset j cs = s /\ length c = len.
Proof.
  revert flag s. induction cs as [|c cs IH]; intros flag s Halt (Hlen & Hall & Hleft & Hright).
  { specialize (Hall s). simpl in Hall. rewrite lookup_nil in Hall.
    discriminate Hall. lia. }
  pose proof Halt as (Hne & Hc & Hcs).
  pose proof (alternating_flag _ _ _ Halt) as Hflag.
  simpl concat in *. rewrite fmap_app in *.
  destruct (decide (s < length c)) as [Hs|Hs].
  - assert (flag = true) as ->.
    { specialize (Hall s). rewrite (constant_lookup c flag) in Hall by done.
      assert (Some flag = Some true) as [= ->] by (apply Hall; lia). done. }
    assert (s = 0) as ->.
    { destruct s as [|i]; [done|]. specialize (Hleft i eq_refl).
      rewrite (constant_lookup c true) in Hleft by (done || lia). done. }
    assert (len = length c) as ->.
    { destruct (decide (len < length c)) as [Hl|Hl].
      { simpl in Hright. by rewrite (constant_lookup c true) in Hright. }
      destruct (decide (length c < len)) as [Hg|Hg]; [|lia].
      specialize (Hall (length c)).
      rewrite lookup_app_r in Hall by by rewrite length_fmap.
      rewrite length_fmap, Nat.sub_diag in Hall.
      destruct (alternating_first _ _ Hcs). apply Hall. lia. }
    exists 0, c. done.
  - destruct (IH (negb flag) (s - length c) Hcs) as (j & c0 & Hj & Hf0 & Ho & Hl0).
    { split; [done|]. split; [|split].
      + intros i Hi. specialize (Hall (length c + i)).
        rewrite lookup_app_r in Hall by (rewrite length_fmap; lia).
        rewrite length_fmap in Hall.
        replace (length c + i - length c) with i in Hall by lia.
        apply Hall. lia.
      + intros i Hi. specialize (Hleft (length c + i)).
        rewrite lookup_app_r in Hleft by (rewrite length_fmap; lia).
        rewrite length_fmap in Hleft.
        replace (length c + i - length c) with i in Hleft by lia.
        apply Hleft. lia.
      + rewrite lookup_app_r in Hright by (rewrite length_fmap; lia).
        rewrite length_fmap in Hright.
        by replace (s + len - length c) with (s - length c + len) in Hright by lia. }
    exists (S j), c0. split; [done|]. split; [done|].
    rewrite chunk_offset_S. split; [lia|done].
Qed.

(** Every chunk of crisis days is a maximal run of crisis days. *)
Lemma chunk_crisis_run flag cs j c :
  alternating flag cs ->
  cs !! j = Some c -> chunk_flag c = true ->
  crisis_run (concat cs).*2 (chunk_offset j cs) (length c).
Proof.
  revert flag j. induction cs as [|c0 cs IH]; intros flag j Halt Hj Hf; [done|].
  pose proof Halt as (Hne & Hc & Hcs).
  pose proof (alternating_flag _ _ _ Halt) as Hflag.
  simpl concat. rewrite fmap_app.
  destruct j as [|j]; simplify_eq/=.
  - unfold chunk_offset. simpl. split; [destruct c; [done|simpl; lia]|].
    rewrite Hf in Hc. split; [|split].
    + intros i Hi. apply constant_lookup; [done|lia].
    + intros i Hi. lia.
    + rewrite lookup_app_r by by rewrite length_fmap.
      rewrite length_fmap, Nat.sub_diag.
      rewrite Hf in Hcs. apply (alternating_first _ _ Hcs).
  - destruct (IH (negb (chunk_flag c0)) j Hcs Hj Hf) as (Hlen & Hall & Hleft & Hright).
    rewrite chunk_offset_S. split; [done|]. split; [|split].
    + intros i Hi. rewrite lookup_app_r by (rewrite length_fmap; lia).
      rewrite length_fmap. apply Hall. lia.
    + intros i Hi.
      destruct (decide (chunk_offset j cs = 0)) as [Hz|Hz].
      * assert (chunk_flag c0 = false) as Hfalse.
        { specialize (Hall 0). rewrite Hz in Hall.
          destruct (chunk_flag c0) eqn:Hc0; [|done].
          destruct (alternating_first _ _ Hcs). apply Hall. lia. }
        rewrite Hfalse in Hc. apply constant_lookup; [done|lia].
      * rewrite lookup_app_r by (rewrite length_fmap; lia).
        rewrite length_fmap. apply Hleft. lia.
    + rewrite lookup_app_r by (rewrite length_fmap; lia).
      rewrite length_fmap.
      by replace (length c0 + chunk_offset j cs + length c - length c0)
        with (chunk_offset j cs + length c) by lia.
Qed.

(** *** The longest crisis run *)

(** The record of the longest run: no crisis day and the initial record,
    or the length and the first and last date of a maximal crisis run that
    no other crisis run exceeds and no equally long crisis run precedes. *)
Lemma max_crisis_run_spec (is_crisis : list (Z * bool)) :
  ((true ∉ is_crisis.*2) /\ max_crisis_run is_crisis = mkRunState 0 CNaT CNaT) \/
  (exists s len ds de,
     crisis_run is_crisis.*2 s len /\
     is_crisis.*1 !! s = Some ds /\
     is_crisis.*1 !! (s + len - 1) = Some de /\
     max_crisis_run is_crisis = mkRunState len (CDate ds) (CDate de) /\
     forall s' len', crisis_run is_crisis.*2 s' len' ->
       len' <= len /\ (len' = len -> s <= s')).
Proof.
  rewrite max_crisis_run_runs.
  destruct is_crisis as [|x l]; [left; split; [by intros ?%elem_of_nil|done]|].
  pose proof (runs_alternating x l) as Halt.
  pose proof (concat_runs (x :: l)) as Hcat.
  set (cs := runs (x :: l)) in *.
  pose proof (alternating_constant _ _ Halt) as Hconst.
  destruct (fold_run_step cs 1 (mkRunState 0 CNaT CNaT) Hconst)
    as [[Heq Hall]|(j & c & Hj & Hf & Heq & Hlt & Hall)].
  - left. split; [|done]. intros Hin.
    apply list_elem_of_fmap in Hin as ([d v] & Hv & Hin). simpl in Hv. subst v.
    rewrite <- Hcat in Hin. apply list_elem_of_In, in_concat in Hin as (c & Hc & Hin).
    apply list_elem_of_In in Hc, Hin.
    rewrite Forall_forall in Hconst. destruct (Hconst c Hc) as [Hne Hcc].
    rewrite Forall_forall in Hcc. specialize (Hcc _ Hin). simpl in Hcc.
    specialize (Hall c Hc (eq_sym Hcc)). simpl in Hall.
    destruct c; [done|simpl in Hall; lia].
  - right.
    rewrite Forall_forall in Hconst.
    destruct (Hconst c (list_elem_of_lookup_2 _ _ _ Hj)) as [Hne _].
    destruct c as [|p c']; [done|]. set (c := p :: c') in *.
    exists (chunk_offset j cs), (length c).
    exists p.1, (default (0%Z, false) (last c)).1.
    split; [rewrite <- Hcat; by eapply chunk_crisis_run|].
    split; [|split; [|split; [done|]]].
    + rewrite list_lookup_fmap, <- Hcat.
      rewrite <- (Nat.add_0_r (chunk_offset j cs)).
      rewrite (lookup_chunk cs j c 0 Hj) by (simpl; lia). done.
    + rewrite list_lookup_fmap, <- Hcat.
      replace (chunk_offset j cs + length c - 1)
        with (chunk_offset j cs + (length c - 1)) by (simpl; lia).
      rewrite (lookup_chunk cs j c _ Hj) by (simpl; lia).
      rewrite last_lookup.
      replace (pred (length c)) with (length c - 1) by lia.
      destruct (lookup_lt_is_Some_2 c (length c - 1)) as [q ->]; [simpl; lia|done].
    + intros s' len' Hrun. rewrite <- Hcat in Hrun.
      destruct (crisis_run_chunk _ _ _ _ Halt Hrun) as (j' & c1 & Hj' & Hf' & <- & <-).
      destruct (Hall j' c1 Hj' Hf') as [Hle Hfirst]. split; [done|].
      intros Hsame. apply chunk_offset_mono.
      destruct (decide (j' < j)) as [Hlt'|]; [|lia]. specialize (Hfirst Hlt'). lia.
Qed.

(** *** The record of an episode *)

Lemma select_mask_fmap {A} (f : A -> bool) (l : list A) :
  select_mask (f <$> l) l = filter (fun x => f x = true) l.
Proof.
  unfold select_mask. induction l as [|x l IH]; [done|].
  csimpl. rewrite !filter_cons. simpl.
  destruct (f x) eqn:Hf.
  - rewrite !decide_True by done. csimpl. by rewrite IH.
  - rewrite !decide_False by done. done.
Qed.

(** The rows of the label column inside an episode window. *)
Lemma window_rows (reg : list (Z * string)) w :
  select_mask
    ((fun p : Z * string => (w_start w <=? p.1)%Z && (p.1 <=? w_end w)%Z) <$> reg) reg
  = filter (fun p : Z * string => (w_start w <= p.1 <= w_end w)%Z) reg.
Proof.
  rewrite select_mask_fmap. apply list_filter_iff. intros p.
  rewrite andb_true_iff, !Z.leb_le. reflexivity.
Qed.

Lemma dict_get_set_ne k k' v d :
  k <> k' -> dict_get k (dict_set k' v d) = dict_get k d.
Proof.
  intros Hne. induction d as [|[k0 v0] d IH]; simpl.
  - by rewrite decide_False.
  - destruct (decide (k0 = k')) as [->|Hk0]; simpl.
    + by rewrite !decide_False.
    + destruct (decide (k0 = k)); [done|apply IH].
Qed.

(** Writing the score shares leaves the other keys of a record alone. *)
Lemma dict_get_shares k (f : Z -> cell) thresholds (row : dict) :
  (forall st, k <> share_key st) ->
  dict_get k (foldl (fun (r : dict) (st : Z) => dict_set (share_key st) (f st) r)
                    row thresholds)
  = dict_get k row.
Proof.
  intros Hk. revert row. induction thresholds as [|st ths IH]; intros row; [done|].
  simpl. rewrite IH. by apply dict_get_set_ne.
Qed.

(** C8: within an episode window the scorecard reports a maximal run of
    consecutive crisis days that no other crisis run of the window exceeds
    in length, and among the crisis runs of that greatest length the one
    that starts first: its length, its first date and its last date.  A
    window without a crisis day reports length 0 and no dates. *)
Theorem longest_crisis_run_first reg target ros thresholds w :
  let sub := filter (fun p : Z * string => (w_start w <= p.1 <= w_end w)%Z) reg in
  let is_crisis := (fun p : Z * string => bool_decide (p.2 = target)) <$> sub in
  let row := scorecard_row reg target ros thresholds w in
  ((true ∉ is_crisis) /\
   dict_get "max_crisis_run_days" row = Some (CInt 0) /\
   dict_get "max_crisis_run_start" row = Some CNaT /\
   dict_get "max_crisis_run_end" row = Some CNaT) \/
  (exists s len ds de,
     crisis_run is_crisis s len /\
     sub.*1 !! s = Some ds /\
     sub.*1 !! (s + len - 1) = Some de /\
     dict_get "max_crisis_run_days" row = Some (CInt (Z.of_nat len)) /\
     dict_get "max_crisis_run_start" row = Some (CDate ds) /\
     dict_get "max_crisis_run_end" row = Some (CDate de) /\
     forall s' len', crisis_run is_crisis s' len' ->
       len' <= len /\ (len' = len -> s <= s')).
Proof.
  intros sub is_crisis row. unfold row, scorecard_row.
  rewrite window_rows. fold sub.
  destruct (length sub =? 0)%nat eqn:Hn.
  { left. apply Nat.eqb_eq, nil_length_inv in Hn.
    unfold is_crisis. rewrite Hn. split; [by intros ?%elem_of_nil|done]. }
  set (ic := (fun p : Z * string => (p.1, bool_decide (p.2 = target))) <$> sub).
  assert (ic.*2 = is_crisis) as Hb.
  { unfold ic, is_crisis. rewrite <- list_fmap_compose. done. }
  assert (ic.*1 = sub.*1) as Hd.
  { unfold ic. rewrite <- list_fmap_compose. done. }
  set (out_row := [("episode", _); _; _; _; _; _; _; _; _]).
  assert (forall k, (forall st, k <> share_key st) ->
            dict_get k match ros with
                       | Some ros0 =>
                           foldl (fun (r : dict) (st : Z) =>
                                    dict_set (share_key st)
                                      (bool_mean (ge_scalar
                                         (select_mask
                                            ((fun p : Z * string =>
                                                (w_start w <=? p.1)%Z && (p.1 <=? w_end w)%Z)
                                               <$> reg) ros0)
                                         (inject_Z st))) r)
                                 out_row thresholds
                       | None => out_row
                       end = dict_get k out_row) as Hget.
  { intros k Hk. destruct ros; [|done]. by apply dict_get_shares. }
  rewrite !Hget by (intros st; unfold share_key; simpl; discriminate).
  destruct (max_crisis_run_spec ic)
    as [[Hno Heq]|(s & len & ds & de & Hrun & Hds & Hde & Heq & Hmax)];
    rewrite Hb in *; rewrite ?Hd in *.
  - left. split; [done|]. unfold out_row. simpl. by rewrite Heq.
  - right. exists s, len, ds, de. do 3 (split; [done|]).
    unfold out_row. simpl. rewrite Heq. simpl. done.
Qed.

Example tie_break_reports_earlier_run :
  scorecard_rows Examples.labels7 [Examples.episode_inside] CRISIS None [2; 3]%Z
  = [ [ ("episode", CStr "inside"); ("start", CDate 1); ("end", CDate 7);
        ("n_obs", CInt 7); ("crisis_share", CFloat (5 # 7));
        ("first_crisis_date", CDate 1); ("max_crisis_run_days", CInt 2);
        ("max_crisis_run_start", CDate 1); ("max_crisis_run_end", CDate 2) ] ].
Proof. vm_compute. reflexivity. Qed.

(** A cell of the assembled frame: the value of the record under the
    column's key, NaN when the record lacks the key. *)
Lemma frame_of_records_cell (rows : list dict) i r c :
  rows !! i = Some r ->
  c ∈ tb_columns (frame_of_records rows) ->
  table_cell (frame_of_records rows) i c = Some (default CNaN (dict_get c r)).
Proof.
  intros Hr Hc. unfold table_cell. simpl.
  rewrite list_lookup_fmap, Hr. simpl.
  set (columns := unique_from [] _) in *.
  destruct (list_find_elem_of (fun name => name = c) columns c Hc eq_refl)
    as [[j x] Hf].
  rewrite Hf. simpl. apply list_find_Some in Hf as (Hj & -> & _).
  by rewrite list_lookup_fmap, Hj.
Qed.

Lemma dict_get_None k (d : dict) : k ∉ d.*1 -> dict_get k d = None.
Proof.
  induction d as [|[k0 v0] d IH]; [done|]. simpl. intros Hk.
  rewrite not_elem_of_cons in Hk. destruct Hk as [Hne Hk].
  rewrite decide_False by done. by apply IH.
Qed.

(** C5 (amended): an episode window that overlaps no date of the label
    series yields a record with observation count 0 and longest-crisis-run
    length 0, while crisis share, first crisis date and the start and end
    date of the longest run are missing; the record carries no score share,
    so every other column of the assembled table (the score-threshold
    shares) is NaN in its row. *)
Theorem empty_window_record regimes windows target risk_off_score score_threshold i w :
  windows !! i = Some w ->
  Forall (fun p : Z * option string => ~ (w_start w <= p.1 <= w_end w)%Z) regimes ->
  let rows := scorecard_rows regimes windows target risk_off_score score_threshold in
  rows !! i =
    Some [ ("episode", CStr (w_episode w)); ("start", CDate (w_start w));
           ("end", CDate (w_end w)); ("n_obs", CInt 0); ("crisis_share", CNaN);
           ("first_crisis_date", CNaT); ("max_crisis_run_days", CInt 0);
           ("max_crisis_run_start", CNaT); ("max_crisis_run_end", CNaT) ] /\
  forall c, c ∈ tb_columns (frame_of_records rows) -> c ∉ record_keys ->
    table_cell (frame_of_records rows) i c = Some CNaN.
Proof.
  intros Hw Hout rows.
  assert (rows !! i =
    Some [ ("episode", CStr (w_episode w)); ("start", CDate (w_start w));
           ("end", CDate (w_end w)); ("n_obs", CInt 0); ("crisis_share", CNaN);
           ("first_crisis_date", CNaT); ("max_crisis_run_days", CInt 0);
           ("max_crisis_run_start", CNaT); ("max_crisis_run_end", CNaT) ]) as Hrow.
  { unfold rows, scorecard_rows. rewrite list_lookup_fmap, Hw. simpl. f_equal.
    unfold scorecard_row. rewrite window_rows.
    rewrite filter_none; [done|].
    unfold _normalize_regime. apply Forall_fmap.
    eapply Forall_impl; [exact Hout|]. done. }
  split; [exact Hrow|]. intros c Hc Hnot.
  rewrite (frame_of_records_cell rows i _ c Hrow Hc).
  by rewrite dict_get_None.
Qed.

Lemma empty_window_record_witness :
  [Examples.episode_inside; Examples.episode_outside] !! 1 = Some Examples.episode_outside /\
  Forall (fun p : Z * option string =>
            ~ (w_start Examples.episode_outside <= p.1 <= w_end Examples.episode_outside)%Z)
         Examples.labels7 /\
  let rows := scorecard_rows Examples.labels7
                [Examples.episode_inside; Examples.episode_outside] CRISIS
                (Some Examples.scores7) [2; 3]%Z in
  rows !! 1 =
    Some [ ("episode", CStr "outside"); ("start", CDate 20);
           ("end", CDate 30); ("n_obs", CInt 0); ("crisis_share", CNaN);
           ("first_crisis_date", CNaT); ("max_crisis_run_days", CInt 0);
           ("max_crisis_run_start", CNaT); ("max_crisis_run_end", CNaT) ] /\
  forall c, c ∈ tb_columns (frame_of_records rows) -> c ∉ record_keys ->
    table_cell (frame_of_records rows) 1 c = Some CNaN.
Proof.
  assert (Forall (fun p : Z * option string =>
            ~ (w_start Examples.episode_outside <= p.1 <= w_end Examples.episode_outside)%Z)
         Examples.labels7) as Hout.
  { unfold Examples.labels7. repeat constructor; simpl; lia. }
  split; [reflexivity|]. split; [exact Hout|].
  apply (empty_window_record Examples.labels7
           [Examples.episode_inside; Examples.episode_outside] CRISIS
           (Some Examples.scores7) [2; 3]%Z
           1 Examples.episode_outside); [reflexivity | exact Hout].
Defined.

(** C5 (counterexample): for an episode that overlaps no date of the
    series, the longest-crisis-run length is the number 0, in the record
    and in the returned table, not a missing value. *)
Lemma empty_window_run_length_is_zero :
  let rows := scorecard_rows Examples.labels7 [Examples.episode_outside] CRISIS None
                [2; 3]%Z in
  let table := stress_window_scorecard Examples.labels7 [Examples.episode_outside]
                 CRISIS None [2; 3]%Z in
  (exists r, rows !! 0 = Some r /\ dict_get "n_obs" r = Some (CInt 0) /\
             dict_get "max_crisis_run_days" r = Some (CInt 0)) /\
  table_cell table 0 "Observations (d)" = Some (CInt 0) /\
  table_cell table 0 "Max Crisis Run (d)" = Some (CInt 0) /\
  table_cell table 0 "Max Crisis Run (d)" <> Some CNaN.
Proof.
  split; [eexists; split; [vm_compute; reflexivity|split; reflexivity]|].
  split; [vm_compute; reflexivity|]. split; [vm_compute; reflexivity|].
  vm_compute. discriminate.
Qed.

(** The returned table on a series with two episodes, one of them outside
    the dates of the series: the kept columns, with the run length of the
    earlier of the two longest crisis runs. *)
Example returned_scorecard :
  stress_window_scorecard Examples.labels7
    [Examples.episode_inside; Examples.episode_outside] CRISIS
    (Some Examples.scores7) [2; 3]%Z
  = mkTable
      [ "Episode"; "Start Date"; "End Date"; "Observations (d)"; "Crisis Days (%)";
        "First Crisis Date"; "Max Crisis Run (d)"; "Score ≥ 2 (%)"; "Score ≥ 3 (%)" ]
      [ [ CStr "inside"; CDate 1; CDate 7; CInt 7; CFloat (5 # 7); CDate 1; CInt 2;
          CFloat (2 # 7); CFloat (1 # 7) ];
        [ CStr "outside"; CDate 20; CDate 30; CInt 0; CNaN; CNaT; CInt 0; CNaN; CNaN ] ].
Proof. vm_compute. reflexivity. Qed.

(** * Further properties *)

(** ** The classifier *)

Lemma lookup_test (test : Q -> bool) (s : Series) t x :
  s !! t = Some x -> cmp_scalar test s !! t = Some (test_cell test x).
Proof. intros H. by rewrite lookup_cmp_scalar, H. Qed.

Lemma lookup_band a b t x y :
  a !! t = Some x -> b !! t = Some y -> band a b !! t = Some (x && y).
Proof. intros Ha Hb. unfold band. by rewrite lookup_zip_with, Ha, Hb. Qed.

Lemma lookup_bor a b t x y :
  a !! t = Some x -> b !! t = Some y -> bor a b !! t = Some (x || y).
Proof. intros Ha Hb. unfold bor. by rewrite lookup_zip_with, Ha, Hb. Qed.

Lemma lookup_bnot a t x : a !! t = Some x -> bnot a !! t = Some (negb x).
Proof. intros Ha. unfold bnot. by rewrite list_lookup_fmap, Ha. Qed.

Lemma lookup_series_abs (s : Series) t x :
  s !! t = Some x -> series_abs s !! t = Some (Qabs <$> x).
Proof. intros H. unfold series_abs. by rewrite list_lookup_fmap, H. Qed.

Lemma lookup_loc_set_Some mask label regime t m x :
  mask !! t = Some m -> regime !! t = Some x ->
  loc_set mask label regime !! t = Some (if m : bool then Some label else x).
Proof. intros Hm Hx. by rewrite lookup_loc_set, Hm, Hx. Qed.

(** The assigned column on row [t], from the cells of that row. *)
Lemma assign_regimes_day df pre t :
  wf_frame df -> assign_regimes df = Ok pre -> t < length (df_index df) ->
  exists d, day_inputs df t = Some d /\ pre !! t = Some (day_assigned d).
Proof.
  intros Hwf H Ht. revert H. unfold assign_regimes. intros H. inv_getcols H.
  use_wf Hwf.
  repeat match goal with
  | Hl : length ?s = length (df_index df) |- _ =>
      let x := fresh "x" in
      let Hx := fresh "Hx" in
      destruct (lookup_lt_is_Some_2 s t) as [x Hx]; [by rewrite Hl|]; clear Hl
  end.
  assert (has_column df "risk_off_score" = true) as Hhc
    by (apply has_column_true; eauto).
  rewrite Hhc in H. injection H as <-.
  eexists (mkDayInputs _ _ _ _ _ _ _ _). split.
  - unfold day_inputs, cell_at.
    repeat match goal with
    | Hs : df_columns df !! _ = Some _ |- _ => rewrite Hs; clear Hs; simpl
    end.
    repeat match goal with
    | Hx : _ !! t = Some _ |- _ => rewrite Hx; clear Hx; simpl
    end.
    reflexivity.
  - unfold day_assigned, day_override, day_crisis, day_pivot, day_late_cycle,
      day_expansion. simpl.
    repeat first
      [ eapply lookup_loc_set_Some | eapply lookup_band | eapply lookup_bor
      | eapply lookup_bnot
      | eapply lookup_test | eapply lookup_series_abs | eassumption
      | apply lookup_replicate_2; exact Ht ].
Qed.
Lemma day_inputs_cells df t d :
  day_inputs df t = Some d ->
  cell_at df "credit_z_1y" t = Some (day_credit_z_1y d) /\
  cell_at df "vix_level" t = Some (day_vix_level d).
Proof.
  unfold day_inputs. intros H.
  repeat match type of H with
  | (cell_at ?df ?c ?t ≫= _) = Some _ =>
      let x := fresh "x" in
      destruct (cell_at df c t) as [x|]; simpl in H; [|discriminate]
  end.
  by simplify_eq.
Qed.

Lemma cell_at_lookup df c s t :
  df_columns df !! c = Some s -> cell_at df c t = s !! t.
Proof. intros H. unfold cell_at. by rewrite H. Qed.

Lemma rule_based_regime_assigned df labels :
  forallb (has_column df) required = true ->
  rule_based_regime df = Ok labels ->
  exists pre, assign_regimes df = Ok pre.
Proof.
  intros Hreq H. destruct (assign_regimes df) as [pre|e] eqn:Hpre; [eauto|].
  by rewrite (rule_based_regime_raises _ _ Hreq Hpre) in H.
Qed.

(** The returned label on row [t], from rows [t] and [t - 1]. *)
Lemma rule_based_regime_day df labels t :
  wf_frame df ->
  forallb (has_column df) required = true ->
  rule_based_regime df = Ok labels ->
  t < length (df_index df) ->
  exists d,
    day_inputs df t = Some d /\
    labels !! t = Some (Some (day_label (previous_day df t) d)).
Proof.
  intros Hwf Hreq Hl Ht.
  destruct (rule_based_regime_assigned _ _ Hreq Hl) as [pre Hpre].
  destruct (assign_regimes_day _ _ t Hwf Hpre Ht) as (d & Hd & Hx).
  exists d. split; [done|].
  destruct (rule_based_regime_persistence _ _ Hpre) as (cz & vx & Hcz & Hvx & _).
  destruct (day_inputs_cells _ _ _ Hd) as [Hdz Hdv].
  rewrite (cell_at_lookup _ _ _ _ Hcz) in Hdz.
  rewrite (cell_at_lookup _ _ _ _ Hvx) in Hdv.
  pose proof (assign_regimes_length _ _ Hwf Hpre) as Hlen.
  assert (exit_crisis cz vx !! t = Some (day_exit d)) as He.
  { unfold exit_crisis, day_exit. apply lookup_band; by apply lookup_test. }
  assert (shift 1 false (label_eq pre CRISIS) !! t
          = Some (day_carried (previous_day df t))) as Hc.
  { destruct t as [|t']; simpl.
    - destruct pre; [simpl in Hlen; lia|]. reflexivity.
    - destruct (assign_regimes_day _ _ t' Hwf Hpre) as (d' & Hd' & Hx'); [lia|].
      rewrite Hd'. simpl. apply carried_next.
      + unfold label_eq. by rewrite list_lookup_fmap, Hx'.
      + apply lookup_lt_is_Some_2. solve_len. }
  destruct (final_label _ _ _ _ _ _ _ _ Hwf Hpre Hcz Hvx Hx He Hc)
    as (labels' & Hl' & Hfin).
  rewrite Hl in Hl'. by simplify_eq.
Qed.

(** X3: with the required columns present, the label returned for a date
    is a function of that date's row and the row before: crisis when the
    row before meets the override or the crisis rule and today's exit
    condition fails; otherwise the first that holds of override or crisis
    rule (crisis), pivot rule, late-cycle rule, expansion rule; otherwise
    "Transition".  A comparison with a missing value counts as false. *)
Theorem label_from_day_and_day_before df labels t :
  wf_frame df ->
  forallb (has_column df) required = true ->
  rule_based_regime df = Ok labels ->
  t < length (df_index df) ->
  exists d,
    day_inputs df t = Some d /\
    labels !! t = Some (Some (day_label (previous_day df t) d)).
Proof. apply rule_based_regime_day. Qed.

Lemma label_from_day_and_day_before_witness :
  wf_frame Examples.crisis_onset /\
  forallb (has_column Examples.crisis_onset) required = true /\
  rule_based_regime Examples.crisis_onset
    = Ok [Some CRISIS; Some CRISIS; Some TRANSITION] /\
  1 < length (df_index Examples.crisis_onset) /\
  exists d,
    day_inputs Examples.crisis_onset 1 = Some d /\
    [Some CRISIS; Some CRISIS; Some TRANSITION] !! 1
    = Some (Some (day_label (previous_day Examples.crisis_onset 1) d)).
Proof.
  assert (wf_frame Examples.crisis_onset) as Hwf
    by (apply (bool_decide_unpack _); vm_compute; exact I).
  assert (rule_based_regime Examples.crisis_onset
          = Ok [Some CRISIS; Some CRISIS; Some TRANSITION]) as Hl
    by (vm_compute; reflexivity).
  split; [exact Hwf|]. split; [reflexivity|]. split; [exact Hl|].
  split; [simpl; lia|].
  apply (label_from_day_and_day_before Examples.crisis_onset _ 1 Hwf);
    [reflexivity | exact Hl | simpl; lia].
Defined.

(** *** The classifier reads no later row *)

Lemma has_column_agree p a b c :
  frames_agree p a b -> has_column a c = has_column b c.
Proof.
  intros H. destruct (frames_agree_lookup _ _ _ c H) as [[Ha Hb]|(s1 & s2 & Ha & Hb & _)].
  - by rewrite (proj2 (has_column_false _ _) Ha), (proj2 (has_column_false _ _) Hb).
  - rewrite (proj2 (has_column_true a c)), (proj2 (has_column_true b c)); eauto.
Qed.

Lemma getcol_agree p a b c :
  frames_agree p a b -> result_rel (series_agree p) (getcol a c) (getcol b c).
Proof.
  intros H. unfold getcol.
  destruct (frames_agree_lookup _ _ _ c H) as [[-> ->]|(s1 & s2 & -> & -> & Hs)]; done.
Qed.

Ltac agree_tac :=
  unfold exit_crisis, band, bor, bnot, lt_scalar, le_scalar, gt_scalar, ge_scalar,
    cmp_scalar, series_abs, loc_set, label_eq, fillna;
  repeat first
    [ assumption
    | apply series_agree_refl
    | apply series_agree_zip_with
    | apply series_agree_fmap ].

Lemma assign_regimes_agree p a b :
  frames_agree p a b ->
  result_rel (series_agree p) (assign_regimes a) (assign_regimes b).
Proof.
  intros H. unfold assign_regimes.
  rewrite (has_column_agree _ _ _ "risk_off_score" H).
  destruct H as [Hidx Hcols]. rewrite Hidx.
  assert (frames_agree p a b) as H by done.
  repeat (eapply result_rel_bind; [by apply getcol_agree|]; intros ?? ?).
  destruct (has_column b "risk_off_score"); simpl; agree_tac.
Qed.

Lemma rule_based_regime_agree p a b :
  frames_agree p a b ->
  result_rel (series_agree p) (rule_based_regime a) (rule_based_regime b).
Proof.
  intros H. unfold rule_based_regime.
  assert (forallb (has_column a) required = forallb (has_column b) required) as ->.
  { unfold required. simpl. by rewrite !(has_column_agree _ _ _ _ H). }
  destruct (forallb (has_column b) required); simpl.
  - eapply result_rel_bind; [by apply assign_regimes_agree|]. intros pre1 pre2 Hpre.
    repeat (eapply result_rel_bind; [by apply getcol_agree|]; intros ?? ?).
    simpl.
    assert (series_agree p (shift 1 false (label_eq pre1 CRISIS))
              (shift 1 false (label_eq pre2 CRISIS))) as Hsh.
    { apply (series_agree_mono (p + 1)); [lia|]. apply series_agree_shift. agree_tac. }
    agree_tac.
  - destruct H as [-> _]. apply series_agree_refl.
Qed.

(** *** When the classifier returns *)

(** X1: when any of the six required columns is absent, [rule_based_regime]
    raises nothing, whatever else the table holds or lacks: it returns one
    "Transition" label per date. *)
Theorem missing_required_column_gives_transition df c :
  c ∈ required -> has_column df c = false ->
  rule_based_regime df = Ok (replicate (length (df_index df)) (Some TRANSITION)).
Proof.
  intros Hc Hno. apply rule_based_regime_early_return.
  destruct (forallb (has_column df) required) eqn:Hreq; [|done].
  apply forallb_has_column in Hreq. rewrite Forall_forall in Hreq.
  specialize (Hreq c Hc). congruence.
Qed.

Lemma missing_required_column_gives_transition_witness :
  "vix_level" ∈ required /\ has_column Examples.raw "vix_level" = false /\
  rule_based_regime Examples.raw
  = Ok (replicate (length (df_index Examples.raw)) (Some TRANSITION)).
Proof.
  assert ("vix_level" ∈ required) as Hc by in_list.
  split; [exact Hc|]. split; [reflexivity|].
  apply (missing_required_column_gives_transition Examples.raw "vix_level" Hc).
  reflexivity.
Defined.


(** X4: on a table whose columns all have one cell per date, the returned
    label series has one label per date. *)
Theorem one_label_per_date df labels :
  wf_frame df -> rule_based_regime df = Ok labels ->
  length labels = length (df_index df).
Proof.
  intros Hwf H.
  destruct (forallb (has_column df) required) eqn:Hreq.
  - destruct (rule_based_regime_assigned _ _ Hreq H) as [pre Hpre].
    destruct (rule_based_regime_persistence _ _ Hpre) as (cz & vx & Hcz & Hvx & Heq).
    pose proof (assign_regimes_length _ _ Hwf Hpre) as Hlen.
    use_wf Hwf. rewrite Heq in H. injection H as <-. solve_len.
  - rewrite (rule_based_regime_early_return _ Hreq) in H. injection H as <-.
    by rewrite length_replicate.
Qed.

Lemma one_label_per_date_witness :
  wf_frame Examples.crisis_onset /\
  rule_based_regime Examples.crisis_onset
    = Ok [Some CRISIS; Some CRISIS; Some TRANSITION] /\
  length [Some CRISIS; Some CRISIS; Some TRANSITION]
    = length (df_index Examples.crisis_onset).
Proof.
  assert (wf_frame Examples.crisis_onset) as Hwf
    by (apply (bool_decide_unpack _); vm_compute; exact I).
  assert (rule_based_regime Examples.crisis_onset
          = Ok [Some CRISIS; Some CRISIS; Some TRANSITION]) as Hl
    by (vm_compute; reflexivity).
  split; [exact Hwf|]. split; [exact Hl|].
  apply (one_label_per_date Examples.crisis_onset _ Hwf Hl).
Defined.

(** X5: the classifier reads no later row: on two tables over the same
    dates and columns that agree on every row up to row [t], it ends alike
    (the same exception, or two label series) and the labels of every date
    up to row [t] are the same. *)
Theorem classifier_reads_no_later_row (t : nat) a b :
  frames_agree (Z.of_nat t) a b ->
  result_rel (series_agree (Z.of_nat t)) (rule_based_regime a) (rule_based_regime b).
Proof. apply rule_based_regime_agree. Qed.

Lemma classifier_reads_no_later_row_witness :
  frames_agree (Z.of_nat 1) Examples.crisis_onset
    (setcol "vix_level" [Some 25; Some 25; Some 10]%Q Examples.crisis_onset) /\
  result_rel (series_agree (Z.of_nat 1))
    (rule_based_regime Examples.crisis_onset)
    (rule_based_regime
       (setcol "vix_level" [Some 25; Some 25; Some 10]%Q Examples.crisis_onset)).
Proof.
  assert (frames_agree (Z.of_nat 1) Examples.crisis_onset
            (setcol "vix_level" [Some 25; Some 25; Some 10]%Q Examples.crisis_onset))
    as H.
  { apply (frames_agree_alter _ _ _ [Some 25; Some 25; Some 25]%Q); [reflexivity|].
    split; [reflexivity|].
    intros [|[|i]] Hi; try reflexivity. lia. }
  split; [exact H|].
  apply (classifier_reads_no_later_row 1 _ _ H).
Defined.

(** ** The feature table *)

(** *** Dates, columns and lengths *)

Lemma frame_extends_refl a : frame_extends a a.
Proof. by repeat split. Qed.

Lemma frame_extends_trans a b c :
  frame_extends a b -> frame_extends b c -> frame_extends a c.
Proof.
  intros (Hi1 & Hc1 & Hw1) (Hi2 & Hc2 & Hw2). repeat split.
  - congruence.
  - eauto.
  - eauto.
Qed.

Lemma has_column_setcol c s df c' :
  has_column (setcol c s df) c' = true <-> c' = c \/ has_column df c' = true.
Proof.
  rewrite !has_column_true. unfold setcol. simpl.
  destruct (decide (c' = c)) as [->|Hne].
  - rewrite lookup_insert_eq. split; eauto.
  - rewrite lookup_insert_ne by done. split; [eauto|]. by intros [?|?].
Qed.

Lemma wf_frame_setcol c s df :
  wf_frame df -> length s = length (df_index df) -> wf_frame (setcol c s df).
Proof.
  unfold wf_frame, setcol. simpl. intros Hwf Hs. by apply map_Forall_insert_2.
Qed.

Lemma frame_extends_setcol c s df :
  (wf_frame df -> length s = length (df_index df)) ->
  frame_extends df (setcol c s df).
Proof.
  intros Hs. repeat split.
  - intros c' Hc'. apply has_column_setcol. by right.
  - intros Hwf. apply wf_frame_setcol; auto.
Qed.

Lemma frame_extends_shift k df : frame_extends df (frame_shift k df).
Proof.
  repeat split.
  - intros c. rewrite !has_column_true. unfold frame_shift. simpl.
    intros [s Hs]. rewrite lookup_fmap, Hs. simpl. eauto.
  - unfold wf_frame, frame_shift. simpl. intros Hwf c s.
    rewrite lookup_fmap. destruct (df_columns df !! c) as [s'|] eqn:Hs'; [|done].
    simpl. intros [= <-]. rewrite length_shift. by eapply Hwf.
Qed.

Lemma length_ffill limit s : length (ffill limit s) = length s.
Proof. apply length_ffill_from. Qed.

Lemma frame_extends_ffill limit df df' :
  frame_ffill limit df = Ok df' -> frame_extends df df'.
Proof.
  unfold frame_ffill. destruct (limit <? 1)%Z; [done|]. intros [= <-].
  repeat split.
  - intros c. rewrite !has_column_true. simpl.
    intros [s Hs]. rewrite lookup_fmap, Hs. simpl. eauto.
  - unfold wf_frame. simpl. intros Hwf c s.
    rewrite lookup_fmap. destruct (df_columns df !! c) as [s'|] eqn:Hs'; [|done].
    simpl. intros [= <-]. rewrite length_ffill. by eapply Hwf.
Qed.

Lemma length_rolling window min_periods agg x r :
  rolling window min_periods agg x = Ok r -> length r = length x.
Proof.
  unfold rolling. destruct (rolling_validate window min_periods); [|done].
  simpl. intros [= <-]. by rewrite length_fmap, length_seq.
Qed.

Lemma length_series_sub a b : length (series_sub a b) = Nat.min (length a) (length b).
Proof. apply length_zip_with. Qed.

Lemma length_series_div a b : length (series_div a b) = Nat.min (length a) (length b).
Proof. apply length_zip_with. Qed.

Lemma length_replace_zero s : length (replace_zero s) = length s.
Proof. apply length_fmap. Qed.

Lemma length_zscore_rolling qsqrt x window min_periods z :
  zscore_rolling qsqrt x window min_periods = Ok z -> length z = length x.
Proof.
  unfold zscore_rolling.
  destruct (rolling window min_periods mean_agg x) as [mu|] eqn:Hmu; [|done].
  destruct (rolling window min_periods (std_agg qsqrt) x) as [sd|] eqn:Hsd; [|done].
  simpl. intros [= <-].
  apply length_rolling in Hmu, Hsd.
  rewrite length_series_div, length_series_sub, length_replace_zero. lia.
Qed.

Lemma length_momentum days_1m (x : Series) :
  length (series_sub x (shift days_1m None x)) = length x.
Proof. rewrite length_series_sub, length_shift. lia. Qed.

Lemma frame_extends_add_curve qsqrt days_1y min_1y df df' :
  add_curve qsqrt days_1y min_1y df = Ok df' -> frame_extends df df'.
Proof.
  unfold add_curve.
  destruct (df_columns df !! "ust_10y") as [a|] eqn:Ha;
    [|intros [= <-]; apply frame_extends_refl].
  destruct (df_columns df !! "ust_2y") as [b|] eqn:Hb;
    [|intros [= <-]; apply frame_extends_refl].
  destruct (zscore_rolling qsqrt (series_sub a b) days_1y min_1y) as [z|] eqn:Hz;
    [|done].
  simpl. intros [= <-]. apply length_zscore_rolling in Hz.
  eapply frame_extends_trans; apply frame_extends_setcol.
  - intros Hwf. rewrite length_series_sub.
    rewrite (wf_frame_length _ _ _ Hwf Ha), (wf_frame_length _ _ _ Hwf Hb). lia.
  - intros Hwf. rewrite Hz. apply (wf_frame_length _ "curve_10y2y" _ Hwf).
    simpl. apply lookup_insert_eq.
Qed.

Lemma frame_extends_add_rates_momentum days_1m col df :
  frame_extends df (add_rates_momentum days_1m col df).
Proof.
  unfold add_rates_momentum.
  destruct (df_columns df !! col) as [x|] eqn:Hx; [|apply frame_extends_refl].
  apply frame_extends_setcol. intros Hwf.
  rewrite length_momentum. by eapply wf_frame_length.
Qed.

(** A level column, its momentum and its z-score, as [add_credit] and
    [add_volatility] write them. *)
Lemma frame_extends_level_momentum_z qsqrt days_1m days_1y min_1y df x z c cl cm cz :
  df_columns df !! c = Some x ->
  zscore_rolling qsqrt x days_1y min_1y = Ok z ->
  frame_extends df
    (setcol cz z (setcol cm (series_sub x (shift days_1m None x)) (setcol cl x df))).
Proof.
  intros Hx Hz. apply length_zscore_rolling in Hz.
  assert (wf_frame df -> length x = length (df_index df)) as Hlen
    by (intros Hwf; by eapply wf_frame_length).
  eapply frame_extends_trans; [by apply frame_extends_setcol|].
  eapply frame_extends_trans; apply frame_extends_setcol; simpl.
  - intros Hwf. rewrite length_momentum.
    apply (wf_frame_length _ cl _ Hwf). simpl. apply lookup_insert_eq.
  - intros Hwf. rewrite Hz, <- (length_momentum days_1m).
    apply (wf_frame_length _ cm _ Hwf). simpl. apply lookup_insert_eq.
Qed.

Lemma frame_extends_add_credit qsqrt days_1m days_1y min_1y df df' :
  add_credit qsqrt days_1m days_1y min_1y df = Ok df' -> frame_extends df df'.
Proof.
  unfold add_credit.
  destruct (df_columns df !! "baa_10y_spread") as [x|] eqn:Hx;
    [|intros [= <-]; apply frame_extends_refl].
  destruct (zscore_rolling qsqrt x days_1y min_1y) as [z|] eqn:Hz; [|done].
  simpl. intros [= <-]. by eapply frame_extends_level_momentum_z.
Qed.

Lemma frame_extends_add_volatility qsqrt days_1m days_1y min_1y df df' :
  add_volatility qsqrt days_1m days_1y min_1y df = Ok df' -> frame_extends df df'.
Proof.
  unfold add_volatility.
  destruct (df_columns df !! "vix") as [x|] eqn:Hx;
    [|intros [= <-]; apply frame_extends_refl].
  destruct (zscore_rolling qsqrt x days_1y min_1y) as [z|] eqn:Hz; [|done].
  simpl. intros [= <-]. by eapply frame_extends_level_momentum_z.
Qed.

Lemma length_row_sum min_count n sig : length (row_sum min_count n sig) = n.
Proof. unfold row_sum. by rewrite length_fmap, length_seq. Qed.

Lemma frame_extends_add_risk_off_score df :
  frame_extends df (add_risk_off_score df).
Proof.
  unfold add_risk_off_score. destruct (stress_signals df); [apply frame_extends_refl|].
  apply frame_extends_setcol. intros _. apply length_row_sum.
Qed.

(** The stages of [build_features], one after the other. *)
Lemma build_features_stages qsqrt macro lag_days days_1m days_1y fill_days f :
  build_features qsqrt macro lag_days days_1m days_1y fill_days = Ok f ->
  exists d1 d2 d4 d5,
    frame_ffill fill_days (frame_shift lag_days macro) = Ok d1 /\
    add_curve qsqrt days_1y (Z.quot (days_1y * 8) 10) d1 = Ok d2 /\
    add_credit qsqrt days_1m days_1y (Z.quot (days_1y * 8) 10)
      (add_rates_momentum days_1m "ust_2y" (add_rates_momentum days_1m "ust_10y" d2))
      = Ok d4 /\
    add_volatility qsqrt days_1m days_1y (Z.quot (days_1y * 8) 10) d4 = Ok d5 /\
    f = add_risk_off_score d5.
Proof.
  unfold build_features. intros H.
  destruct (frame_ffill fill_days (frame_shift lag_days macro)) as [d1|] eqn:H1;
    [|done].
  simpl in H.
  destruct (add_curve qsqrt days_1y (days_1y * 8 ÷ 10) d1) as [d2|] eqn:H2; [|done].
  simpl in H.
  destruct (add_credit qsqrt days_1m days_1y (days_1y * 8 ÷ 10)
              (add_rates_momentum days_1m "ust_2y"
                 (add_rates_momentum days_1m "ust_10y" d2))) as [d4|] eqn:H4; [|done].
  simpl in H.
  destruct (add_volatility qsqrt days_1m days_1y (days_1y * 8 ÷ 10) d4) as [d5|] eqn:H5;
    [|done].
  simpl in H. injection H as <-. by exists d1, d2, d4, d5.
Qed.

Lemma build_features_extends qsqrt macro lag_days days_1m days_1y fill_days f :
  build_features qsqrt macro lag_days days_1m days_1y fill_days = Ok f ->
  frame_extends macro f.
Proof.
  intros H.
  destruct (build_features_stages _ _ _ _ _ _ _ H)
    as (d1 & d2 & d4 & d5 & H1 & H2 & H4 & H5 & ->).
  eapply frame_extends_trans; [apply frame_extends_shift|].
  eapply frame_extends_trans; [by eapply frame_extends_ffill|].
  eapply frame_extends_trans; [by eapply frame_extends_add_curve|].
  eapply frame_extends_trans; [apply frame_extends_add_rates_momentum|].
  eapply frame_extends_trans; [apply frame_extends_add_rates_momentum|].
  eapply frame_extends_trans; [by eapply frame_extends_add_credit|].
  eapply frame_extends_trans; [by eapply frame_extends_add_volatility|].
  apply frame_extends_add_risk_off_score.
Qed.

(** *** Columns that are passed through *)

Lemma setcol_lookup_ne c s df c' :
  c <> c' -> df_columns (setcol c s df) !! c' = df_columns df !! c'.
Proof. intros H. unfold setcol. simpl. by rewrite lookup_insert_ne. Qed.

Lemma setcol_lookup_eq c s df : df_columns (setcol c s df) !! c = Some s.
Proof. unfold setcol. simpl. by rewrite lookup_insert_eq. Qed.

Ltac split_notin H :=
  unfold derived_columns in H; rewrite !not_elem_of_cons in H; destruct_and!.

Ltac other_column :=
  rewrite ?setcol_lookup_ne by done; try done.

Lemma add_curve_other qsqrt days_1y min_1y df df' c :
  add_curve qsqrt days_1y min_1y df = Ok df' ->
  c <> "curve_10y2y" -> c <> "curve_z_1y" ->
  df_columns df' !! c = df_columns df !! c.
Proof.
  unfold add_curve. intros H ??.
  destruct (df_columns df !! "ust_10y"); [|by simplify_eq].
  destruct (df_columns df !! "ust_2y"); [|by simplify_eq].
  destruct (zscore_rolling _ _ _ _); [|done].
  simpl in H. injection H as <-. other_column.
Qed.

Lemma add_rates_momentum_other days_1m col df c :
  c <> (col ++ "_chg_1m")%string ->
  df_columns (add_rates_momentum days_1m col df) !! c = df_columns df !! c.
Proof.
  unfold add_rates_momentum. intros ?.
  destruct (df_columns df !! col); [|done]. other_column.
Qed.

Lemma add_credit_other qsqrt days_1m days_1y min_1y df df' c :
  add_credit qsqrt days_1m days_1y min_1y df = Ok df' ->
  c <> "credit_level" -> c <> "credit_chg_1m" -> c <> "credit_z_1y" ->
  df_columns df' !! c = df_columns df !! c.
Proof.
  unfold add_credit. intros H ???.
  destruct (df_columns df !! "baa_10y_spread"); [|by simplify_eq].
  destruct (zscore_rolling _ _ _ _); [|done].
  simpl in H. injection H as <-. other_column.
Qed.

Lemma add_volatility_other qsqrt days_1m days_1y min_1y df df' c :
  add_volatility qsqrt days_1m days_1y min_1y df = Ok df' ->
  c <> "vix_level" -> c <> "vix_chg_1m" -> c <> "vix_z_1y" ->
  df_columns df' !! c = df_columns df !! c.
Proof.
  unfold add_volatility. intros H ???.
  destruct (df_columns df !! "vix"); [|by simplify_eq].
  destruct (zscore_rolling _ _ _ _); [|done].
  simpl in H. injection H as <-. other_column.
Qed.

Lemma add_risk_off_score_other df c :
  c <> "risk_off_score" ->
  df_columns (add_risk_off_score df) !! c = df_columns df !! c.
Proof.
  unfold add_risk_off_score. intros ?. destruct (stress_signals df); [done|].
  other_column.
Qed.

Lemma frame_ffill_lookup limit df df' c :
  frame_ffill limit df = Ok df' ->
  df_columns df' !! c = ffill (Z.to_nat limit) <$> df_columns df !! c.
Proof.
  unfold frame_ffill. destruct (limit <? 1)%Z; [done|]. intros [= <-]. simpl.
  by rewrite lookup_fmap.
Qed.

(** A column whose name is not one [build_features] writes comes out
    lagged and forward filled. *)
Lemma build_features_other qsqrt macro lag_days days_1m days_1y fill_days f c :
  build_features qsqrt macro lag_days days_1m days_1y fill_days = Ok f ->
  c ∉ derived_columns ->
  df_columns f !! c
  = (fun s => ffill (Z.to_nat fill_days) (shift lag_days None s)) <$> df_columns macro !! c.
Proof.
  intros H Hc.
  destruct (build_features_stages _ _ _ _ _ _ _ H)
    as (d1 & d2 & d4 & d5 & H1 & H2 & H4 & H5 & ->).
  split_notin Hc.
  rewrite add_risk_off_score_other by done.
  rewrite (add_volatility_other _ _ _ _ _ _ _ H5) by done.
  rewrite (add_credit_other _ _ _ _ _ _ _ H4) by done.
  rewrite !add_rates_momentum_other by done.
  rewrite (add_curve_other _ _ _ _ _ _ H2) by done.
  rewrite (frame_ffill_lookup _ _ _ _ H1).
  unfold frame_shift. simpl. rewrite lookup_fmap.
  by destruct (df_columns macro !! c).
Qed.
Lemma ffill_from_Some limit last run s t v :
  ffill_from limit last run s !! t = Some (Some v) <->
  (exists j, j <= t /\ t - j <= limit /\ s !! j = Some (Some v) /\
             forall i, j < i <= t -> s !! i = Some None) \/
  (last = Some v /\ run + t < limit /\ forall i, i <= t -> s !! i = Some None).
Proof.
  revert last run t. induction s as [|x s IH]; intros last run t.
  - simpl. split; [done|].
    intros [(j & _ & _ & Hj & _)|(_ & _ & Hn)]; [done|].
    specialize (Hn 0). simpl in Hn. discriminate Hn. lia.
  - destruct x as [q|]; simpl.
    + destruct t as [|t]; simpl.
      * split.
        -- intros [= ->]. left. exists 0. repeat split; try lia; try done.
        -- intros [(j & Hj & _ & Hv & _)|(_ & _ & Hn)].
           ++ assert (j = 0) as -> by lia. simpl in Hv. by simplify_eq.
           ++ specialize (Hn 0). simpl in Hn. discriminate Hn. lia.
      * rewrite IH. split.
        -- intros [(j & Hj & Hd & Hv & Hn)|(Hl & Hr & Hn)].
           ++ left. exists (S j). repeat split; try lia; try done.
              intros [|i] Hi; [lia|]. simpl. apply Hn. lia.
           ++ left. exists 0. simplify_eq. repeat split; try lia; try done.
              intros [|i] Hi; [lia|]. simpl. apply Hn. lia.
        -- intros [(j & Hj & Hd & Hv & Hn)|(_ & _ & Hn)].
           ++ destruct j as [|j].
              ** simpl in Hv. simplify_eq. right. repeat split; try lia.
                 intros i Hi. apply (Hn (S i)). lia.
              ** left. exists j. repeat split; try lia; try done.
                 intros i Hi. apply (Hn (S i)). lia.
           ++ specialize (Hn 0). simpl in Hn. discriminate Hn. lia.
    + destruct t as [|t]; simpl.
      * split.
        -- intros [= H]. right. destruct (Nat.ltb_spec run limit); [|done].
           repeat split; try lia; try done. intros i Hi. by assert (i = 0) as -> by lia.
        -- intros [(j & Hj & _ & Hv & _)|(Hl & Hr & Hn)].
           ++ assert (j = 0) as -> by lia. simpl in Hv. by simplify_eq.
           ++ destruct (Nat.ltb_spec run limit); [|lia]. by rewrite Hl.
      * rewrite IH. split.
        -- intros [(j & Hj & Hd & Hv & Hn)|(Hl & Hr & Hn)].
           ++ left. exists (S j). repeat split; try lia; try done.
              intros [|i] Hi; [lia|]. simpl. apply Hn. lia.
           ++ right. repeat split; try lia; try done.
              intros [|i] Hi; [done|]. simpl. apply Hn. lia.
        -- intros [(j & Hj & Hd & Hv & Hn)|(Hl & Hr & Hn)].
           ++ destruct j as [|j]; [simpl in Hv; discriminate|].
              left. exists j. repeat split; try lia; try done.
              intros i Hi. apply (Hn (S i)). lia.
           ++ right. repeat split; try lia; try done.
              intros i Hi. apply (Hn (S i)). lia.
Qed.

(** A cell of a forward-filled column holds a value exactly when that
    value is the latest valid one at or before the row, no more than
    [limit] rows back. *)
Lemma ffill_Some limit s t v :
  ffill limit s !! t = Some (Some v) <->
  exists j, j <= t /\ t - j <= limit /\ s !! j = Some (Some v) /\
            forall i, j < i <= t -> s !! i = Some None.
Proof.
  unfold ffill. rewrite ffill_from_Some. split; [|by left].
  intros [H|(H & _)]; [done|discriminate].
Qed.

Lemma lookup_shift_lag {A} (k : nat) (fill : A) s i :
  shift (Z.of_nat k) fill s !! i =
  if decide (i < length s)
  then Some (if decide (k <= i) then default fill (s !! (i - k)) else fill)
  else None.
Proof.
  rewrite lookup_shift. destruct (decide (i < length s)); [|done].
  f_equal. destruct (decide (k <= i)).
  - rewrite decide_True by lia. do 2 f_equal. lia.
  - by rewrite decide_False by lia.
Qed.
(** The lagged and filled copy of a column: where its values come from. *)
Lemma lagged_filled_Some (L F : nat) (s : Series) t v :
  ffill F (shift (Z.of_nat L) None s) !! t = Some (Some v) <->
  exists r, r + L <= t /\ t <= r + L + F /\ t < length s /\
            s !! r = Some (Some v) /\
            forall i, r < i -> i + L <= t -> s !! i = Some None.
Proof.
  rewrite ffill_Some. split.
  - intros (j & Hj & Hd & Hv & Hn).
    rewrite lookup_shift_lag in Hv.
    destruct (decide (j < length s)) as [Hjl|]; [|done].
    destruct (decide (L <= j)) as [HL|]; [|done].
    destruct (s !! (j - L)) as [x|] eqn:Hx; [|done]. simpl in Hv. simplify_eq.
    exists (j - L). repeat split; try lia; try done.
    + destruct (decide (j = t)) as [->|]; [done|].
      specialize (Hn t). rewrite lookup_shift_lag in Hn.
      destruct (decide (t < length s)); [done|]. discriminate Hn. lia.
    + intros i Hi1 Hi2. specialize (Hn (i + L)).
      rewrite lookup_shift_lag in Hn.
      destruct (decide (i + L < length s)) as [Hil|]; [|discriminate Hn; lia].
      rewrite decide_True in Hn by lia.
      replace (i + L - L) with i in Hn by lia.
      destruct (lookup_lt_is_Some_2 s i) as [y Hy]; [lia|].
      rewrite Hy in Hn. simpl in Hn. rewrite Hy. apply Hn. lia.
  - intros (r & Hr1 & Hr2 & Ht & Hv & Hn).
    exists (r + L). repeat split; try lia.
    + rewrite lookup_shift_lag, decide_True by lia. rewrite decide_True by lia.
      replace (r + L - L) with r by lia. by rewrite Hv.
    + intros i Hi. rewrite lookup_shift_lag, decide_True by lia.
      rewrite decide_True by lia. rewrite (Hn (i - L)) by lia. done.
Qed.
(** X6: a table that [build_features] returns is over the dates of its
    input, still holds every input column name and, when every input
    column has one cell per date, so has every column of the result. *)
Theorem features_keep_dates_and_columns qsqrt macro lag_days days_1m days_1y fill_days f :
  build_features qsqrt macro lag_days days_1m days_1y fill_days = Ok f ->
  df_index f = df_index macro /\
  (forall c, has_column macro c = true -> has_column f c = true) /\
  (wf_frame macro -> wf_frame f).
Proof. intros Hf. by apply build_features_extends in Hf. Qed.

Lemma features_keep_dates_and_columns_witness :
  exists f,
    build_features Examples.stand_in_sqrt Examples.raw 1 21 252 5 = Ok f /\
    df_index f = df_index Examples.raw /\
    (forall c, has_column Examples.raw c = true -> has_column f c = true) /\
    (wf_frame Examples.raw -> wf_frame f).
Proof.
  eexists. split; [vm_compute; reflexivity|].
  eapply (features_keep_dates_and_columns Examples.stand_in_sqrt Examples.raw
            1 21 252 5).
  vm_compute; reflexivity.
Defined.

(** X7: an input column whose name is not one of the eleven names
    [build_features] writes comes out lagged and gap-filled: with a lag of
    [lag_days >= 0] rows, its cell on row [t] holds a value exactly when
    that value is the latest valid input value among the rows up to
    [t - lag_days], and that row lies no more than [lag_days + fill_days]
    rows before [t].  No cell holds a value of a later input row. *)
Theorem lagged_value_source qsqrt macro lag_days days_1m days_1y fill_days f c s t v :
  build_features qsqrt macro lag_days days_1m days_1y fill_days = Ok f ->
  c ∉ derived_columns ->
  df_columns macro !! c = Some s ->
  (0 <= lag_days)%Z ->
  cell_at f c t = Some (Some v) <->
  exists r,
    r + Z.to_nat lag_days <= t /\
    t <= r + Z.to_nat lag_days + Z.to_nat fill_days /\
    t < length s /\
    s !! r = Some (Some v) /\
    forall i, r < i -> i + Z.to_nat lag_days <= t -> s !! i = Some None.
Proof.
  intros Hf Hc Hs Hlag. unfold cell_at.
  rewrite (build_features_other _ _ _ _ _ _ _ _ Hf Hc), Hs. simpl.
  rewrite <- (Z2Nat.id lag_days) at 1 by done.
  apply lagged_filled_Some.
Qed.

Lemma lagged_value_source_witness :
  exists f,
    build_features Examples.stand_in_sqrt Examples.raw 1 21 252 5 = Ok f /\
    ("ust_2y" ∉ derived_columns) /\
    df_columns Examples.raw !! "ust_2y" = Some [Some 3.0; Some 3.1; None; Some 3.3]%Q /\
    (0 <= 1)%Z /\
    (cell_at f "ust_2y" 3 = Some (Some 3.1%Q) <->
     exists r,
       r + Z.to_nat 1 <= 3 /\
       3 <= r + Z.to_nat 1 + Z.to_nat 5 /\
       3 < length [Some 3.0; Some 3.1; None; Some 3.3]%Q /\
       [Some 3.0; Some 3.1; None; Some 3.3]%Q !! r = Some (Some 3.1%Q) /\
       forall i, r < i -> i + Z.to_nat 1 <= 3 ->
         [Some 3.0; Some 3.1; None; Some 3.3]%Q !! i = Some None).
Proof.
  assert ("ust_2y" ∉ derived_columns) as Hc
    by (apply (bool_decide_unpack _); vm_compute; exact I).
  eexists. split; [vm_compute; reflexivity|].
  split; [exact Hc|]. split; [reflexivity|]. split; [lia|].
  apply (lagged_value_source Examples.stand_in_sqrt Examples.raw 1 21 252 5 _
           "ust_2y" _ 3 3.1%Q); [vm_compute; reflexivity | exact Hc | reflexivity | lia].
Defined.

(** *** Derived level and momentum columns *)

Lemma add_curve_writes qsqrt days_1y min_1y df df' a b :
  add_curve qsqrt days_1y min_1y df = Ok df' ->
  df_columns df !! "ust_10y" = Some a -> df_columns df !! "ust_2y" = Some b ->
  exists z,
    zscore_rolling qsqrt (series_sub a b) days_1y min_1y = Ok z /\
    df_columns df' !! "curve_10y2y" = Some (series_sub a b) /\
    df_columns df' !! "curve_z_1y" = Some z.
Proof.
  unfold add_curve. intros H Ha Hb. rewrite Ha, Hb in H.
  destruct (zscore_rolling _ _ _ _) as [z|]; [|done].
  simpl in H. injection H as <-. exists z. split; [done|].
  rewrite setcol_lookup_ne, !setcol_lookup_eq by done. done.
Qed.

Lemma add_rates_momentum_writes days_1m col df x :
  df_columns df !! col = Some x ->
  df_columns (add_rates_momentum days_1m col df) !! (col ++ "_chg_1m")%string
  = Some (momentum days_1m x).
Proof. unfold add_rates_momentum. intros Hx. rewrite Hx. by rewrite setcol_lookup_eq. Qed.

Lemma add_credit_writes qsqrt days_1m days_1y min_1y df df' x :
  add_credit qsqrt days_1m days_1y min_1y df = Ok df' ->
  df_columns df !! "baa_10y_spread" = Some x ->
  exists z,
    zscore_rolling qsqrt x days_1y min_1y = Ok z /\
    df_columns df' !! "credit_level" = Some x /\
    df_columns df' !! "credit_chg_1m" = Some (momentum days_1m x) /\
    df_columns df' !! "credit_z_1y" = Some z.
Proof.
  unfold add_credit. intros H Hx. rewrite Hx in H.
  destruct (zscore_rolling _ _ _ _) as [z|]; [|done].
  simpl in H. injection H as <-. exists z. split; [done|].
  rewrite !setcol_lookup_eq.
  rewrite !(setcol_lookup_ne "credit_z_1y") by done.
  rewrite !setcol_lookup_eq.
  rewrite !(setcol_lookup_ne "credit_chg_1m") by done.
  by rewrite !setcol_lookup_eq.
Qed.

Lemma add_volatility_writes qsqrt days_1m days_1y min_1y df df' x :
  add_volatility qsqrt days_1m days_1y min_1y df = Ok df' ->
  df_columns df !! "vix" = Some x ->
  exists z,
    zscore_rolling qsqrt x days_1y min_1y = Ok z /\
    df_columns df' !! "vix_level" = Some x /\
    df_columns df' !! "vix_chg_1m" = Some (momentum days_1m x) /\
    df_columns df' !! "vix_z_1y" = Some z.
Proof.
  unfold add_volatility. intros H Hx. rewrite Hx in H.
  destruct (zscore_rolling _ _ _ _) as [z|]; [|done].
  simpl in H. injection H as <-. exists z. split; [done|].
  rewrite !setcol_lookup_eq.
  rewrite !(setcol_lookup_ne "vix_z_1y") by done.
  rewrite !setcol_lookup_eq.
  rewrite !(setcol_lookup_ne "vix_chg_1m") by done.
  by rewrite !setcol_lookup_eq.
Qed.

(** Rewriting a column lookup back through the stages that leave the
    column alone. *)
Ltac back_to_stage H2 H4 H5 :=
  rewrite ?add_risk_off_score_other by done;
  rewrite ?(add_volatility_other _ _ _ _ _ _ _ H5) by done;
  rewrite ?(add_credit_other _ _ _ _ _ _ _ H4) by done;
  rewrite ?add_rates_momentum_other by done;
  rewrite ?(add_curve_other _ _ _ _ _ _ H2) by done.

(** X8: in the table [build_features] returns, the curve is the lagged
    ten-year column minus the lagged two-year column, the credit and
    volatility levels are copies of the lagged spread and volatility
    columns, and each one-month change is a lagged column minus itself
    [days_1m] rows earlier: every derived level and momentum column is
    computed from the lagged, gap-filled columns of the same table. *)
Theorem derived_columns_from_lagged_inputs
    qsqrt macro lag_days days_1m days_1y fill_days f :
  build_features qsqrt macro lag_days days_1m days_1y fill_days = Ok f ->
  (forall a b, df_columns f !! "ust_10y" = Some a -> df_columns f !! "ust_2y" = Some b ->
     df_columns f !! "curve_10y2y" = Some (series_sub a b)) /\
  (forall x, df_columns f !! "ust_10y" = Some x ->
     df_columns f !! "ust_10y_chg_1m" = Some (momentum days_1m x)) /\
  (forall x, df_columns f !! "ust_2y" = Some x ->
     df_columns f !! "ust_2y_chg_1m" = Some (momentum days_1m x)) /\
  (forall x, df_columns f !! "baa_10y_spread" = Some x ->
     df_columns f !! "credit_level" = Some x /\
     df_columns f !! "credit_chg_1m" = Some (momentum days_1m x)) /\
  (forall x, df_columns f !! "vix" = Some x ->
     df_columns f !! "vix_level" = Some x /\
     df_columns f !! "vix_chg_1m" = Some (momentum days_1m x)).
Proof.
  intros H.
  destruct (build_features_stages _ _ _ _ _ _ _ H)
    as (d1 & d2 & d4 & d5 & H1 & H2 & H4 & H5 & ->).
  split; [|split; [|split; [|split]]].
  - intros a b. back_to_stage H2 H4 H5. intros Ha Hb.
    by destruct (add_curve_writes _ _ _ _ _ _ _ H2 Ha Hb) as (z & _ & -> & _).
  - intros x. back_to_stage H2 H4 H5. intros Hx.
    rewrite <- (add_curve_other _ _ _ _ _ "ust_10y" H2) in Hx by done.
    by apply (add_rates_momentum_writes days_1m "ust_10y").
  - intros x. back_to_stage H2 H4 H5. intros Hx.
    rewrite <- (add_curve_other _ _ _ _ _ "ust_2y" H2) in Hx by done.
    rewrite <- (add_rates_momentum_other days_1m "ust_10y") in Hx by done.
    by apply (add_rates_momentum_writes days_1m "ust_2y").
  - intros x. back_to_stage H2 H4 H5. intros Hx.
    rewrite <- (add_curve_other _ _ _ _ _ "baa_10y_spread" H2) in Hx by done.
    rewrite <- (add_rates_momentum_other days_1m "ust_10y") in Hx by done.
    rewrite <- (add_rates_momentum_other days_1m "ust_2y") in Hx by done.
    by destruct (add_credit_writes _ _ _ _ _ _ _ H4 Hx) as (z & _ & -> & -> & _).
  - intros x. back_to_stage H2 H4 H5. intros Hx.
    rewrite <- (add_curve_other _ _ _ _ _ "vix" H2) in Hx by done.
    rewrite <- (add_rates_momentum_other days_1m "ust_10y") in Hx by done.
    rewrite <- (add_rates_momentum_other days_1m "ust_2y") in Hx by done.
    rewrite <- (add_credit_other _ _ _ _ _ _ "vix" H4) in Hx by done.
    by destruct (add_volatility_writes _ _ _ _ _ _ _ H5 Hx) as (z & _ & -> & -> & _).
Qed.

Lemma derived_columns_from_lagged_inputs_witness :
  exists f,
    build_features Examples.stand_in_sqrt Examples.raw 1 21 252 5 = Ok f /\
    ((forall a b, df_columns f !! "ust_10y" = Some a -> df_columns f !! "ust_2y" = Some b ->
        df_columns f !! "curve_10y2y" = Some (series_sub a b)) /\
     (forall x, df_columns f !! "ust_10y" = Some x ->
        df_columns f !! "ust_10y_chg_1m" = Some (momentum 21 x)) /\
     (forall x, df_columns f !! "ust_2y" = Some x ->
        df_columns f !! "ust_2y_chg_1m" = Some (momentum 21 x)) /\
     (forall x, df_columns f !! "baa_10y_spread" = Some x ->
        df_columns f !! "credit_level" = Some x /\
        df_columns f !! "credit_chg_1m" = Some (momentum 21 x)) /\
     (forall x, df_columns f !! "vix" = Some x ->
        df_columns f !! "vix_level" = Some x /\
        df_columns f !! "vix_chg_1m" = Some (momentum 21 x))).
Proof.
  eexists. split; [vm_compute; reflexivity|].
  apply (derived_columns_from_lagged_inputs Examples.stand_in_sqrt Examples.raw
           1 21 252 5).
  vm_compute; reflexivity.
Defined.

(** *** Rolling z-scores *)

Lemma lookup_rolling window min_periods agg x r t :
  rolling window min_periods agg x = Ok r -> t < length x ->
  r !! t =
  Some (let obs := observations (window_at (Z.to_nat window) x t) in
        if (Z.to_nat min_periods <=? length obs)%nat then agg obs else None).
Proof.
  unfold rolling. destruct (rolling_validate window min_periods); [|done].
  simpl. intros [= <-] Ht. by rewrite list_lookup_fmap, lookup_seq_0.
Qed.

Lemma std_agg_Some qsqrt obs sd : std_agg qsqrt obs = Some sd -> 2 <= length obs.
Proof.
  unfold std_agg. destruct (mean_agg obs); [|done].
  destruct (Nat.ltb_spec (length obs) 2); [done|]. done.
Qed.

(** A z-score is defined exactly when the value, the rolling mean and a
    non-zero rolling deviation are. *)
Lemma zscore_rolling_Some qsqrt x window min_periods z t v :
  zscore_rolling qsqrt x window min_periods = Ok z ->
  z !! t = Some (Some v) <->
  exists xt mu sd,
    let obs := observations (window_at (Z.to_nat window) x t) in
    x !! t = Some (Some xt) /\
    Z.to_nat min_periods <= length obs /\ 2 <= length obs /\
    mean_agg obs = Some mu /\ std_agg qsqrt obs = Some sd /\
    ~ (sd == 0)%Q /\ v = ((xt - mu) / sd)%Q.
Proof.
  unfold zscore_rolling.
  destruct (rolling window min_periods mean_agg x) as [ms|] eqn:Hm; [|done].
  destruct (rolling window min_periods (std_agg qsqrt) x) as [ss|] eqn:Hs; [|done].
  simpl. intros [= <-].
  unfold series_div, series_sub, replace_zero.
  rewrite !lookup_zip_with, list_lookup_fmap.
  destruct (decide (t < length x)) as [Ht|Ht].
  2:{ rewrite (lookup_ge_None_2 x) by lia. simpl. split; [done|].
      intros (? & ? & ? & ? & _). done. }
  rewrite (lookup_rolling _ _ _ _ _ _ Hm Ht), (lookup_rolling _ _ _ _ _ _ Hs Ht).
  destruct (lookup_lt_is_Some_2 x t Ht) as [xo Hxo]. rewrite Hxo. simpl.
  set (obs := observations (window_at (Z.to_nat window) x t)).
  destruct (Nat.leb_spec (Z.to_nat min_periods) (length obs)) as [Hmp|Hmp].
  2:{ split.
      - destruct xo; simpl; intros [= ?].
      - intros (? & ? & ? & _ & Hle & _). lia. }
  split.
  - destruct xo as [xt|]; [|done].
    destruct (mean_agg obs) as [mu|] eqn:Hmu; [|done].
    destruct (std_agg qsqrt obs) as [sd|] eqn:Hsd; [|done]. simpl.
    destruct (Qeq_bool sd 0) eqn:Hz; [done|]. simpl. intros [= <-].
    exists xt, mu, sd. repeat split; try done.
    + by eapply std_agg_Some.
    + by apply Qeq_bool_neq.
  - intros (xt & mu & sd & [= ->] & _ & _ & -> & -> & Hnz & ->). simpl.
    destruct (Qeq_bool sd 0) eqn:Hz; [|done].
    by apply Qeq_bool_iff in Hz.
Qed.
Lemma observations_take_leading (x : Series) n L :
  (forall i, i < L -> i < length x -> x !! i = Some None) ->
  length (observations (take n x)) <= n - L.
Proof.
  unfold observations. revert n L. induction x as [|a x IH]; intros n L Hn.
  - rewrite take_nil. simpl. lia.
  - destruct n as [|n]; [simpl; lia|].
    destruct L as [|L].
    + specialize (IH n 0). simpl.
      destruct a; simpl; [|etrans; [apply IH; intros; lia|lia]].
      etrans; [apply le_n_S, IH; intros; lia|lia].
    + assert (a = None) as ->.
      { specialize (Hn 0). simpl in Hn. by injection Hn; [|lia|lia]. }
      simpl. apply IH. intros i Hi Hl. apply (Hn (S i)); simpl; lia.
Qed.

Lemma observations_window_leading (x : Series) w t L :
  (forall i, i < L -> i < length x -> x !! i = Some None) ->
  length (observations (window_at w x t)) <= S t - L.
Proof.
  intros Hn. unfold window_at. etrans; [|by apply observations_take_leading].
  unfold observations.
  rewrite <- (take_drop (S t - w) (take (S t) x)) at 2.
  rewrite omap_app, length_app. lia.
Qed.

(** Warm-up: while the window cannot hold [min_periods] observations, or
    two of them, the z-score is NaN. *)
Lemma zscore_rolling_warmup qsqrt x window min_periods z L t :
  zscore_rolling qsqrt x window min_periods = Ok z ->
  (forall i, i < L -> i < length x -> x !! i = Some None) ->
  t < length x ->
  (Z.of_nat t + 1 < Z.of_nat L + Z.max min_periods 2)%Z ->
  z !! t = Some None.
Proof.
  intros Hz Hn Ht Hw.
  pose proof (length_zscore_rolling _ _ _ _ _ Hz) as Hlen.
  destruct (lookup_lt_is_Some_2 z t) as [[v|] Hy]; [lia| |done].
  apply (zscore_rolling_Some _ _ _ _ _ _ _ Hz) in Hy
    as (xt & mu & sd & _ & Hmp & H2 & _).
  pose proof (observations_window_leading x (Z.to_nat window) t L Hn). lia.
Qed.

Lemma lagged_filled_leading (L F : nat) (s : Series) i :
  i < L -> i < length (ffill F (shift (Z.of_nat L) None s)) ->
  ffill F (shift (Z.of_nat L) None s) !! i = Some None.
Proof.
  intros Hi Hl. destruct (lookup_lt_is_Some_2 _ i Hl) as [[v|] Hy]; [|done].
  apply lagged_filled_Some in Hy as (r & Hr & _). lia.
Qed.
(** The z-score columns of the returned table, from its level columns. *)
Lemma build_features_zscores qsqrt macro lag_days days_1m days_1y fill_days f raw zc x :
  build_features qsqrt macro lag_days days_1m days_1y fill_days = Ok f ->
  (raw, zc) ∈ [("baa_10y_spread", "credit_z_1y"); ("vix", "vix_z_1y")] ->
  df_columns f !! raw = Some x ->
  exists z,
    zscore_rolling qsqrt x days_1y (Z.quot (days_1y * 8) 10) = Ok z /\
    df_columns f !! zc = Some z.
Proof.
  intros H Hp.
  destruct (build_features_stages _ _ _ _ _ _ _ H)
    as (d1 & d2 & d4 & d5 & H1 & H2 & H4 & H5 & ->).
  apply elem_of_cons in Hp as [[= -> ->]|Hp];
    [|apply list_elem_of_singleton in Hp as [= -> ->]];
    back_to_stage H2 H4 H5; intros Hx.
  - rewrite <- (add_curve_other _ _ _ _ _ "baa_10y_spread" H2) in Hx by done.
    rewrite <- (add_rates_momentum_other days_1m "ust_10y") in Hx by done.
    rewrite <- (add_rates_momentum_other days_1m "ust_2y") in Hx by done.
    destruct (add_credit_writes _ _ _ _ _ _ _ H4 Hx) as (z & Hz & _ & _ & Hc).
    eauto.
  - rewrite <- (add_curve_other _ _ _ _ _ "vix" H2) in Hx by done.
    rewrite <- (add_rates_momentum_other days_1m "ust_10y") in Hx by done.
    rewrite <- (add_rates_momentum_other days_1m "ust_2y") in Hx by done.
    rewrite <- (add_credit_other _ _ _ _ _ _ "vix" H4) in Hx by done.
    destruct (add_volatility_writes _ _ _ _ _ _ _ H5 Hx) as (z & Hz & _ & _ & Hc).
    eauto.
Qed.

(** X9: in the returned table, a cell of [credit_z_1y] (or [vix_z_1y])
    holds a value exactly when the lagged spread (volatility) has a value
    on that row and the window of the last [days_1y] rows holds at least
    [int(0.8 * days_1y)] and at least two observations whose sample
    deviation is not zero; the value is then (x - mean) / deviation.  A
    zero deviation gives NaN, never a division by zero. *)
Theorem zscore_cell_value qsqrt macro lag_days days_1m days_1y fill_days f raw zc x t v :
  build_features qsqrt macro lag_days days_1m days_1y fill_days = Ok f ->
  (raw, zc) ∈ [("baa_10y_spread", "credit_z_1y"); ("vix", "vix_z_1y")] ->
  df_columns f !! raw = Some x ->
  cell_at f zc t = Some (Some v) <->
  exists xt mu sd,
    let obs := observations (window_at (Z.to_nat days_1y) x t) in
    x !! t = Some (Some xt) /\
    Z.to_nat (Z.quot (days_1y * 8) 10) <= length obs /\ 2 <= length obs /\
    mean_agg obs = Some mu /\ std_agg qsqrt obs = Some sd /\
    ~ (sd == 0)%Q /\ v = ((xt - mu) / sd)%Q.
Proof.
  intros H Hp Hx.
  destruct (build_features_zscores _ _ _ _ _ _ _ _ _ _ H Hp Hx) as (z & Hz & Hc).
  unfold cell_at. rewrite Hc. simpl. by apply zscore_rolling_Some.
Qed.

(** The z-scores of the returned table are NaN during the warm-up. *)
Lemma build_features_zscore_warmup qsqrt macro lag_days days_1m days_1y fill_days f raw zc s t :
  build_features qsqrt macro lag_days days_1m days_1y fill_days = Ok f ->
  (raw, zc) ∈ [("baa_10y_spread", "credit_z_1y"); ("vix", "vix_z_1y")] ->
  df_columns macro !! raw = Some s ->
  (0 <= lag_days)%Z ->
  t < length s ->
  (Z.of_nat t + 1 < lag_days + Z.max (Z.quot (days_1y * 8) 10) 2)%Z ->
  cell_at f zc t = Some None.
Proof.
  intros H Hp Hs Hlag Ht Hw.
  assert (raw ∉ derived_columns) as Hraw.
  { apply elem_of_cons in Hp as [[= -> ->]|Hp];
      [|apply list_elem_of_singleton in Hp as [= -> ->]];
      apply (bool_decide_unpack _); vm_compute; exact I. }
  pose proof (build_features_other _ _ _ _ _ _ _ _ H Hraw) as Hx.
  rewrite Hs in Hx. simpl in Hx.
  destruct (build_features_zscores _ _ _ _ _ _ _ _ _ _ H Hp Hx) as (z & Hz & Hc).
  unfold cell_at. rewrite Hc. simpl.
  rewrite <- (Z2Nat.id lag_days) in Hz, Hw by done.
  apply (zscore_rolling_warmup _ _ _ _ _ (Z.to_nat lag_days) _ Hz).
  - intros i Hi Hl. by apply lagged_filled_leading.
  - by rewrite length_ffill, length_shift.
  - lia.
Qed.

(** X10: warm-up of the z-scores.  With a lag of [lag_days >= 0] rows, the
    cells of [credit_z_1y] (and of [vix_z_1y]) are NaN on every row [t]
    with [t + 1 < lag_days + max(int(0.8 * days_1y), 2)]: with the
    defaults, on the first 201 rows. *)
Theorem zscore_warm_up qsqrt macro lag_days days_1m days_1y fill_days f raw zc s t :
  build_features qsqrt macro lag_days days_1m days_1y fill_days = Ok f ->
  (raw, zc) ∈ [("baa_10y_spread", "credit_z_1y"); ("vix", "vix_z_1y")] ->
  df_columns macro !! raw = Some s ->
  (0 <= lag_days)%Z ->
  t < length s ->
  (Z.of_nat t + 1 < lag_days + Z.max (Z.quot (days_1y * 8) 10) 2)%Z ->
  cell_at f zc t = Some None.
Proof. apply build_features_zscore_warmup. Qed.

Lemma zscore_cell_value_witness :
  exists f,
    build_features Examples.stand_in_sqrt Examples.raw 1 1 2 1 = Ok f /\
    ("baa_10y_spread", "credit_z_1y")
      ∈ [("baa_10y_spread", "credit_z_1y"); ("vix", "vix_z_1y")] /\
    df_columns f !! "baa_10y_spread" = Some [None; Some 2.0; Some 2.1; Some 2.2]%Q /\
    (cell_at f "credit_z_1y" 2 = Some (Some 10%Q) <->
     exists xt mu sd,
       let obs := observations
                    (window_at (Z.to_nat 2) [None; Some 2.0; Some 2.1; Some 2.2]%Q 2) in
       [None; Some 2.0; Some 2.1; Some 2.2]%Q !! 2 = Some (Some xt) /\
       Z.to_nat (Z.quot (2 * 8) 10) <= length obs /\ 2 <= length obs /\
       mean_agg obs = Some mu /\ std_agg Examples.stand_in_sqrt obs = Some sd /\
       ~ (sd == 0)%Q /\ 10%Q = ((xt - mu) / sd)%Q).
Proof.
  assert (("baa_10y_spread", "credit_z_1y")
            ∈ [("baa_10y_spread", "credit_z_1y"); ("vix", "vix_z_1y")]) as Hp
    by apply list_elem_of_here.
  eexists. split; [vm_compute; reflexivity|]. split; [exact Hp|].
  split; [vm_compute; reflexivity|].
  eapply (zscore_cell_value Examples.stand_in_sqrt Examples.raw 1 1 2 1 _
            "baa_10y_spread" "credit_z_1y" [None; Some 2.0; Some 2.1; Some 2.2]%Q
            2 10%Q);
    [vm_compute; reflexivity | exact Hp | vm_compute; reflexivity].
Defined.

Lemma zscore_warm_up_witness :
  exists f,
    build_features Examples.stand_in_sqrt Examples.raw 1 21 252 5 = Ok f /\
    ("baa_10y_spread", "credit_z_1y")
      ∈ [("baa_10y_spread", "credit_z_1y"); ("vix", "vix_z_1y")] /\
    df_columns Examples.raw !! "baa_10y_spread"
      = Some [Some 2.0; Some 2.1; Some 2.2; Some 2.0]%Q /\
    (0 <= 1)%Z /\
    2 < length [Some 2.0; Some 2.1; Some 2.2; Some 2.0]%Q /\
    (Z.of_nat 2 + 1 < 1 + Z.max (Z.quot (252 * 8) 10) 2)%Z /\
    cell_at f "credit_z_1y" 2 = Some None.
Proof.
  assert (("baa_10y_spread", "credit_z_1y")
            ∈ [("baa_10y_spread", "credit_z_1y"); ("vix", "vix_z_1y")]) as Hp
    by apply list_elem_of_here.
  eexists. split; [vm_compute; reflexivity|]. split; [exact Hp|].
  split; [reflexivity|]. split; [lia|]. split; [simpl; lia|]. split; [vm_compute; reflexivity|].
  apply (zscore_warm_up Examples.stand_in_sqrt Examples.raw 1 21 252 5 _
           "baa_10y_spread" "credit_z_1y"
           [Some 2.0; Some 2.1; Some 2.2; Some 2.0]%Q 2);
    [vm_compute; reflexivity | exact Hp | reflexivity | lia | simpl; lia
    | vm_compute; reflexivity].
Defined.

(** *** The composite score *)

Lemma stress_signals_nonempty df :
  stress_signals df <> [] <->
  has_column df "curve_10y2y" = true \/ has_column df "credit_chg_1m" = true \/
  has_column df "vix_chg_1m" = true.
Proof.
  rewrite !has_column_true. unfold stress_signals, append_signal.
  destruct (df_columns df !! "curve_10y2y"), (df_columns df !! "credit_chg_1m"),
    (df_columns df !! "vix_chg_1m"); simpl; split; try done; eauto;
    intros [[? ?]|[[? ?]|[? ?]]]; done.
Qed.

Lemma filter_true_cons (b : BoolSeries) (bs : list BoolSeries) (t : nat) (x : bool) :
  b !! t = Some x ->
  length (filter (fun b : BoolSeries => b !! t = Some true) (b :: bs))
  = (if x then 1 else 0) + length (filter (fun b : BoolSeries => b !! t = Some true) bs).
Proof.
  intros Hb. rewrite filter_cons. rewrite Hb.
  destruct x; [by rewrite decide_True|by rewrite decide_False].
Qed.

(** The composite score of a row is the number of sub-signals that fire
    on it. *)
Lemma add_risk_off_score_value df t :
  wf_frame df -> t < length (df_index df) -> stress_signals df <> [] ->
  cell_at (add_risk_off_score df) "risk_off_score" t
  = Some (Some (inject_Z (Z.of_nat (signals_fired df t)))).
Proof.
  intros Hwf Ht Hne.
  unfold signals_fired, signal_at, cell_at.
  revert Hne. unfold add_risk_off_score, stress_signals, append_signal.
  destruct (df_columns df !! "curve_10y2y") as [c1|] eqn:H1;
  destruct (df_columns df !! "credit_chg_1m") as [c2|] eqn:H2;
  destruct (df_columns df !! "vix_chg_1m") as [c3|] eqn:H3; simpl; intros Hne;
  try done;
  rewrite lookup_insert_eq; simpl;
  use_wf Hwf;
  repeat match goal with
  | Hl : length ?s = length (df_index df) |- _ =>
      let x := fresh "x" in
      let Hx := fresh "Hx" in
      destruct (lookup_lt_is_Some_2 s t) as [x Hx]; [by rewrite Hl|];
      rewrite Hx; revert Hl
  end; intros;
  match goal with
  | |- row_sum ?k ?n ?l !! _ = _ =>
      match l with
      | [astype_float ?a] =>
          change (row_sum k n l)
            with (row_sum (length (astype_float <$> [a])) n (astype_float <$> [a]))
      | [astype_float ?a; astype_float ?b] =>
          change (row_sum k n l)
            with (row_sum (length (astype_float <$> [a; b])) n (astype_float <$> [a; b]))
      | [astype_float ?a; astype_float ?b; astype_float ?c] =>
          change (row_sum k n l)
            with (row_sum (length (astype_float <$> [a; b; c])) n
                    (astype_float <$> [a; b; c]))
      end
  end;
  (rewrite row_sum_signals; [ | done | repeat constructor; solve_len ]);
  erewrite !filter_true_cons by (by apply lookup_test); rewrite filter_nil; simpl;
  do 3 f_equal; lia.
Qed.
Lemma stages_extend qsqrt macro lag_days days_1m days_1y fill_days d1 d2 d4 d5 :
  frame_ffill fill_days (frame_shift lag_days macro) = Ok d1 ->
  add_curve qsqrt days_1y (Z.quot (days_1y * 8) 10) d1 = Ok d2 ->
  add_credit qsqrt days_1m days_1y (Z.quot (days_1y * 8) 10)
    (add_rates_momentum days_1m "ust_2y" (add_rates_momentum days_1m "ust_10y" d2))
    = Ok d4 ->
  add_volatility qsqrt days_1m days_1y (Z.quot (days_1y * 8) 10) d4 = Ok d5 ->
  frame_extends macro d5.
Proof.
  intros H1 H2 H4 H5.
  eapply frame_extends_trans; [apply frame_extends_shift|].
  eapply frame_extends_trans; [by eapply frame_extends_ffill|].
  eapply frame_extends_trans; [by eapply frame_extends_add_curve|].
  eapply frame_extends_trans; [apply frame_extends_add_rates_momentum|].
  eapply frame_extends_trans; [apply frame_extends_add_rates_momentum|].
  eapply frame_extends_trans; [by eapply frame_extends_add_credit|].
  by eapply frame_extends_add_volatility.
Qed.

Lemma signal_at_le df c test t : signal_at df c test t <= 1.
Proof.
  unfold signal_at. destruct (cell_at df c t) as [x|]; [|lia].
  destruct (test_cell test x); lia.
Qed.

Lemma has_column_lookup a b c :
  df_columns a !! c = df_columns b !! c -> has_column a c = has_column b c.
Proof. unfold has_column. by intros ->. Qed.

Lemma signals_fired_score df t :
  signals_fired (add_risk_off_score df) t = signals_fired df t.
Proof.
  unfold signals_fired, signal_at, cell_at.
  by rewrite !add_risk_off_score_other by done.
Qed.

(** The composite score of the returned table counts the sub-signals. *)
Lemma build_features_score
    qsqrt macro lag_days days_1m days_1y fill_days f t :
  build_features qsqrt macro lag_days days_1m days_1y fill_days = Ok f ->
  wf_frame macro ->
  t < length (df_index macro) ->
  has_column f "curve_10y2y" = true \/ has_column f "credit_chg_1m" = true \/
    has_column f "vix_chg_1m" = true ->
  cell_at f "risk_off_score" t = Some (Some (inject_Z (Z.of_nat (signals_fired f t)))) /\
  signals_fired f t <= 3.
Proof.
  intros H Hwf Ht Hcols.
  destruct (build_features_stages _ _ _ _ _ _ _ H)
    as (d1 & d2 & d4 & d5 & H1 & H2 & H4 & H5 & ->).
  destruct (stages_extend _ _ _ _ _ _ _ _ _ _ H1 H2 H4 H5) as (Hidx & _ & Hwf5).
  split.
  - rewrite signals_fired_score. apply add_risk_off_score_value; [auto|congruence|].
    apply stress_signals_nonempty.
    rewrite <- !(has_column_lookup (add_risk_off_score d5) d5)
      by (by apply add_risk_off_score_other).
    done.
  - unfold signals_fired.
    pose proof (signal_at_le (add_risk_off_score d5) "curve_10y2y" (fun q => Qltb q 0) t).
    pose proof (signal_at_le (add_risk_off_score d5) "credit_chg_1m" (fun q => Qltb 0 q) t).
    pose proof (signal_at_le (add_risk_off_score d5) "vix_chg_1m" (fun q => Qltb 0 q) t).
    lia.
Qed.

(** X11: when the returned table holds at least one of [curve_10y2y],
    [credit_chg_1m] and [vix_chg_1m], its [risk_off_score] is, on every
    date, the number of sub-signals that fire on that row (curve below
    zero, credit change above zero, volatility change above zero) among
    the columns present: an integer between 0 and 3, never NaN, with a
    NaN input cell counted as a signal that does not fire. *)
Theorem risk_off_score_counts_signals
    qsqrt macro lag_days days_1m days_1y fill_days f t :
  build_features qsqrt macro lag_days days_1m days_1y fill_days = Ok f ->
  wf_frame macro ->
  t < length (df_index macro) ->
  has_column f "curve_10y2y" = true \/ has_column f "credit_chg_1m" = true \/
    has_column f "vix_chg_1m" = true ->
  cell_at f "risk_off_score" t = Some (Some (inject_Z (Z.of_nat (signals_fired f t)))) /\
  signals_fired f t <= 3.
Proof. apply build_features_score. Qed.

Lemma risk_off_score_counts_signals_witness :
  exists f,
    build_features Examples.stand_in_sqrt Examples.raw 1 1 2 1 = Ok f /\
    wf_frame Examples.raw /\
    3 < length (df_index Examples.raw) /\
    (has_column f "curve_10y2y" = true \/ has_column f "credit_chg_1m" = true \/
       has_column f "vix_chg_1m" = true) /\
    cell_at f "risk_off_score" 3 = Some (Some (inject_Z (Z.of_nat (signals_fired f 3)))) /\
    signals_fired f 3 <= 3.
Proof.
  assert (wf_frame Examples.raw) as Hwf
    by (apply (bool_decide_unpack _); vm_compute; exact I).
  eexists. split; [vm_compute; reflexivity|]. split; [exact Hwf|].
  split; [simpl; lia|]. split; [left; vm_compute; reflexivity|].
  apply (risk_off_score_counts_signals Examples.stand_in_sqrt Examples.raw 1 1 2 1 _ 3);
    [vm_compute; reflexivity | exact Hwf | simpl; lia | left; vm_compute; reflexivity].
Defined.

(** ** From raw series to labels *)

Lemma has_column_extends a b c :
  frame_extends a b -> has_column a c = true -> has_column b c = true.
Proof. intros (_ & H & _). apply H. Qed.

Lemma has_column_lookup_Some df c s :
  df_columns df !! c = Some s -> has_column df c = true.
Proof. intros H. apply has_column_true. eauto. Qed.

Lemma add_risk_off_score_present df :
  stress_signals df <> [] -> has_column (add_risk_off_score df) "risk_off_score" = true.
Proof.
  intros H. unfold add_risk_off_score. destruct (stress_signals df); [done|].
  apply has_column_setcol. by left.
Qed.

(** With the four raw series present, the returned table holds every
    column the classifier reads. *)
Lemma build_features_classifier_columns
    qsqrt macro lag_days days_1m days_1y fill_days f :
  build_features qsqrt macro lag_days days_1m days_1y fill_days = Ok f ->
  Forall (fun c => has_column macro c = true) raw_columns ->
  Forall (fun c => has_column f c = true) classifier_columns.
Proof.
  intros H Hraw.
  destruct (build_features_stages _ _ _ _ _ _ _ H)
    as (d1 & d2 & d4 & d5 & H1 & H2 & H4 & H5 & ->).
  assert (frame_extends macro d1) as E1.
  { eapply frame_extends_trans; [apply frame_extends_shift|].
    by eapply frame_extends_ffill. }
  pose proof (frame_extends_add_curve _ _ _ _ _ H2) as E2.
  pose proof (frame_extends_add_rates_momentum days_1m "ust_10y" d2) as E3a.
  pose proof (frame_extends_add_rates_momentum days_1m "ust_2y"
                (add_rates_momentum days_1m "ust_10y" d2)) as E3b.
  pose proof (frame_extends_add_credit _ _ _ _ _ _ H4) as E4.
  pose proof (frame_extends_add_volatility _ _ _ _ _ _ H5) as E5.
  pose proof (frame_extends_add_risk_off_score d5) as E6.
  unfold raw_columns in Hraw.
  repeat match goal with
  | H : Forall _ (_ :: _) |- _ =>
      let Hc := fresh "Hc" in apply Forall_cons in H as [Hc H]
  end.
  apply (has_column_extends _ _ _ E1), has_column_true in Hc as [a Ha].
  apply (has_column_extends _ _ _ E1), has_column_true in Hc0 as [b Hb].
  apply (has_column_extends _ _ _ E1) in Hc1.
  apply (has_column_extends _ _ _ E1) in Hc2.
  destruct (add_curve_writes _ _ _ _ _ _ _ H2 Ha Hb) as (zc & _ & Hcurve & _).
  apply has_column_lookup_Some in Hcurve.
  apply has_column_lookup_Some in Ha, Hb.
  apply (has_column_extends _ _ _ E2), has_column_true in Ha as [a' Ha].
  pose proof (has_column_lookup_Some _ _ _
                (add_rates_momentum_writes days_1m "ust_10y" _ _ Ha)) as Hm10.
  apply (has_column_extends _ _ _ E2), (has_column_extends _ _ _ E3a),
    has_column_true in Hb as [b' Hb].
  pose proof (has_column_lookup_Some _ _ _
                (add_rates_momentum_writes days_1m "ust_2y" _ _ Hb)) as Hm2.
  apply (has_column_extends _ _ _ E2), (has_column_extends _ _ _ E3a),
    (has_column_extends _ _ _ E3b), has_column_true in Hc1 as [x Hx].
  destruct (add_credit_writes _ _ _ _ _ _ _ H4 Hx) as (z & _ & _ & Hcc & Hcz).
  apply has_column_lookup_Some in Hcc, Hcz.
  apply (has_column_extends _ _ _ E2), (has_column_extends _ _ _ E3a),
    (has_column_extends _ _ _ E3b), (has_column_extends _ _ _ E4),
    has_column_true in Hc2 as [v Hv].
  destruct (add_volatility_writes _ _ _ _ _ _ _ H5 Hv) as (z' & _ & Hvl & Hvc & _).
  apply has_column_lookup_Some in Hvl, Hvc.
  assert (has_column d5 "curve_10y2y" = true) as Hcurve5.
  { by apply (has_column_extends _ _ _ E5), (has_column_extends _ _ _ E4),
      (has_column_extends _ _ _ E3b), (has_column_extends _ _ _ E3a). }
  unfold classifier_columns, required. simpl.
  repeat apply Forall_cons_2; try apply Forall_nil_2.
  - by apply (has_column_extends _ _ _ E6), (has_column_extends _ _ _ E5),
      (has_column_extends _ _ _ E4).
  - by apply (has_column_extends _ _ _ E6), (has_column_extends _ _ _ E5),
      (has_column_extends _ _ _ E4), (has_column_extends _ _ _ E3b).
  - by apply (has_column_extends _ _ _ E6).
  - by apply (has_column_extends _ _ _ E6), (has_column_extends _ _ _ E5).
  - by apply (has_column_extends _ _ _ E6).
  - by apply (has_column_extends _ _ _ E6).
  - by apply (has_column_extends _ _ _ E6), (has_column_extends _ _ _ E5).
  - apply add_risk_off_score_present, stress_signals_nonempty. by left.
Qed.



(** X13: the label of a date depends on no raw observation later than
    the day before: on two raw tables over the same dates and columns that
    agree on every row up to row [t - 1], [main]'s feature and label
    computation ends alike, with the same feature row and the same label
    on row [t]. *)
Theorem labels_read_no_later_raw_row qsqrt m1 m2 (t : nat) :
  frames_agree (Z.of_nat t - 1) m1 m2 ->
  result_rel
    (fun r1 r2 : DataFrame * LabelSeries =>
       row_at r1.1 t = row_at r2.1 t /\ r1.2 !! t = r2.2 !! t)
    (features_and_regimes qsqrt m1) (features_and_regimes qsqrt m2).
Proof.
  intros H. unfold features_and_regimes.
  eapply result_rel_bind; [apply (build_features_agree qsqrt m1 m2 1 21 252 5 t);
                             [lia|exact H]|].
  intros f1 f2 Hf.
  eapply result_rel_bind; [by apply rule_based_regime_agree|].
  intros l1 l2 [_ Hl]. simpl. split; [by apply frames_agree_row_at|].
  apply Hl. lia.
Qed.

Lemma labels_read_no_later_raw_row_witness :
  frames_agree (Z.of_nat 3 - 1) Examples.raw Examples.raw_altered /\
  result_rel
    (fun r1 r2 : DataFrame * LabelSeries =>
       row_at r1.1 3 = row_at r2.1 3 /\ r1.2 !! 3 = r2.2 !! 3)
    (features_and_regimes Examples.stand_in_sqrt Examples.raw)
    (features_and_regimes Examples.stand_in_sqrt Examples.raw_altered).
Proof.
  assert (frames_agree (Z.of_nat 3 - 1) Examples.raw Examples.raw_altered) as H.
  { apply (frames_agree_alter _ _ _ [Some 15; Some 16; Some 17; Some 14]%Q);
      [reflexivity|].
    split; [reflexivity|].
    intros [|[|[|i]]] Hi; try reflexivity. lia. }
  split; [exact H|].
  apply (labels_read_no_later_raw_row Examples.stand_in_sqrt _ _ 3 H).
Defined.
(** The day counts of the distinct labels add up to the number of dates. *)

(** ** The regime distribution *)

Lemma count_partition (ks : list string) (vals : list string) :
  NoDup ks -> (forall v, v ∈ vals -> v ∈ ks) ->
  sum_list ((fun k => length (filter (fun v => v = k) vals)) <$> ks) = length vals.
Proof.
  revert vals. induction ks as [|k ks IH]; intros vals Hnd Hin.
  - destruct vals as [|v vals]; [done|].
    specialize (Hin v (list_elem_of_here _ _)). by apply elem_of_nil in Hin.
  - apply NoDup_cons in Hnd as [Hk Hnd]. simpl.
    rewrite <- (Permutation_length (filter_app_complement (fun v => v = k) vals)).
    rewrite length_app. unfold id at 1. f_equal.
    rewrite <- (IH (filter (fun v => v <> k) vals) Hnd).
    + f_equal. apply Forall_fmap_ext, Forall_forall. intros k' Hk'.
      rewrite list_filter_filter_l; [done|]. intros v -> ->. done.
    + intros v Hv. apply list_elem_of_filter in Hv as [Hne Hv].
      apply Hin, elem_of_cons in Hv as [->|Hv]; done.
Qed.

Lemma value_counts_total vals :
  sum_list (snd <$> value_counts vals) = length vals.
Proof.
  rewrite (value_counts_Permutation vals), <- list_fmap_compose.
  apply count_partition; [apply NoDup_remove_dups|].
  intros v Hv. by apply elem_of_remove_dups.
Qed.

(** X14: the day counts of the distribution table add up to the number of
    dates of the label series, and the total attached to the table, when
    asked for, is that number. *)
Theorem distribution_days_add_up regimes include_total :
  let table := regime_distribution regimes include_total in
  sum_list (dist_days <$> dist_rows table) = length regimes /\
  dist_total_days table = (if include_total then Some (length regimes) else None).
Proof.
  intros table. subst table.
  assert (sum_list (snd <$> value_counts (snd <$> _normalize_regime regimes))
          = length regimes) as Htot.
  { rewrite value_counts_total. unfold _normalize_regime.
    by rewrite !length_fmap. }
  split.
  - rewrite regime_distribution_unfold. cbv zeta.
    rewrite merge_sort_Permutation, <- list_fmap_compose.
    rewrite <- Htot. f_equal.
  - unfold regime_distribution. simpl. by rewrite Htot.
Qed.
(** The keys of a record that the score shares leave alone. *)

(** ** The stress-window scorecard *)

Lemma scorecard_row_base_key reg target ros thresholds w k :
  (forall st, k <> share_key st) ->
  dict_get k (scorecard_row reg target ros thresholds w)
  = dict_get k (scorecard_row reg target None thresholds w).
Proof.
  intros Hk. unfold scorecard_row.
  destruct (length _ =? 0)%nat; [done|].
  destruct ros; [|done]. by apply dict_get_shares.
Qed.

Lemma filter_ext_iff {A} (P Q : A -> Prop) `{forall x, Decision (P x)}
    `{forall x, Decision (Q x)} (l : list A) :
  (forall x, P x <-> Q x) -> filter P l = filter Q l.
Proof. intros HPQ. by apply list_filter_iff. Qed.

Lemma bool_mean_fmap {A} (f : A -> bool) (l : list A) :
  bool_mean (f <$> l) =
  match l with
  | [] => CNaN
  | _ :: _ => CFloat (inject_Z (Z.of_nat (length (filter (fun x => f x = true) l)))
                      / inject_Z (Z.of_nat (length l)))
  end.
Proof.
  destruct l as [|a l]; [done|].
  change (bool_mean (f <$> a :: l))
    with (CFloat (inject_Z (Z.of_nat (length (filter (fun x => x = true) (f <$> a :: l))))
                  / inject_Z (Z.of_nat (length (f <$> a :: l))))).
  by rewrite filter_fmap, !length_fmap.
Qed.

(** X15: the record of an episode counts the dates of the series inside
    the closed window as [n_obs]; its crisis share is the number of those
    dates labelled with the target over [n_obs] (NaN when the window holds
    no date), a fraction between 0 and 1; and its first crisis date is the
    first such date in series order, NaT when there is none. *)
Theorem scorecard_window_counts reg target ros thresholds w :
  let sub := filter (fun p : Z * string => (w_start w <= p.1 <= w_end w)%Z) reg in
  let crisis := filter (fun p : Z * string => p.2 = target) sub in
  let row := scorecard_row reg target ros thresholds w in
  dict_get "n_obs" row = Some (CInt (Z.of_nat (length sub))) /\
  dict_get "crisis_share" row =
    Some (match sub with
          | [] => CNaN
          | _ :: _ => CFloat (inject_Z (Z.of_nat (length crisis))
                              / inject_Z (Z.of_nat (length sub)))
          end) /\
  dict_get "first_crisis_date" row =
    Some (match crisis with p :: _ => CDate p.1 | [] => CNaT end) /\
  length crisis <= length sub.
Proof.
  intros sub crisis row. subst row crisis.
  rewrite !(scorecard_row_base_key reg target ros)
    by (intros st; unfold share_key; simpl; discriminate).
  unfold scorecard_row. rewrite window_rows. fold sub. clearbody sub.
  assert (forall l : list (Z * string),
            filter (fun x : Z * string => (x.1, bool_decide (x.2 = target)).2 = true) l
            = filter (fun p : Z * string => p.2 = target) l) as Hfil.
  { intros l. apply filter_ext_iff. intros x. simpl. by rewrite bool_decide_eq_true. }
  split; [|split; [|split]]; [| | |apply length_filter].
  - by destruct sub.
  - destruct (length sub =? 0)%nat eqn:Hn.
    { apply Nat.eqb_eq, nil_length_inv in Hn. by rewrite Hn. }
    simpl. rewrite <- list_fmap_compose, bool_mean_fmap.
    change (fun x : Z * string =>
              (snd ∘ (fun p0 : Z * string => (p0.1, bool_decide (p0.2 = target)))) x = true)
      with (fun x : Z * string => (x.1, bool_decide (x.2 = target)).2 = true).
    by rewrite Hfil.
  - destruct (length sub =? 0)%nat eqn:Hn.
    { apply Nat.eqb_eq, nil_length_inv in Hn. by rewrite Hn. }
    simpl. unfold first_crisis. rewrite filter_fmap, Hfil.
    by destruct (filter _ sub).
Qed.
Lemma string_length_app (s1 s2 : string) :
  String.length (s1 ++ s2)%string = String.length s1 + String.length s2.
Proof. induction s1 as [|a s1 IH]; simpl; [done|]. by rewrite IH. Qed.

Lemma string_app_inj_l (s1 s2 t : string) :
  (s1 ++ t)%string = (s2 ++ t)%string -> s1 = s2.
Proof.
  revert s2. induction s1 as [|a s1 IH]; intros [|b s2] H; simpl in H.
  - done.
  - apply (f_equal String.length) in H. simpl in H.
    rewrite ?string_length_app in H. simpl in H. lia.
  - apply (f_equal String.length) in H. simpl in H.
    rewrite ?string_length_app in H. simpl in H. lia.
  - injection H as -> H. f_equal. by apply IH.
Qed.

#[global] Instance share_key_inj : Inj (=) (=) share_key.
Proof.
  intros a b H. unfold share_key in H.
  apply (String.app_inj "risk_off_score>=") in H.
  apply string_app_inj_l in H. by apply (inj pretty) in H.
Qed.

Lemma dict_get_set_eq k v d : dict_get k (dict_set k v d) = Some v.
Proof.
  induction d as [|[k' v'] d IH]; simpl.
  - by rewrite decide_True.
  - destruct (decide (k' = k)) as [->|Hne]; simpl.
    + by rewrite decide_True.
    + by rewrite decide_False.
Qed.

(** After the loop over the thresholds, the record holds under the key
    of each threshold the share computed for it, and no other score key. *)
Lemma dict_get_fold_share (f : Z -> cell) thresholds (row : dict) st :
  dict_get (share_key st)
    (foldl (fun (r : dict) (st : Z) => dict_set (share_key st) (f st) r) row thresholds)
  = if decide (st ∈ thresholds) then Some (f st) else dict_get (share_key st) row.
Proof.
  revert row. induction thresholds as [|st' thr IH]; intros row.
  - destruct (decide (st ∈ [])) as [Hin|_]; [by apply elem_of_nil in Hin|done].
  - change (foldl ?g row (st' :: thr))
      with (foldl g (dict_set (share_key st') (f st') row) thr).
    rewrite IH.
    destruct (decide (st ∈ thr)) as [Hin|Hnin];
      destruct (decide (st ∈ st' :: thr)) as [Hin'|Hnin']; try done.
    + exfalso. apply Hnin'. by right.
    + apply elem_of_cons in Hin' as [->|?]; [|done]. apply dict_get_set_eq.
    + apply dict_get_set_ne. intros ->%(inj share_key). apply Hnin'. by left.
Qed.
(** The rows of a second column that a window mask selects. *)
Lemma select_mask_zip {A B} (f : A -> bool) (l : list A) (k : list B) :
  select_mask (f <$> l) k = snd <$> filter (fun pr : A * B => f pr.1 = true) (zip l k).
Proof.
  unfold select_mask. rewrite (zip_with_fmap_l pair f l k).
  rewrite (zip_with_zip (fun z => pair (f z)) l k).
  rewrite filter_fmap, <- list_fmap_compose.
  rewrite (filter_ext_iff _ (fun pr : A * B => f pr.1 = true)) by (by intros [a b]).
  apply list_fmap_ext. by intros i [a b] _.
Qed.

Lemma window_pairs {B} (reg : list (Z * string)) (k : list B) w :
  filter (fun pr : (Z * string) * B =>
            (w_start w <=? pr.1.1)%Z && (pr.1.1 <=? w_end w)%Z = true) (zip reg k)
  = filter (fun pr : (Z * string) * B => (w_start w <= pr.1.1 <= w_end w)%Z) (zip reg k).
Proof.
  apply filter_ext_iff. intros pr.
  rewrite andb_true_iff, !Z.leb_le. done.
Qed.

(** X16: with a score column aligned to the label series, the record of
    an episode that holds at least one date carries, for every threshold
    of the list, the share of the window's dates whose score is a number
    at or above the threshold: a date with a missing score counts in the
    denominator only, and thresholds do not overwrite one another. *)
Theorem score_share_by_threshold reg target (ros : Series) thresholds w st :
  let rows_in :=
    filter (fun pr : (Z * string) * option Q => (w_start w <= pr.1.1 <= w_end w)%Z)
           (zip reg ros) in
  length ros = length reg ->
  st ∈ thresholds ->
  rows_in <> [] ->
  dict_get (share_key st) (scorecard_row reg target (Some ros) thresholds w) =
  Some (CFloat
          (inject_Z (Z.of_nat (length
             (filter (fun pr : (Z * string) * option Q =>
                        test_cell (fun q => Qle_bool (inject_Z st) q) pr.2 = true)
                     rows_in)))
           / inject_Z (Z.of_nat (length rows_in)))).
Proof.
  intros rows_in Hlen Hst Hne. unfold scorecard_row.
  rewrite window_rows.
  assert (length (filter (fun p : Z * string => (w_start w <= p.1 <= w_end w)%Z) reg)
          = length rows_in) as Hn.
  { unfold rows_in. rewrite <- (fst_zip reg ros) at 1 by lia.
    by rewrite filter_fmap, length_fmap. }
  rewrite Hn. destruct (length rows_in =? 0)%nat eqn:H0.
  { apply Nat.eqb_eq, nil_length_inv in H0. done. }
  rewrite dict_get_fold_share, decide_True by done.
  rewrite select_mask_zip, window_pairs. fold rows_in.
  unfold ge_scalar, cmp_scalar. rewrite <- list_fmap_compose, bool_mean_fmap.
  by destruct rows_in.
Qed.

Lemma score_share_by_threshold_witness :
  let reg := [(1, CRISIS); (2, TRANSITION); (3, CRISIS)]%Z in
  let ros := [Some 3; None; Some 2]%Q in
  let w := mkWindow "all" 1 3 in
  let rows_in :=
    filter (fun pr : (Z * string) * option Q => (w_start w <= pr.1.1 <= w_end w)%Z)
           (zip reg ros) in
  length ros = length reg /\
  3%Z ∈ [2; 3]%Z /\
  rows_in <> [] /\
  dict_get (share_key 3) (scorecard_row reg CRISIS (Some ros) [2; 3]%Z w) =
  Some (CFloat
          (inject_Z (Z.of_nat (length
             (filter (fun pr : (Z * string) * option Q =>
                        test_cell (fun q => Qle_bool (inject_Z 3) q) pr.2 = true)
                     rows_in)))
           / inject_Z (Z.of_nat (length rows_in)))).
Proof.
  intros reg ros w rows_in.
  assert (3%Z ∈ [2; 3]%Z) as Hst by (apply list_elem_of_further, list_elem_of_here).
  assert (rows_in <> []) as Hne by (vm_compute; discriminate).
  split; [reflexivity|]. split; [exact Hst|]. split; [exact Hne|].
  apply (score_share_by_threshold reg CRISIS ros [2; 3]%Z w 3%Z eq_refl Hst Hne).
Defined.
Lemma elem_of_unique_from x seen l :
  x ∈ unique_from seen l <-> x ∈ l /\ x ∉ seen.
Proof.
  revert seen. induction l as [|y l IH]; intros seen; simpl.
  - split; [by intros ?%elem_of_nil|by intros [?%elem_of_nil _]].
  - destruct (decide (y ∈ seen)) as [Hy|Hy].
    + rewrite IH, elem_of_cons. split; [tauto|].
      intros [[->|?] ?]; [done|tauto].
    + rewrite !elem_of_cons, IH, elem_of_cons.
      destruct (decide (x = y)) as [->|Hne]; [tauto|]. tauto.
Qed.

Lemma NoDup_unique_from seen l : NoDup (unique_from seen l).
Proof.
  revert seen. induction l as [|y l IH]; intros seen; simpl; [constructor|].
  destruct (decide (y ∈ seen)); [apply IH|].
  apply NoDup_cons. split; [|apply IH].
  rewrite elem_of_unique_from, elem_of_cons. tauto.
Qed.

Lemma dict_set_keys k v (d : dict) k' :
  k' ∈ (dict_set k v d).*1 -> k' = k \/ k' ∈ d.*1.
Proof.
  induction d as [|[k0 v0] d IH]; simpl.
  - intros ?%list_elem_of_singleton. by left.
  - destruct (decide (k0 = k)) as [->|Hne]; simpl; rewrite !elem_of_cons; tauto.
Qed.

Lemma fold_share_keys (f : Z -> cell) thresholds (row : dict) k :
  k ∈ (foldl (fun (r : dict) (st : Z) => dict_set (share_key st) (f st) r)
             row thresholds).*1 ->
  k ∈ row.*1 \/ exists st, k = share_key st.
Proof.
  revert row. induction thresholds as [|st thr IH]; intros row; simpl; [by left|].
  intros [H|H]%IH; [|by right].
  apply dict_set_keys in H as [->|H]; eauto.
Qed.

(** The keys of a record: the nine fixed ones and score-share keys. *)
Lemma scorecard_row_keys reg target ros thresholds w k :
  k ∈ (scorecard_row reg target ros thresholds w).*1 ->
  k ∈ record_keys \/ exists st, k = share_key st.
Proof.
  unfold scorecard_row. destruct (length _ =? 0)%nat; [by left|].
  destruct ros as [ros|]; [|by left].
  intros [H|H]%fold_share_keys; [by left|by right].
Qed.

Lemma frame_of_records_columns (rows : list dict) c :
  c ∈ tb_columns (frame_of_records rows) <-> exists r, r ∈ rows /\ c ∈ r.*1.
Proof.
  unfold frame_of_records. simpl. rewrite elem_of_unique_from.
  rewrite list_elem_of_In, in_concat. split.
  - intros [(l & Hl & Hc) _]. apply list_elem_of_In, list_elem_of_fmap in Hl as (r & -> & Hr).
    exists r. split; [done|]. by apply list_elem_of_In.
  - intros (r & Hr & Hc). split; [|apply not_elem_of_nil].
    exists (r.*1). split; [|by apply list_elem_of_In].
    apply list_elem_of_In, list_elem_of_fmap. eauto.
Qed.

(** The name a column takes in [out.rename(columns=...)]. *)
Lemma share_key_head st : exists s, share_key st = ("risk_off_score>=" ++ s)%string.
Proof. unfold share_key. eauto. Qed.

Lemma renamed_cases k :
  default k (assoc k rename_map) = k \/
  (k, default k (assoc k rename_map)) ∈ rename_map.
Proof.
  unfold rename_map. simpl.
  repeat match goal with
  | |- context [decide (?a = k)] =>
      destruct (decide (a = k)) as [<-|?]; [right; simpl; in_list|]
  end.
  by left.
Qed.
Lemma not_scaled_name c k :
  c ∈ scaled_columns ->
  k ∈ record_keys \/ (exists st, k = share_key st) ->
  default k (assoc k rename_map) <> c.
Proof.
  intros Hc Hk Heq.
  assert (Forall (fun c => (c ∉ record_keys) /\ (c ∉ rename_map.*2)) scaled_columns) as Hno
    by (apply (bool_decide_unpack _); vm_compute; exact I).
  rewrite Forall_forall in Hno. destruct (Hno c Hc) as [Hrec Hval].
  destruct (renamed_cases k) as [Hr|Hr]; rewrite Heq in Hr.
  - subst k. destruct Hk as [Hk|[st Hst]]; [done|].
    destruct (share_key_head st) as [s Hs]. rewrite Hs in Hst.
    unfold scaled_columns in Hc.
    repeat (apply elem_of_cons in Hc as [->|Hc]); try discriminate.
    by apply elem_of_nil in Hc.
  - apply Hval, list_elem_of_fmap. by exists (k, c).
Qed.

Lemma scale_column_absent c t : c ∉ tb_columns t -> scale_column c t = t.
Proof. intros H. unfold scale_column. by rewrite decide_False. Qed.

(** The report is the renamed frame of the records. *)
Lemma scorecard_report_renamed regimes windows target risk_off_score
    score_threshold :
  scorecard_report regimes windows target risk_off_score score_threshold
  = rename_columns rename_map
      (frame_of_records
         (scorecard_rows regimes windows target risk_off_score score_threshold)).
Proof.
  unfold scorecard_report.
  set (rows := scorecard_rows _ _ _ _ _).
  assert (forall c, c ∈ scaled_columns ->
            c ∉ tb_columns (rename_columns rename_map (frame_of_records rows))) as Hno.
  { intros c Hc Hin. unfold rename_columns in Hin. simpl in Hin.
    apply list_elem_of_fmap in Hin as (k & Heq & Hk).
    change (unique_from [] _) with (tb_columns (frame_of_records rows)) in Hk.
    apply frame_of_records_columns in Hk as (r & Hr & Hk).
    unfold rows, scorecard_rows in Hr.
    apply list_elem_of_fmap in Hr as (w & -> & _).
    apply scorecard_row_keys in Hk.
    by apply (not_scaled_name c k Hc Hk). }
  change ["Crisis (%)"; "Score≥2 (%)"; "Score≥3 (%)"] with scaled_columns.
  unfold scaled_columns in *. simpl.
  rewrite (scale_column_absent "Crisis (%)") by (apply Hno; in_list).
  rewrite (scale_column_absent "Score≥2 (%)") by (apply Hno; in_list).
  by rewrite (scale_column_absent "Score≥3 (%)") by (apply Hno; in_list).
Qed.

(** X17: the loop that multiplies the columns "Crisis (%)", "Score≥2 (%)"
    and "Score≥3 (%)" by 100 never finds one of them, whatever the inputs:
    the report is the renamed frame of the records, so its "Crisis Days
    (%)" and "Score ≥ n (%)" columns hold fractions, not percentages. *)
Theorem percent_scaling_never_applies regimes windows target risk_off_score
    score_threshold :
  scorecard_report regimes windows target risk_off_score score_threshold
  = rename_columns rename_map
      (frame_of_records
         (scorecard_rows regimes windows target risk_off_score score_threshold)).
Proof. apply scorecard_report_renamed. Qed.
Lemma dict_get_Some k (d : dict) : k ∈ d.*1 -> exists v, dict_get k d = Some v.
Proof.
  induction d as [|[k' v'] d IH]; simpl; [by intros ?%elem_of_nil|].
  destruct (decide (k' = k)) as [->|Hne]; [eauto|].
  intros [?|?]%elem_of_cons; [done|auto].
Qed.

Lemma rename_map_assoc k c : (k, c) ∈ rename_map -> assoc k rename_map = Some c.
Proof.
  unfold rename_map. intros H.
  repeat (apply elem_of_cons in H as [[= -> ->]|H]; [by vm_compute|]).
  by apply elem_of_nil in H.
Qed.

(** Renaming sends no other key of a record to a display name. *)
Lemma renamed_inj k c k' :
  (k, c) ∈ rename_map ->
  k' ∈ record_keys \/ (exists st, k' = share_key st) ->
  default k' (assoc k' rename_map) = c -> k' = k.
Proof.
  intros Hkc Hk' Heq.
  assert (Forall (fun p : string * string =>
            Forall (fun q : string * string => p.2 = q.2 -> p.1 = q.1) rename_map /\
            (p.2 ∉ record_keys)) rename_map) as Huniq
    by (apply (bool_decide_unpack _); vm_compute; exact I).
  rewrite Forall_forall in Huniq. destruct (Huniq _ Hkc) as [Hu Hrec].
  rewrite Forall_forall in Hu.
  destruct (renamed_cases k') as [Hr|Hr]; rewrite Heq in Hr.
  - subst k'. destruct Hk' as [Hk'|[st Hst]]; [done|].
    destruct (share_key_head st) as [s Hs]. rewrite Hs in Hst. exfalso.
    revert Hkc. unfold rename_map. intros Hkc.
    repeat (apply elem_of_cons in Hkc as [[= -> ->]|Hkc]; [discriminate|]).
    by apply elem_of_nil in Hkc.
  - symmetry. exact (Hu (k', c) Hr eq_refl).
Qed.

Lemma list_find_fmap_inj (ren : string -> string) (cols : list string) k :
  k ∈ cols ->
  (forall k', k' ∈ cols -> ren k' = ren k -> k' = k) ->
  exists j, list_find (fun name => name = ren k) (ren <$> cols) = Some (j, ren k) /\
            cols !! j = Some k.
Proof.
  intros Hk Hinj.
  destruct (list_find_elem_of (fun name => name = ren k) (ren <$> cols) (ren k))
    as [[j x] Hf]; [by apply list_elem_of_fmap_2|done|].
  pose proof Hf as Hf'. apply list_find_Some in Hf' as (Hj & -> & _).
  exists j. split; [done|].
  rewrite list_lookup_fmap in Hj.
  destruct (cols !! j) as [k'|] eqn:Hk'; [|done]. simpl in Hj. injection Hj as Hj.
  f_equal. apply Hinj; [by eapply list_elem_of_lookup_2|done].
Qed.

(** A cell of the selected table: the cell of the same name. *)
Lemma select_columns_cell keep t i c :
  i < length (tb_rows t) -> c ∈ keep -> c ∈ tb_columns t ->
  table_cell (select_columns keep t) i c = Some (default CNaN (table_cell t i c)).
Proof.
  intros Hi Hk Hc. unfold table_cell at 1, select_columns. simpl.
  rewrite list_lookup_fmap, lookup_seq_0 by done. simpl.
  set (keep' := filter (fun c => c ∈ tb_columns t) keep).
  assert (c ∈ keep') as Hc' by (by apply list_elem_of_filter).
  destruct (list_find_elem_of (fun name => name = c) keep' c Hc' eq_refl)
    as [[j x] Hf].
  rewrite Hf. simpl. apply list_find_Some in Hf as (Hj & -> & _).
  by rewrite list_lookup_fmap, Hj.
Qed.
Lemma length_scorecard_rows regimes windows target risk_off_score score_threshold :
  length (scorecard_rows regimes windows target risk_off_score score_threshold)
  = length windows.
Proof. unfold scorecard_rows. by rewrite length_fmap. Qed.

Lemma rename_columns_columns m t :
  tb_columns (rename_columns m t) = (fun c => default c (assoc c m)) <$> tb_columns t.
Proof. reflexivity. Qed.

Lemma rename_columns_cell m t i c :
  table_cell (rename_columns m t) i c =
  row ← tb_rows t !! i;
  j ← fst <$> list_find (fun name => name = c)
                ((fun c => default c (assoc c m)) <$> tb_columns t);
  row !! j.
Proof. reflexivity. Qed.

Lemma frame_of_records_rows (rows : list dict) :
  tb_rows (frame_of_records rows) =
  (fun r : dict => (fun c => default CNaN (dict_get c r))
                     <$> tb_columns (frame_of_records rows)) <$> rows.
Proof. reflexivity. Qed.

(** X18: the returned scorecard has one row per episode, in the order of
    [windows]; it holds neither "Max Run Start" nor "Max Run End"; and the
    cell of a row under a kept display name is the value the episode's
    record holds under the key that is renamed to it. *)
Theorem returned_scorecard_cells regimes windows target risk_off_score score_threshold :
  let rows := scorecard_rows regimes windows target risk_off_score score_threshold in
  let table :=
    stress_window_scorecard regimes windows target risk_off_score score_threshold in
  length (tb_rows table) = length windows /\
  ("Max Run Start" ∉ tb_columns table) /\
  ("Max Run End" ∉ tb_columns table) /\
  forall i r k c,
    rows !! i = Some r -> (k, c) ∈ rename_map -> c ∈ keep_columns -> k ∈ r.*1 ->
    table_cell table i c = dict_get k r.
Proof.
  intros rows table. subst table. unfold stress_window_scorecard.
  rewrite scorecard_report_renamed. fold rows.
  set (t1 := rename_columns rename_map (frame_of_records rows)).
  assert (length (tb_rows t1) = length windows) as Hlen.
  { unfold t1, rename_columns, frame_of_records. simpl.
    rewrite length_fmap. apply length_scorecard_rows. }
  split; [|split; [|split]].
  - unfold select_columns. simpl. by rewrite length_fmap, length_seq.
  - unfold select_columns. simpl. intros [_ Hin]%list_elem_of_filter.
    revert Hin. apply (bool_decide_unpack _). vm_compute. exact I.
  - unfold select_columns. simpl. intros [_ Hin]%list_elem_of_filter.
    revert Hin. apply (bool_decide_unpack _). vm_compute. exact I.
  - intros i r k c Hr Hkc Hc Hk.
    assert (i < length (tb_rows t1)) as Hi.
    { rewrite Hlen, <- (length_scorecard_rows regimes windows target risk_off_score
                          score_threshold).
      by eapply lookup_lt_Some. }
    assert (default k (assoc k rename_map) = c) as Hren
      by (by rewrite (rename_map_assoc _ _ Hkc)).
    assert (k ∈ tb_columns (frame_of_records rows)) as Hk0.
    { apply frame_of_records_columns. exists r. split; [|done].
      by eapply list_elem_of_lookup_2. }
    destruct (list_find_fmap_inj (fun c => default c (assoc c rename_map))
                (tb_columns (frame_of_records rows)) k Hk0) as (j & Hf & Hj).
    { intros k' Hk' Heq. rewrite Hren in Heq.
      apply (renamed_inj k c k' Hkc); [|done].
      apply frame_of_records_columns in Hk' as (r' & Hr' & Hk').
      unfold rows, scorecard_rows in Hr'.
      apply list_elem_of_fmap in Hr' as (w & -> & _).
      by apply scorecard_row_keys in Hk'. }
    rewrite Hren in Hf.
    assert (c ∈ tb_columns t1) as Hc1.
    { unfold t1. rewrite rename_columns_columns, <- Hren.
      by apply (list_elem_of_fmap_2 (fun c => default c (assoc c rename_map))). }
    rewrite (select_columns_cell _ _ _ _ Hi Hc Hc1).
    destruct (dict_get_Some k r Hk) as [v Hv]. rewrite Hv.
    unfold t1. rewrite rename_columns_cell, frame_of_records_rows.
    rewrite list_lookup_fmap, Hr, Hf. cbn [fmap option_fmap option_map mbind option_bind fst].
    rewrite list_lookup_fmap, Hj. simpl. by rewrite Hv.
Qed.
(** Cutting a list into consecutive slices of [k] rows loses nothing. *)

(** ** Report tables *)

Lemma concat_slices {A} (k m : nat) (body : list A) :
  length body <= m * k ->
  concat ((fun j => take k (drop (j * k) body)) <$> seq 0 m) = body.
Proof.
  revert body. induction m as [|m IH]; intros body Hlen.
  - simpl in *. symmetry. apply nil_length_inv. lia.
  - change (seq 0 (S m)) with (0 :: seq 1 m).
    rewrite <- fmap_S_seq, fmap_cons, <- list_fmap_compose. simpl concat.
    transitivity (take k body ++ drop k body); [|apply take_drop].
    f_equal.
    rewrite <- (IH (drop k body)) by (rewrite length_drop; lia).
    f_equal. apply list_fmap_ext. intros i j _. simpl.
    rewrite drop_drop. f_equal; f_equal; lia.
Qed.

Lemma pages_count (n k : nat) :
  0 < k ->
  n <= (n + k - 1) / k * k /\
  (forall j, j < (n + k - 1) / k -> j * k < n) /\
  (forall j, S j < (n + k - 1) / k -> S j * k < n).
Proof.
  intros Hk.
  pose proof (Nat.div_mod_eq (n + k - 1) k) as Hdm.
  pose proof (Nat.mod_upper_bound (n + k - 1) k) as Hmod.
  set (q := (n + k - 1) / k) in *. set (r := (n + k - 1) mod k) in *.
  split; [nia|]. split; intros j Hj; nia.
Qed.

Lemma py_range_positive (n : nat) (step : Z) :
  (1 <= step)%Z ->
  py_range n step
  = Some ((fun j => j * Z.to_nat step) <$> seq 0 ((n + Z.to_nat step - 1) / Z.to_nat step)).
Proof.
  intros H. unfold py_range.
  destruct (Z.eqb_spec step 0); [lia|]. destruct (Z.ltb_spec step 0); [lia|]. done.
Qed.

(** The chunks of a table: header first, slices of the body after it. *)
Lemma chunk_table_rows_positive {A} (header : A) (body : list A) (rows_per_page : Z) :
  (1 <= rows_per_page)%Z ->
  let k := Z.to_nat rows_per_page in
  let pages := (fun j => take k (drop (j * k) body)) <$> seq 0 ((length body + k - 1) / k) in
  _chunk_table_rows (header :: body) rows_per_page
  = inr (match pages with
         | [] => [[header]]
         | _ :: _ => (fun rows => header :: rows) <$> pages
         end).
Proof.
  intros H k pages. unfold _chunk_table_rows.
  rewrite (py_range_positive _ _ H). fold k. rewrite <- list_fmap_compose.
  unfold pages. destruct (seq 0 ((length body + k - 1) / k)) as [|j js]; [done|].
  rewrite !fmap_cons, <- !list_fmap_compose. done.
Qed.

(** X19: with at least one row per page, [_chunk_table_rows] returns at
    least one chunk, every chunk is the header row followed by at most
    [rows_per_page] body rows, every chunk but the last holds exactly
    [rows_per_page] body rows, no chunk is the bare header unless the
    table has no body row, and the body rows of the chunks, put end to
    end, are the body rows of the table. *)
Theorem chunks_partition_body {A} (header : A) (body : list A) (rows_per_page : Z) :
  (1 <= rows_per_page)%Z ->
  exists pages : list (list A),
    _chunk_table_rows (header :: body) rows_per_page
      = inr ((fun rows => header :: rows) <$> pages) /\
    pages <> [] /\
    concat pages = body /\
    Forall (fun rows => length rows <= Z.to_nat rows_per_page) pages /\
    (forall i rows, pages !! i = Some rows -> S i < length pages ->
       length rows = Z.to_nat rows_per_page) /\
    (body <> [] -> Forall (fun rows => rows <> []) pages).
Proof.
  intros H. rewrite (chunk_table_rows_positive header body rows_per_page H). cbv zeta.
  set (k := Z.to_nat rows_per_page). assert (0 < k) as Hk by lia.
  destruct (pages_count (length body) k Hk) as (Hle & Hlt & Hfull).
  set (m := (length body + k - 1) / k) in *.
  pose proof (concat_slices k m body Hle) as Hcat.
  destruct m as [|m'] eqn:Hm.
  - exists [[]]. simpl in *. repeat split; try done.
    + repeat constructor. simpl. lia.
    + intros [|i] rows; simpl; [lia|done].
  - rewrite <- Hm in *.
    set (pages := (fun j => take k (drop (j * k) body)) <$> seq 0 m) in *.
    assert (length pages = m) as Hpl by (unfold pages; by rewrite length_fmap, length_seq).
    exists pages. split.
    { destruct pages as [|p ps] eqn:Hp; [simpl in Hpl; lia|done]. }
    split; [intros Hp; rewrite Hp in Hpl; simpl in Hpl; lia|].
    split; [done|]. split; [|split].
    + unfold pages. apply Forall_fmap, Forall_forall. intros j _. simpl.
      rewrite length_take. lia.
    + intros i rows Hi HSi. unfold pages in Hi.
      rewrite list_lookup_fmap, lookup_seq_0 in Hi by lia. simpl in Hi.
      injection Hi as <-. rewrite length_take, length_drop.
      rewrite Hpl in HSi. specialize (Hfull i HSi). simpl in Hfull. lia.
    + intros _. unfold pages. apply Forall_fmap, Forall_forall.
      intros j Hj%elem_of_seq. simpl. specialize (Hlt j). 
      intros Hnil%(f_equal length). rewrite length_take, length_drop in Hnil.
      simpl in Hnil. lia.
Qed.

Lemma chunks_partition_body_witness :
  (1 <= 2)%Z /\
  exists pages : list (list string),
    _chunk_table_rows ("h" :: ["a"; "b"; "c"]) 2
      = inr ((fun rows => "h" :: rows) <$> pages) /\
    pages <> [] /\
    concat pages = ["a"; "b"; "c"] /\
    Forall (fun rows => length rows <= Z.to_nat 2) pages /\
    (forall i rows, pages !! i = Some rows -> S i < length pages ->
       length rows = Z.to_nat 2) /\
    (["a"; "b"; "c"] <> [] -> Forall (fun rows => rows <> []) pages).
Proof.
  split; [lia|].
  apply (chunks_partition_body "h" ["a"; "b"; "c"] 2). lia.
Defined.
Lemma estimate_rows_per_page_range n_cols :
  (18 <= _estimate_rows_per_page n_cols <= 34)%Z.
Proof.
  unfold _estimate_rows_per_page.
  destruct (n_cols <=? 6)%Z, (n_cols <=? 10)%Z, (n_cols <=? 14)%Z; lia.
Qed.

(** X20: a table rendered whole is always cut into pages without an
    exception: at least one page, each the row of column names followed by
    at most 34 rows of cells (28, 22 or 18 for more than 6, 10 or 14
    columns), and the rows of the pages, put end to end, are the rows of
    the table. *)
Theorem table_pages_cover_the_rows columns values :
  exists pages : list (list (list string)),
    table_pages columns values = inr ((fun rows => columns :: rows) <$> pages) /\
    pages <> [] /\
    concat pages = values /\
    Forall (fun rows =>
              Z.of_nat (length rows) <= _estimate_rows_per_page (Z.of_nat (length columns))
              <= 34)%Z pages.
Proof.
  unfold table_pages.
  pose proof (estimate_rows_per_page_range (Z.of_nat (length columns))) as Hr.
  set (k := _estimate_rows_per_page _) in *.
  assert (1 <= k)%Z as Hk by lia.
  rewrite (chunk_table_rows_positive columns values k Hk). cbv zeta.
  set (kn := Z.to_nat k). assert (0 < kn) as Hkn by lia.
  destruct (pages_count (length values) kn Hkn) as (Hle & _ & _).
  set (m := (length values + kn - 1) / kn) in *.
  pose proof (concat_slices kn m values Hle) as Hcat.
  destruct m as [|m'] eqn:Hm.
  - exists [[]]. simpl in *. repeat split; try done.
    repeat constructor; simpl; lia.
  - rewrite <- Hm in *.
    set (pages := (fun j => take kn (drop (j * kn) values)) <$> seq 0 m) in *.
    assert (length pages = m) as Hpl by (unfold pages; by rewrite length_fmap, length_seq).
    exists pages. split.
    { destruct pages as [|p ps] eqn:Hp; [simpl in Hpl; lia|done]. }
    split; [intros Hp; rewrite Hp in Hpl; simpl in Hpl; lia|].
    split; [done|].
    unfold pages. apply Forall_fmap, Forall_forall. intros j _. simpl.
    rewrite length_take. lia.
Qed.
Lemma unique_from_sublist seen l : unique_from seen l `sublist_of` l.
Proof.
  revert seen. induction l as [|x l IH]; intros seen; simpl; [constructor|].
  destruct (decide (x ∈ seen)); [apply sublist_cons, IH|apply sublist_skip, IH].
Qed.

Lemma unique_from_cons_nil x l : unique_from [] (x :: l) = x :: unique_from [x] l.
Proof.
  simpl. destruct (decide (x ∈ [])) as [H|_]; [by apply elem_of_nil in H|done].
Qed.

(** X21: [_select_group_columns] returns columns of the table without
    repetition: the leading column first when it is a non-empty name of
    the table, then exactly the other columns that match a feature of the
    group (the feature itself, or the feature followed by " |" or " ("),
    in the order of the table. *)
Theorem group_columns_selected all_cols base_feats first_col :
  let out := _select_group_columns all_cols base_feats first_col in
  NoDup out /\
  (forall c, c ∈ out -> c ∈ all_cols) /\
  (forall c, Some c <> first_col ->
     c ∈ out <-> c ∈ all_cols /\ group_match base_feats c = true) /\
  (forall f, first_col = Some f ->
     if bool_decide (f <> "") && bool_decide (f ∈ all_cols)
     then head out = Some f
     else f ∉ out) /\
  filter (fun c => Some c <> first_col) out `sublist_of` all_cols.
Proof.
  intros out. subst out. unfold _select_group_columns.
  set (L := filter (fun c => Some c <> first_col /\ group_match base_feats c = true)
                   all_cols).
  set (keep0 := match first_col with
                | Some f =>
                    if bool_decide (f <> "") && bool_decide (f ∈ all_cols) then [f] else []
                | None => []
                end).
  assert (forall c, c ∈ L <->
            c ∈ all_cols /\ Some c <> first_col /\ group_match base_feats c = true) as HL.
  { intros c. unfold L. rewrite list_elem_of_filter. tauto. }
  assert (forall c, c ∈ keep0 -> first_col = Some c /\ c ∈ all_cols) as Hk0.
  { intros c. unfold keep0. destruct first_col as [f|]; [|by intros ?%elem_of_nil].
    destruct (bool_decide (f <> "")); simpl; [|by intros ?%elem_of_nil].
    destruct (bool_decide (f ∈ all_cols)) eqn:Hin; [|by intros ?%elem_of_nil].
    intros ->%list_elem_of_singleton. by apply bool_decide_eq_true in Hin. }
  assert (forall c, c ∈ unique_from [] (keep0 ++ L) <-> c ∈ keep0 \/ c ∈ L) as Hout.
  { intros c. rewrite elem_of_unique_from, elem_of_app.
    split; [tauto|]. intros H. split; [done|apply not_elem_of_nil]. }
  split; [apply NoDup_unique_from|]. split; [|split; [|split]].
  - intros c [Hc|Hc]%Hout; [by apply Hk0 in Hc as [_ ?]|by apply HL in Hc as [? _]].
  - intros c Hne. rewrite Hout, HL. split.
    + intros [Hc|Hc]; [apply Hk0 in Hc as [Heq _]; congruence|tauto].
    + intros [? ?]. right. tauto.
  - intros f ->. unfold keep0.
    destruct (bool_decide (f <> "") && bool_decide (f ∈ all_cols)) eqn:Hb.
    + change ([f] ++ L) with (f :: L). by rewrite unique_from_cons_nil.
    + intros [Hc|Hc]%Hout.
      * unfold keep0 in Hc. by apply elem_of_nil in Hc.
      * apply HL in Hc as (_ & Hne & _). done.
  - etrans; [|apply (sublist_filter
                      (fun c => Some c <> first_col /\ group_match base_feats c = true))].
    fold L. clear Hk0 Hout. subst keep0. destruct first_col as [f|].
    + destruct (bool_decide (f <> "") && bool_decide (f ∈ all_cols)).
      * change ([f] ++ L) with (f :: L).
        rewrite unique_from_cons_nil, filter_cons, decide_False
          by (intros Hn; by apply Hn).
        etrans; [apply sublist_filter|apply unique_from_sublist].
      * simpl. etrans; [apply sublist_filter|apply unique_from_sublist].
    + simpl. etrans; [apply sublist_filter|apply unique_from_sublist].
Qed.

(** ** Escaping text *)

Lemma string_cons_app x (a b : string) :
  (String x a ++ b)%string = String x (a ++ b)%string.
Proof. reflexivity. Qed.

Lemma string_app_assoc (a b c : string) :
  ((a ++ b) ++ c)%string = (a ++ (b ++ c))%string.
Proof.
  induction a as [|x a IH]; [done|]. by rewrite !string_cons_app, IH.
Qed.

Lemma replace_char_app old new a b :
  replace_char old new (a ++ b)%string
  = (replace_char old new a ++ replace_char old new b)%string.
Proof.
  induction a as [|c a IH]; [done|].
  rewrite string_cons_app. simpl.
  destruct (decide (c = old)); rewrite IH; [|done].
  by rewrite string_app_assoc.
Qed.

Lemma escape_cons c s :
  _escape (Some (String c s)) = (escape_char c ++ _escape (Some s))%string.
Proof.
  unfold _escape, escape_char.
  change (String c s) with (String c "" ++ s)%string.
  rewrite !replace_char_app. f_equal.
  simpl. destruct (decide (c = amp_char)) as [->|Ha]; [by vm_compute|].
  simpl. destruct (decide (c = lt_char)) as [->|Hl]; [by vm_compute|].
  simpl. destruct (decide (c = gt_char)) as [->|Hg]; [by vm_compute|]. done.
Qed.

Lemma chars_app a b : chars (a ++ b)%string = chars a ++ chars b.
Proof. induction a as [|c a IH]; simpl; [done|]. by rewrite IH. Qed.

Lemma escape_char_cases c :
  (c = amp_char /\ escape_char c = "&amp;") \/
  (c = lt_char /\ escape_char c = "&lt;") \/
  (c = gt_char /\ escape_char c = "&gt;") \/
  (c <> amp_char /\ c <> lt_char /\ c <> gt_char /\ escape_char c = String c "").
Proof.
  unfold escape_char.
  destruct (decide (c = amp_char)) as [->|?]; [by left|].
  destruct (decide (c = lt_char)) as [->|?]; [by right; left|].
  destruct (decide (c = gt_char)) as [->|?]; [by right; right; left|].
  by right; right; right.
Qed.

Lemma escape_inj a b : _escape (Some a) = _escape (Some b) -> a = b.
Proof.
  revert b. induction a as [|c a IH]; intros [|d b].
  - done.
  - rewrite escape_cons.
    destruct (escape_char_cases d) as [[_ ->]|[[_ ->]|[[_ ->]|(_ & _ & _ & ->)]]];
      discriminate.
  - rewrite escape_cons.
    destruct (escape_char_cases c) as [[_ ->]|[[_ ->]|[[_ ->]|(_ & _ & _ & ->)]]];
      discriminate.
  - rewrite !escape_cons.
    destruct (escape_char_cases c) as [[-> ->]|[[-> ->]|[[-> ->]|(Hca & Hcl & Hcg & ->)]]];
    destruct (escape_char_cases d) as [[-> ->]|[[-> ->]|[[-> ->]|(Hda & Hdl & Hdg & ->)]]];
      simpl; intros H; try discriminate H;
      try (injection H as H; f_equal; by apply IH);
      try (injection H as ? H; subst; done);
      try (injection H as ? H; subst; f_equal; by apply IH).
Qed.

(** X22: the text [_escape] returns holds no "<" and no ">" character;
    two different texts are never escaped to the same text; and a text
    without "&", "<" and ">" is returned unchanged. *)
Theorem escape_removes_markup :
  (forall x, (lt_char ∉ chars (_escape x)) /\ (gt_char ∉ chars (_escape x))) /\
  (forall a b, _escape (Some a) = _escape (Some b) -> a = b) /\
  (forall s, amp_char ∉ chars s -> lt_char ∉ chars s -> gt_char ∉ chars s ->
     _escape (Some s) = s).
Proof.
  split; [|split].
  - intros [s|]; [|split; apply not_elem_of_nil].
    induction s as [|c s [IHl IHg]]; [split; apply not_elem_of_nil|].
    rewrite escape_cons, chars_app, !elem_of_app.
    destruct (escape_char_cases c) as [[_ ->]|[[_ ->]|[[_ ->]|(_ & Hl & Hg & ->)]]];
      (split; (intros [Hin|Hin]; [|done])); revert Hin;
      try (apply (bool_decide_unpack _); vm_compute; exact I).
    + simpl. intros Heq%list_elem_of_singleton. by symmetry in Heq.
    + simpl. intros Heq%list_elem_of_singleton. by symmetry in Heq.
  - apply escape_inj.
  - induction s as [|c s IH]; [done|]. simpl chars.
    rewrite !not_elem_of_cons. intros [Ha ?] [Hl ?] [Hg ?].
    rewrite escape_cons, IH by done.
    destruct (escape_char_cases c) as [[-> _]|[[-> _]|[[-> _]|(_ & _ & _ & ->)]]]; done.
Qed.

(** ** Regime blocks of the timeline *)

Lemma scan_blocks_head start cur last rest :
  exists b bs, scan_blocks start cur last rest = b :: bs /\
               blk_start b = start /\ blk_label b = cur.
Proof.
  revert start. induction rest as [|[t v] rest IH]; intros start; simpl.
  - eexists _, _. by split.
  - destruct (decide (v <> cur)); [|apply IH]. eexists _, _. by split.
Qed.

Lemma scan_blocks_spec start cur lastd rest :
  let bs := scan_blocks start cur lastd rest in
  blk_end <$> last bs = Some lastd /\
  (forall i b b', bs !! i = Some b -> bs !! S i = Some b' ->
     blk_end b = blk_start b' /\ blk_label b <> blk_label b') /\
  (forall i b, bs !! S i = Some b -> (blk_start b, blk_label b) ∈ rest) /\
  length bs = S (label_changes cur (snd <$> rest)).
Proof.
  revert start cur. induction rest as [|[t v] rest IH]; intros start cur; simpl.
  - repeat split; try done.
  - destruct (decide (v <> cur)) as [Hne|Heq].
    + destruct (IH t v) as (Hlast & Hchain & Hmem & Hlen).
      destruct (scan_blocks_head t v lastd rest) as (b0 & bs0 & Hbs & Hs0 & Hl0).
      rewrite Hbs in *. split; [|split; [|split]].
      * done.
      * intros [|i] b b' Hb Hb'; simpl in *.
        -- injection Hb as <-. injection Hb' as <-. simpl.
           rewrite Hs0, Hl0. split; [done|]. congruence.
        -- by eapply Hchain.
      * intros [|i] b Hb; simpl in *.
        -- injection Hb as <-. rewrite Hs0, Hl0. by left.
        -- right. by eapply Hmem.
      * simpl. f_equal. exact Hlen.
    + apply dec_stable in Heq. subst v.
      destruct (IH start cur) as (Hlast & Hchain & Hmem & Hlen).
      split; [done|]. split; [done|]. split; [|done].
      intros i b Hb. right. by eapply Hmem.
Qed.

(** X23: on a non-empty dated label series the timeline's block scan
    returns at least one block; the first block starts on the first date
    with the first label, the last block ends on the last date, every
    block ends on the date the next one starts on, neighbouring blocks
    have different labels, every later block starts on a row of the
    series that carries its label, and there is one block more than there
    are rows whose label differs from the row before. *)
Theorem regime_blocks_tile_the_series d0 v0 rest :
  let r := (d0, v0) :: rest in
  exists b bs,
    regime_blocks r = Some (b :: bs) /\
    blk_start b = d0 /\ blk_label b = v0 /\
    blk_end <$> last (b :: bs) = last (fst <$> r) /\
    (forall i x y, (b :: bs) !! i = Some x -> (b :: bs) !! S i = Some y ->
       blk_end x = blk_start y /\ blk_label x <> blk_label y) /\
    (forall x, x ∈ bs -> (blk_start x, blk_label x) ∈ rest) /\
    length (b :: bs) = S (label_changes v0 (snd <$> rest)).
Proof.
  intros r. unfold regime_blocks, r.
  set (lastd := default d0 (last (fst <$> (d0, v0) :: rest))).
  destruct (scan_blocks_head d0 v0 lastd rest) as (b & bs & Hbs & Hs & Hl).
  pose proof (scan_blocks_spec d0 v0 lastd rest) as Hspec. cbv zeta in Hspec.
  rewrite Hbs in *. destruct Hspec as (Hlast & Hchain & Hmem & Hlen).
  exists b, bs. split; [done|]. split; [done|]. split; [done|].
  split; [|split; [done|split; [|done]]].
  - rewrite Hlast. unfold lastd.
    destruct (last (fst <$> (d0, v0) :: rest)) as [d|] eqn:Hd; [done|].
    by apply last_None in Hd.
  - intros x [i Hx]%list_elem_of_lookup. by apply (Hmem i).
Qed.
(** ** Downloads with retries *)

(** [k] caught failures in a row, none of them the last attempt, each
    followed by a sleep that returns. *)
Lemma retry_loop_skip {A} (fetch : Z -> outcome A) sleep retries backoff k :
  forall attempt todo last_err trace,
  (forall i, (attempt <= i < attempt + Z.of_nat k)%Z -> exists e, fetch i = Caught e) ->
  (forall i, (attempt <= i < attempt + Z.of_nat k)%Z ->
     sleep (backoff * inject_Z (2 ^ (i - 1)))%Q = None) ->
  (attempt + Z.of_nat k <= retries)%Z ->
  exists le,
    retry_loop fetch sleep retries backoff attempt (k + todo) last_err trace
    = retry_loop fetch sleep retries backoff (attempt + Z.of_nat k) todo le
        (reverse (failed_from backoff attempt k) ++ trace).
Proof.
  induction k as [|k IH]; intros attempt todo last_err trace Hfail Hsleep Hle.
  - exists last_err. simpl. by rewrite Z.add_0_r.
  - destruct (Hfail attempt) as [e He]; [lia|].
    change (S k + todo) with (S (k + todo)). simpl retry_loop. rewrite He.
    destruct (Z.ltb_spec attempt retries); [|lia].
    rewrite (Hsleep attempt) by lia.
    destruct (IH (attempt + 1)%Z todo (Some e)
                (Sleep (backoff * inject_Z (2 ^ (attempt - 1))) :: Attempt attempt :: trace))
      as [le Hle']; [intros i Hi; apply Hfail; lia|intros i Hi; apply Hsleep; lia|lia|].
    exists le. rewrite Hle'. f_equal; [lia|].
    simpl failed_from. rewrite !reverse_cons, <- !app_assoc. done.
Qed.

(** A sleep that raises ends the call: the exception leaves the function
    after the failed attempt, and no later attempt is made. *)
Lemma retry_loop_sleep_raises {A} (fetch : Z -> outcome A) sleep retries backoff
    attempt todo last_err trace e err :
  fetch attempt = Caught e ->
  (attempt < retries)%Z ->
  sleep (backoff * inject_Z (2 ^ (attempt - 1)))%Q = Some err ->
  retry_loop fetch sleep retries backoff attempt (S todo) last_err trace
  = (Propagated err, Attempt attempt :: trace).
Proof.
  intros He Hlt Hs. simpl retry_loop. rewrite He.
  destruct (Z.ltb_spec attempt retries); [|lia]. by rewrite Hs.
Qed.

(** With a negative back-off and a [time.sleep] that rejects negative
    durations, the first caught failure ends the call with the exception
    of [time.sleep]. *)
Example negative_backoff_leaves_after_first_failure :
  _read_csv_with_retries (fun _ : Z => @Caught string "timeout")
    sleep_non_negative 3 (-1)
  = (Propagated "sleep length must be non-negative", [Attempt 1]).
Proof. reflexivity. Qed.

(** X24: when the first attempts fail with a caught exception, the sleep
    after each of them returns, and attempt [a <= retries] succeeds,
    [_read_csv_with_retries] returns the table of attempt [a]; it has made
    exactly the attempts 1 to [a], and slept
    [backoff_seconds * 2 ** (i - 1)] seconds after each failed attempt
    [i]. *)
Theorem download_returns_first_success {A} (fetch : Z -> outcome A) sleep retries
    backoff (a : nat) (x : A) :
  (1 <= Z.of_nat a <= retries)%Z ->
  fetch (Z.of_nat a) = Fetched x ->
  (forall i, (1 <= i < Z.of_nat a)%Z -> exists e, fetch i = Caught e) ->
  (forall i, (1 <= i < Z.of_nat a)%Z ->
     sleep (backoff * inject_Z (2 ^ (i - 1)))%Q = None) ->
  _read_csv_with_retries fetch sleep retries backoff
  = (Returned x, failed_from backoff 1 (a - 1) ++ [Attempt (Z.of_nat a)]).
Proof.
  intros Ha Hx Hfail Hsleep. unfold _read_csv_with_retries.
  replace (Z.to_nat retries) with ((a - 1) + S (Z.to_nat retries - a)) by lia.
  destruct (retry_loop_skip fetch sleep retries backoff (a - 1) 1
              (S (Z.to_nat retries - a)) None []) as [le ->].
  { intros i Hi. apply Hfail. lia. }
  { intros i Hi. apply Hsleep. lia. }
  { lia. }
  replace (1 + Z.of_nat (a - 1))%Z with (Z.of_nat a) by lia.
  simpl retry_loop. rewrite Hx.
  by rewrite reverse_cons, app_nil_r, reverse_involutive.
Qed.

Lemma download_returns_first_success_witness :
  let fetch := fun i : Z => if (i =? 3)%Z then Fetched "table" else Caught "timeout" in
  (1 <= Z.of_nat 3 <= 3)%Z /\
  fetch (Z.of_nat 3) = Fetched "table" /\
  (forall i, (1 <= i < Z.of_nat 3)%Z -> exists e, fetch i = Caught e) /\
  (forall i, (1 <= i < Z.of_nat 3)%Z ->
     sleep_non_negative (1 * inject_Z (2 ^ (i - 1)))%Q = None) /\
  _read_csv_with_retries fetch sleep_non_negative 3 1
  = (Returned "table", failed_from 1 1 (3 - 1) ++ [Attempt (Z.of_nat 3)]).
Proof.
  intros fetch.
  assert (forall i, (1 <= i < Z.of_nat 3)%Z -> exists e, fetch i = Caught e) as Hfail.
  { intros i Hi. exists "timeout". unfold fetch.
    destruct (Z.eqb_spec i 3); [lia|done]. }
  assert (forall i, (1 <= i < Z.of_nat 3)%Z ->
            sleep_non_negative (1 * inject_Z (2 ^ (i - 1)))%Q = None) as Hsleep.
  { intros i Hi. assert (i = 1 \/ i = 2)%Z as [-> | ->] by lia; reflexivity. }
  split; [lia|]. split; [reflexivity|]. split; [exact Hfail|]. split; [exact Hsleep|].
  apply (download_returns_first_success fetch sleep_non_negative 3 1 3 "table");
    [lia|reflexivity|exact Hfail|exact Hsleep].
Defined.

(** X25: when every attempt fails with a caught exception and the sleep
    after each attempt but the last returns, [_read_csv_with_retries]
    raises [FREDDownloadError] carrying the error of the last attempt,
    after exactly [retries] attempts with a sleep after each but the last;
    and with [retries <= 0] it raises at once, without an attempt and
    without an error to report. *)
Theorem download_gives_up_after_retries {A} (fetch : Z -> outcome A) sleep retries
    backoff :
  (forall i, (1 <= i <= retries)%Z -> exists e, fetch i = Caught e) ->
  (forall i, (1 <= i < retries)%Z ->
     sleep (backoff * inject_Z (2 ^ (i - 1)))%Q = None) ->
  if (retries <=? 0)%Z
  then _read_csv_with_retries fetch sleep retries backoff
       = (FREDDownloadError retries None, [])
  else exists e,
    fetch retries = Caught e /\
    _read_csv_with_retries fetch sleep retries backoff
    = (FREDDownloadError retries (Some e),
       failed_from backoff 1 (Z.to_nat retries - 1) ++ [Attempt retries]).
Proof.
  intros Hfail Hsleep. unfold _read_csv_with_retries.
  destruct (Z.leb_spec retries 0) as [H0|H0].
  - replace (Z.to_nat retries) with 0 by lia. done.
  - destruct (Hfail retries) as [e He]; [lia|]. exists e. split; [done|].
    replace (Z.to_nat retries) with ((Z.to_nat retries - 1) + 1) at 1 by lia.
    destruct (retry_loop_skip fetch sleep retries backoff (Z.to_nat retries - 1) 1 1
                None []) as [le ->].
    { intros i Hi. apply Hfail. lia. }
    { intros i Hi. apply Hsleep. lia. }
    { lia. }
    replace (1 + Z.of_nat (Z.to_nat retries - 1))%Z with retries by lia.
    simpl retry_loop. rewrite He.
    destruct (Z.ltb_spec retries retries); [lia|].
    by rewrite reverse_cons, app_nil_r, reverse_involutive.
Qed.

Lemma download_gives_up_after_retries_witness :
  let fetch := fun _ : Z => @Caught string "timeout" in
  (forall i, (1 <= i <= 3)%Z -> exists e, fetch i = Caught e) /\
  (forall i, (1 <= i < 3)%Z ->
     sleep_non_negative (1 * inject_Z (2 ^ (i - 1)))%Q = None) /\
  if (3 <=? 0)%Z
  then _read_csv_with_retries fetch sleep_non_negative 3 1
       = (FREDDownloadError 3 None, [])
  else exists e,
    fetch 3%Z = Caught e /\
    _read_csv_with_retries fetch sleep_non_negative 3 1
    = (FREDDownloadError 3 (Some e),
       failed_from 1 1 (Z.to_nat 3 - 1) ++ [Attempt 3]).
Proof.
  intros fetch.
  assert (forall i, (1 <= i <= 3)%Z -> exists e, fetch i = Caught e) as Hfail
    by (intros i _; by exists "timeout").
  assert (forall i, (1 <= i < 3)%Z ->
            sleep_non_negative (1 * inject_Z (2 ^ (i - 1)))%Q = None) as Hsleep.
  { intros i Hi. assert (i = 1 \/ i = 2)%Z as [-> | ->] by lia; reflexivity. }
  split; [exact Hfail|]. split; [exact Hsleep|].
  apply (download_gives_up_after_retries fetch sleep_non_negative 3 1 Hfail Hsleep).
Defined.

(** ** Crisis labels during the warm-up *)

Lemma day_inputs_score df t d :
  day_inputs df t = Some d ->
  cell_at df "risk_off_score" t = Some (day_risk_off_score d).
Proof.
  unfold day_inputs. intros H.
  repeat match type of H with
  | (cell_at ?df ?c ?t ≫= _) = Some _ =>
      let x := fresh "x" in
      destruct (cell_at df c t) as [x|]; simpl in H; [|discriminate]
  end.
  by simplify_eq.
Qed.

(** A day of the warm-up: without a credit z-score the crisis rule and
    the exit condition are both false, so the day is assigned crisis
    exactly when the score override fires. *)
Lemma warm_up_day d (k : nat) :
  day_credit_z_1y d = None ->
  day_risk_off_score d = Some (inject_Z (Z.of_nat k)) ->
  k <= 3 ->
  (day_assigned d = Some CRISIS <-> k = 3) /\ day_exit d = false.
Proof.
  intros Hz Hs Hk. split.
  - unfold day_assigned, day_override, day_crisis. rewrite Hz, Hs. simpl.
    rewrite andb_false_r. simpl.
    assert (Qle_bool 3 (inject_Z (Z.of_nat k)) = bool_decide (k = 3)) as ->.
    { destruct k as [|[|[|[|k]]]]; try done. lia. }
    destruct (bool_decide_reflect (k = 3)) as [->|Hne]; [done|].
    split; [|done].
    destruct (day_pivot d), (day_late_cycle d), (day_expansion d); discriminate.
  - unfold day_exit. by rewrite Hz.
Qed.

(** X26: during the warm-up of the credit z-score (with the defaults, the
    first 201 dates) no rule but the score override can label a date
    crisis and the exit condition never holds: on a well-formed table of
    the four raw series, a date of the warm-up is labelled crisis exactly
    when all three stress sub-signals fire on it or on the date before. *)
Theorem warm_up_crisis_needs_all_signals qsqrt macro (t : nat) :
  wf_frame macro ->
  Forall (fun c => has_column macro c = true) raw_columns ->
  t < length (df_index macro) ->
  t <= 200 ->
  exists features regimes,
    features_and_regimes qsqrt macro = Ok (features, regimes) /\
    (regimes !! t = Some (Some CRISIS) <->
     signals_fired features t = 3 \/
     exists t', t = S t' /\ signals_fired features t' = 3).
Proof.
  intros Hwf Hraw Ht H200. unfold features_and_regimes.
  destruct (build_features_returns qsqrt macro 1 21 252 5) as [f Hf]; [lia|lia|].
  rewrite Hf. simpl.
  pose proof (build_features_extends _ _ _ _ _ _ _ Hf) as (Hidx & _ & Hwff).
  specialize (Hwff Hwf).
  pose proof (build_features_classifier_columns _ _ _ _ _ _ _ Hf Hraw) as Hcols.
  pose proof (required_present _ Hcols) as Hreq.
  destruct (assign_regimes_returns _ Hcols) as [pre Hpre].
  destruct (rule_based_regime_persistence _ _ Hpre) as (cz & vx & _ & _ & Hrule).
  set (labels := fillna TRANSITION _) in Hrule. clearbody labels.
  rewrite Hrule. simpl. exists f, labels. split; [done|].
  assert (exists s, df_columns macro !! "baa_10y_spread" = Some s) as [s Hs].
  { apply has_column_true. rewrite Forall_forall in Hraw. apply Hraw.
    unfold raw_columns. in_list. }
  pose proof (wf_frame_length _ _ _ Hwf Hs) as Hlen.
  assert (forall u, u <= t ->
            exists d k,
              day_inputs f u = Some d /\
              labels !! u = Some (Some (day_label (previous_day f u) d)) /\
              k = signals_fired f u /\
              (day_assigned d = Some CRISIS <-> k = 3) /\ day_exit d = false) as Hday.
  { intros u Hu.
    destruct (rule_based_regime_day f _ u Hwff Hreq Hrule) as (d & Hd & Hl);
      [rewrite Hidx; lia|].
    destruct (build_features_score _ _ _ _ _ _ _ u Hf Hwf) as [Hscore Hle];
      [lia| |].
    { left. rewrite Forall_forall in Hcols. apply Hcols. in_list. }
    assert (cell_at f "credit_z_1y" u = Some None) as Hcz.
    { apply (build_features_zscore_warmup _ _ _ _ _ _ _ "baa_10y_spread" _ s _ Hf);
        [by left|done|lia|lia|].
      change (Z.quot (252 * 8) 10) with 201%Z. lia. }
    destruct (day_inputs_cells _ _ _ Hd) as [Hdz _]. rewrite Hcz in Hdz.
    pose proof (day_inputs_score _ _ _ Hd) as Hds. rewrite Hscore in Hds.
    destruct (warm_up_day d (signals_fired f u)) as [Hass Hex];
      [congruence|congruence|done|].
    by exists d, (signals_fired f u). }
  destruct (Hday t) as (d & k & Hd & Hl & -> & Hass & Hex); [lia|].
  rewrite Hl. unfold day_label. rewrite Hex, andb_true_r.
  destruct t as [|t']; simpl.
  - split.
    + intros [= Heq]. left. apply Hass.
      destruct (day_assigned d) as [l|]; simpl in Heq; [by subst|done].
    + intros [H3|(t' & ? & _)]; [|done]. apply Hass in H3. by rewrite H3.
  - destruct (Hday t') as (d' & k' & Hd' & _ & -> & Hass' & _); [lia|].
    rewrite Hd'. simpl.
    destruct (bool_decide_reflect (day_assigned d' = Some CRISIS)) as [Hc|Hc].
    + split; [|done]. intros _. right. exists t'. split; [done|]. by apply Hass'.
    + split.
      * intros [= Heq]. left. apply Hass.
        destruct (day_assigned d) as [l|]; simpl in Heq; [by subst|done].
      * intros [H3|(t'' & [= <-] & H3)].
        -- apply Hass in H3. by rewrite H3.
        -- by apply Hass' in H3.
Qed.

Lemma warm_up_crisis_needs_all_signals_witness :
  wf_frame Examples.raw /\
  Forall (fun c => has_column Examples.raw c = true) raw_columns /\
  3 < length (df_index Examples.raw) /\
  3 <= 200 /\
  exists features regimes,
    features_and_regimes Examples.stand_in_sqrt Examples.raw = Ok (features, regimes) /\
    (regimes !! 3 = Some (Some CRISIS) <->
     signals_fired features 3 = 3 \/
     exists t', 3 = S t' /\ signals_fired features t' = 3).
Proof.
  assert (wf_frame Examples.raw) as Hwf
    by (apply (bool_decide_unpack _); vm_compute; exact I).
  assert (Forall (fun c => has_column Examples.raw c = true) raw_columns) as Hraw
    by (apply (bool_decide_unpack _); vm_compute; exact I).
  split; [exact Hwf|]. split; [exact Hraw|]. split; [simpl; lia|]. split; [lia|].
  apply (warm_up_crisis_needs_all_signals Examples.stand_in_sqrt Examples.raw 3 Hwf Hraw);
    [simpl; lia | lia].
Defined.
